(** * PageSpeed report: extraction of results and merging of recommendations

    A shallow embedding of the three source files of the repository:

    - [src/app/api/pagespeed/route.ts]  (module [PageSpeedRoute]),
    - [src/app/api/analyze/route.ts]    (module [AnalyzeRoute]),
    - the client page with [mergeRecommendations] and [getSavingsMs]
      (module [Page]).

    The form of the page with [handleSubmit] is module [HomePage], over the
    regular expressions of module [RegExp].

    JavaScript numbers are IEEE 754 doubles (module [Double]).  A finite
    double is written as the rational it is, and every arithmetic result is
    the exact result rounded to the nearest double, ties to even, or an
    infinity beyond the largest one ([JS.rounded]).  The numbers of a JSON
    payload are doubles, as [JSON.parse] leaves them.  Where the program
    computes with such a number, or returns it as an estimate, it is passed
    through [JS.rounded] first, which leaves a double as it is; a rational
    that is not a double is so read as the literal it is written as.
    [NaN] and the infinities are modelled where the code can produce them
    ([Number] of a malformed or very long literal, arithmetic on
    [undefined], a product beyond the largest double).  The sign of zero is
    not kept.

    Strings are sequences of code units below 256.  The string functions of
    the program ([toLowerCase], the test for a digit, the case-insensitive
    test of the scheme) are given on the ASCII characters, and the other
    characters are left as they are: none of them lowers to an ASCII letter
    or counts as a digit, and the program reads of a lowered string only
    its digits, its dots and the letters "m" and "s". *)

From Stdlib Require Import List Bool Arith ZArith QArith Qround Qabs Qpower.
From Stdlib Require Import Lia Lqa.
From Stdlib Require Import Ascii String DecimalString.
From Stdlib Require Import Sorted Permutation.
Import ListNotations.

Open Scope string_scope.
Open Scope list_scope.
Open Scope Q_scope.

(** ** Doubles *)

(** IEEE 754 binary64, the numbers of JavaScript.  A finite double is a
    rational [m * 2 ^ k] with [|m| < 2 ^ 53] and [-1074 <= k <= 971]. *)
Module Double.

(** [floor (log2 q)] for a positive [q]. *)
Definition ilog2 (q : Q) : Z :=
  let e := (Z.log2 (Qnum q) - Z.log2 (Zpos (Qden q)))%Z in
  if Qle_bool (2 ^ e) q then e else (e - 1)%Z.

(** The nearest integer, a tie going to the even one. *)
Definition nearest_even (q : Q) : Z :=
  let f := Qfloor q in
  match Qcompare (q - inject_Z f) (1 # 2) with
  | Lt => f
  | Gt => (f + 1)%Z
  | Eq => if Z.even f then f else (f + 1)%Z
  end.

(** The exponent [k] of the doubles [m * 2 ^ k] around [q]: 53 bits above
    the smallest normal number, the fixed exponent -1074 below. *)
Definition ulp_exponent (q : Q) : Z :=
  Z.max (ilog2 (Qabs q) - 52) (-1074).

(** Rounding to nearest, ties to even, with no bound on the exponent; the
    result is in lowest terms. *)
Definition nearest (q : Q) : Q :=
  if Qeq_bool q 0 then 0
  else
    let k := ulp_exponent q in
    Qred (inject_Z (nearest_even (q / 2 ^ k)) * 2 ^ k).

(** [Number.MAX_VALUE] *)
Definition MAX_VALUE : Q := inject_Z (2 ^ 53 - 1) * 2 ^ 971.

Definition finite (q : Q) : bool := Qle_bool (Qabs q) MAX_VALUE.

End Double.

(** ** The parts of JavaScript the program uses *)

Module JS.

(** [a > b] on finite numbers. *)
Definition gt (a b : Q) : bool :=
  match a ?= b with Gt => true | _ => false end.

(** [a < b] on finite numbers. *)
Definition lt (a b : Q) : bool :=
  match a ?= b with Lt => true | _ => false end.

(** [Math.round]: the nearest integer, a half rounded up. *)
Definition Math_round (x : Q) : Z := Qfloor (x + (1 # 2)).

(** [Boolean(s)] for a string: only the empty string is falsy. *)
Definition truthy (s : string) : bool :=
  match s with EmptyString => false | String _ _ => true end.

(** [Boolean(v)] for an optional string ([undefined] is falsy). *)
Definition truthy_opt (v : option string) : bool :=
  match v with Some s => truthy s | None => false end.

(** [v ?? d] *)
Definition nullish {A : Type} (v : option A) (d : A) : A :=
  match v with Some a => a | None => d end.

(** [o?.f] *)
Definition chain {A B : Type} (o : option A) (f : A -> option B)
    : option B :=
  match o with Some a => f a | None => None end.

(** A property that can be missing ([undefined]) or [null]. *)
Inductive nullable (A : Type) :=
| undefined
| null
| def (a : A).
Arguments undefined {A}.
Arguments null {A}.
Arguments def {A} a.

(** [v ?? d] for such a property. *)
Definition nullish_of {A : Type} (v : nullable A) (d : A) : A :=
  match v with def a => a | _ => d end.

(** A number: [NaN], an infinity or a finite number. *)
Inductive number :=
| NaN
| Infinity (positive : bool)
| Num (q : Q).

(** The double of an exact value: the nearest one, or an infinity beyond
    the largest.  This is what arithmetic makes of its exact result and
    what a numeric literal is read as; a double is left as it is. *)
Definition rounded (q : Q) : number :=
  let r := Double.nearest q in
  if Double.finite r then Num r else Infinity (lt 0 r).

(** The conversion that arithmetic applies to an operand. *)
Definition ToNumber (v : nullable Q) : number :=
  match v with
  | undefined => NaN
  | null => Num 0
  | def q => Num q
  end.

(** [a * b] for a positive double [b]: the product of the two doubles,
    rounded.  The operand [a] is a double, which [rounded] leaves as it
    is. *)
Definition times (a : number) (b : Q) : number :=
  match a with
  | Num q =>
      match rounded q with
      | Num double => rounded (double * b)
      | other => other
      end
  | other => other
  end.

(** [a / b] for a positive double [b]. *)
Definition over (a : number) (b : Q) : number :=
  match a with
  | Num q =>
      match rounded q with
      | Num double => rounded (double / b)
      | other => other
      end
  | other => other
  end.

(** [Math.round] on such a number. *)
Definition round (a : number) : number :=
  match a with
  | Num q => Num (inject_Z (Math_round q))
  | other => other
  end.

(** [a < b]; a comparison with [NaN] is false. *)
Definition less (a : number) (b : Q) : bool :=
  match a with
  | NaN => false
  | Infinity positive => negb positive
  | Num q => lt q b
  end.

(** [a > b] *)
Definition greater (a b : number) : bool :=
  match a, b with
  | NaN, _ | _, NaN => false
  | Infinity p, Infinity q => p && negb q
  | Infinity p, Num _ => p
  | Num _, Infinity q => negb q
  | Num x, Num y => gt x y
  end.

(** [a <= b] *)
Definition leq (a b : number) : bool :=
  match a, b with
  | NaN, _ | _, NaN => false
  | _, _ => negb (greater a b)
  end.

(** What [sort] reads of a comparator's result [a - b]: its sign, with
    [NaN] (the difference of two equal infinities) counted as [+0].  The
    difference of two doubles rounds to a double of the same sign, so for
    finite numbers the exact difference is given. *)
Definition difference (a b : number) : Q :=
  match a, b with
  | Num x, Num y => x - y
  | _, _ => if greater a b then 1 else if greater b a then - (1) else 0
  end.

(** *** Strings *)

Definition is_digit (c : ascii) : bool :=
  let n := nat_of_ascii c in (48 <=? n)%nat && (n <=? 57)%nat.

Definition is_upper (c : ascii) : bool :=
  let n := nat_of_ascii c in (65 <=? n)%nat && (n <=? 90)%nat.

Definition lower_char (c : ascii) : ascii :=
  if is_upper c then ascii_of_nat (nat_of_ascii c + 32) else c.

(** [s.toLowerCase()] (on the ASCII letters). *)
Fixpoint toLowerCase (s : string) : string :=
  match s with
  | EmptyString => EmptyString
  | String c s' => String (lower_char c) (toLowerCase s')
  end.

(** [s.replace(",", ".")]: a string pattern replaces the first occurrence
    only. *)
Fixpoint replace_comma (s : string) : string :=
  match s with
  | EmptyString => EmptyString
  | String c s' =>
      if Ascii.eqb c "," then String "." s' else String c (replace_comma s')
  end.

(** [s.startsWith(p)] *)
Fixpoint startsWith (p s : string) : bool :=
  match p, s with
  | EmptyString, _ => true
  | String a p', String b s' => Ascii.eqb a b && startsWith p' s'
  | String _ _, EmptyString => false
  end.

(** [s.includes(sub)] *)
Fixpoint includes (sub s : string) : bool :=
  startsWith sub s ||
  match s with
  | EmptyString => false
  | String _ s' => includes sub s'
  end.

(** The character class [[\d.]]. *)
Definition digit_or_dot (c : ascii) : bool :=
  is_digit c || Ascii.eqb c ".".

(** The longest prefix of [s] made of [[\d.]] characters. *)
Fixpoint run (s : string) : string :=
  match s with
  | EmptyString => EmptyString
  | String c s' => if digit_or_dot c then String c (run s') else EmptyString
  end.

(** [s.match(/([\d.]+)/)]: the capture of the leftmost, greedy match;
    [None] is JavaScript's [null]. *)
Fixpoint match_number (s : string) : option string :=
  match s with
  | EmptyString => None
  | String c s' => if digit_or_dot c then Some (run s) else match_number s'
  end.

(** Decimal digits read as an integer, most significant first. *)
Fixpoint digits_value (acc : Z) (s : string) : Z :=
  match s with
  | EmptyString => acc
  | String c s' =>
      digits_value (10 * acc + (Z.of_nat (nat_of_ascii c) - 48))%Z s'
  end.

Fixpoint all_digits (s : string) : bool :=
  match s with
  | EmptyString => true
  | String c s' => is_digit c && all_digits s'
  end.

(** Splits at the first dot: the text before it and, when there is a dot,
    the text after it. *)
Fixpoint split_dot (s : string) : string * option string :=
  match s with
  | EmptyString => (EmptyString, None)
  | String c s' =>
      if Ascii.eqb c "." then (EmptyString, Some s')
      else let (i, f) := split_dot s' in (String c i, f)
  end.

(** The value of a string of [[\d.]] characters, as [match_number]
    captures them, read as a decimal literal.  Such a string is a numeric
    literal when it has at most one dot and at least one digit ("12",
    "1.5", "1.", ".5"). *)
Definition literal (s : string) : option Q :=
  match split_dot s with
  | (i, None) =>
      if all_digits i && truthy i
      then Some (inject_Z (digits_value 0 i)) else None
  | (i, Some f) =>
      if all_digits i && all_digits f && (truthy i || truthy f)
      then Some (inject_Z (digits_value 0 (i ++ f)%string)
                 / inject_Z (10 ^ Z.of_nat (String.length f)))
      else None
  end.

(** [Number(s)] for such a string: the double nearest to the literal, an
    infinity for a literal beyond the largest double, and [NaN] for a string
    that is no literal. *)
Definition Number (s : string) : number :=
  match literal s with
  | Some q => rounded q
  | None => NaN
  end.

End JS.

(** ** Arrays and maps *)

Module JSArray.
Section Sort.
Context {A : Type} (comparefn : A -> A -> Q).

(** Puts [x] in front of the first element it need not follow:
    [comparefn x y > 0] says that [x] goes after [y]. *)
Fixpoint sort_insert (x : A) (l : list A) : list A :=
  match l with
  | [] => [x]
  | y :: l' =>
      if JS.gt (comparefn x y) 0 then y :: sort_insert x l' else x :: l
  end.

(** [l.sort(comparefn)].  For a consistent comparator the language fixes
    the result: the ordering of [l] in which elements that compare equal keep
    their places.  Insertion from the right computes it; the comparators of
    the program are differences of numbers that are never [NaN], which are
    consistent. *)
Definition sort (l : list A) : list A := fold_right sort_insert [] l.
End Sort.

(** Descending order by a numeric key: every element is at least as large
    as each element after it. *)
Definition descending {A : Type} (key : A -> Q) (l : list A) : Prop :=
  StronglySorted (fun a b => key b <= key a) l.

(** The same for a key that can be an infinity, as JavaScript compares. *)
Definition descending_numbers {A : Type} (key : A -> JS.number)
    (l : list A) : Prop :=
  StronglySorted (fun a b => JS.leq (key b) (key a) = true) l.

(** [l.slice(0, n)] *)
Definition slice0 {A : Type} (n : nat) (l : list A) : list A := firstn n l.
End JSArray.

(** A [Map] with string keys, or an object used as a dictionary: the entries
    in insertion order, one per key. *)
Module JSMap.
Section Map.
Context {V : Type}.

Definition t := list (string * V).

Definition empty : t := [].

Fixpoint get (m : t) (k : string) : option V :=
  match m with
  | [] => None
  | (k', v) :: m' => if String.eqb k k' then Some v else get m' k
  end.

(** [m.set(k, v)]: a present key keeps its place, a new one goes last. *)
Fixpoint set (m : t) (k : string) (v : V) : t :=
  match m with
  | [] => [(k, v)]
  | (k', v') :: m' =>
      if String.eqb k k' then (k', v) :: m' else (k', v') :: set m' k v
  end.

Definition keys (m : t) : list string := map fst m.
Definition values (m : t) : list V := map snd m.

(** An array index: the canonical decimal form of an integer below
    [2 ^ 32 - 1]. *)
Definition index_of (k : string) : option Z :=
  match k with
  | EmptyString => None
  | String c rest =>
      if JS.all_digits k
         && (negb (Ascii.eqb c "0") || negb (JS.truthy rest))
         && (JS.digits_value 0 k <? 2 ^ 32 - 1)%Z
      then Some (JS.digits_value 0 k)
      else None
  end.

Definition is_index (e : string * V) : bool :=
  match index_of (fst e) with Some _ => true | None => false end.

Definition index (e : string * V) : Q :=
  match index_of (fst e) with Some i => inject_Z i | None => 0 end.

(** The own properties of an object in the order of the language: the
    array indices in ascending order, then the other keys in insertion
    order. *)
Definition ordered (m : t) : t :=
  JSArray.sort (fun a b => index a - index b) (filter is_index m)
  ++ filter (fun e => negb (is_index e)) m.

(** [Object.values(m)] *)
Definition Object_values (m : t) : list V := map snd (ordered m).
End Map.
Arguments t : clear implicits.
End JSMap.

(** ** The client page: merging the two recommendation lists *)

Module Page.

(** [Recommendations[number]] *)
Record Recommendation := {
  title : string;
  description : option string;
  savings : option string;
  savingsMs : option Q
}.

Definition Recommendations := list Recommendation.

(** [savings.replace(",", ".").toLowerCase()] *)
Definition normalize (savings : string) : string :=
  JS.toLowerCase (JS.replace_comma savings).

(** [getSavingsMs] (lines 240-263 of the page).  [typeof item.savingsMs ===
    "number"] holds exactly when the property is there, and the number is
    the double of its literal; [Number.isFinite] fails on [NaN] and on an
    infinity. *)
Definition getSavingsMs (item : Recommendation) : JS.number :=
  match savingsMs item with
  | Some ms => JS.rounded ms
  | None =>
      if negb (JS.truthy_opt (savings item)) then JS.Num 0
      else
        let normalized := normalize (JS.nullish (savings item) "") in
        match JS.match_number normalized with
        | None => JS.Num 0
        | Some m =>
            match JS.Number m with
            | JS.Num value =>
                if JS.includes "ms" normalized then JS.Num value
                else if JS.includes "s" normalized
                then JS.times (JS.Num value) 1000
                else JS.Num value
            | _ => JS.Num 0
            end
        end
  end.

(** The body of the [forEach] callback. *)
Definition merge_item (byTitle : JSMap.t Recommendation)
    (item : Recommendation) : JSMap.t Recommendation :=
  match JSMap.get byTitle (title item) with
  | None => JSMap.set byTitle (title item) item
  | Some existing =>
      if JS.greater (getSavingsMs item) (getSavingsMs existing)
      then JSMap.set byTitle (title item) item
      else byTitle
  end.

(** [byTitle] after [items.forEach]. *)
Definition byTitle_of (items : Recommendations) : JSMap.t Recommendation :=
  fold_left merge_item items JSMap.empty.

(** [mergeRecommendations] (lines 217-238 of the page). *)
Definition mergeRecommendations (mobile desktop : Recommendations)
    : Recommendations :=
  JSArray.slice0 5
    (JSArray.sort
       (fun a b => JS.difference (getSavingsMs b) (getSavingsMs a))
       (JSMap.values (byTitle_of (mobile ++ desktop)))).

End Page.

(** ** Requests, upstream calls and promises, shared by the two routes *)

Module Http.

Inductive Strategy := Mobile | Desktop.

(** The text of an error message.  The messages of the source are kept as
    constructors; their texts are given with each. *)
Inductive Message :=
| InvalidUrl
    (* "Informe uma URL válida com http ou https." *)
| KeyNotConfigured
    (* "GOOGLE_PAGESPEED_API_KEY não configurada." *)
| FetchFailed (strategy : Strategy) (text : string)
    (* `Falha ao consultar PageSpeed (${strategy}). ${message || ""}`.trim() *)
| Required
    (* 'Email e URL são obrigatórios' *)
| ApiKeyMissing
    (* 'API key não configurada' *)
| ApiError (status : nat)
    (* `PageSpeed API error: ${response.status}` *)
| AnalyzeFallback
    (* 'Erro ao analisar site' *)
| CannotRead (property : string)
    (* the TypeError of reading [property] of undefined or null *)
| Runtime (text : string)
    (* the message of a SyntaxError of [json()] or of a failed [fetch] *).

(** Only a runtime error can carry an empty message. *)
Definition message_truthy (m : Message) : bool :=
  match m with Runtime text => JS.truthy text | _ => true end.

(** What [json()] gives: it throws a SyntaxError or returns the value. *)
Inductive Parsed (A : Type) :=
| SyntaxError (text : string)
| Json (a : A).
Arguments SyntaxError {A} text.
Arguments Json {A} a.

(** A JSON value, read through the properties of [A].  [null] has no
    properties; every other value that is not an object with these
    properties reads as [undefined] for each of them. *)
Inductive Body (A : Type) :=
| JsonNull
| JsonValue (fields : A).
Arguments JsonNull {A}.
Arguments JsonValue {A} fields.

(** The properties that the handlers read of the body of a request: each
    is a string, as the page sends it, or missing. *)
Record Fields := { url : option string; email : option string }.

Definition Request := Parsed (Body Fields).

(** An upstream call: the parameters put in the query string of
    [https://www.googleapis.com/pagespeedonline/v5/runPagespeed].  The url
    goes through [encodeURIComponent], which throws only on a lone
    surrogate: a string of characters below 256 has none, so building the
    query never fails here. *)
Record Call := {
  call_url : string;
  call_key : string;
  call_strategy : Strategy;
  call_category : option string
}.

Record Upstream (P : Type) := {
  up_status : nat;
  up_text : string;
  up_json : Parsed (Body P)
}.
Arguments up_status {P} u.
Arguments up_text {P} u.
Arguments up_json {P} u.

(** [response.ok] *)
Definition ok {P : Type} (r : Upstream P) : bool :=
  (200 <=? up_status r)%nat && (up_status r <=? 299)%nat.

(** What [fetch] settles to. *)
Inductive Fetched (P : Type) :=
| NetworkFailure (text : string)
| Responded (r : Upstream P).
Arguments NetworkFailure {P} text.
Arguments Responded {P} r.

(** The process environment and the network, as the handlers see them. *)
Record Env (P : Type) := {
  GOOGLE_PAGESPEED_API_KEY : option string;
  fetch : Call -> Fetched P
}.
Arguments GOOGLE_PAGESPEED_API_KEY {P} e.
Arguments fetch {P} e c.

(** A settled promise; every value thrown here is an [Error] object, kept
    as its message. *)
Inductive Outcome (A : Type) :=
| Fulfilled (a : A)
| Rejected (message : Message).
Arguments Fulfilled {A} a.
Arguments Rejected {A} message.

Definition bind {A B : Type} (o : Outcome A) (k : A -> Outcome B)
    : Outcome B :=
  match o with
  | Fulfilled a => k a
  | Rejected m => Rejected m
  end.

(** Reading a property of [v]: a TypeError when [v] is undefined. *)
Definition reading {A : Type} (property : string) (v : option A)
    : Outcome A :=
  match v with
  | Some a => Fulfilled a
  | None => Rejected (CannotRead property)
  end.

(** [Promise.all([m, d])]: fulfilled when both are; otherwise rejected with
    the reason of the promise that rejects first, which [first] names when
    both reject. *)
Definition Promise_all {A : Type} (first : Strategy)
    (m d : Outcome A) : Outcome (A * A) :=
  match m, d with
  | Fulfilled a, Fulfilled b => Fulfilled (a, b)
  | Rejected e, Fulfilled _ => Rejected e
  | Fulfilled _, Rejected e => Rejected e
  | Rejected em, Rejected ed =>
      Rejected (match first with Mobile => em | Desktop => ed end)
  end.

Record Response (B : Type) := { status : nat; body : B }.
Arguments status {B} r.
Arguments body {B} r.

Declare Scope outcome_scope.
Delimit Scope outcome_scope with outcome.
Notation "x <- e ;; k" := (bind e (fun x => k))
  (at level 61, e at next level, right associativity) : outcome_scope.

(** [/^https?:\/\//i.test(s)] *)
Definition test_http (s : string) : bool :=
  let folded := JS.toLowerCase s in
  JS.startsWith "http://" folded || JS.startsWith "https://" folded.

End Http.

(** ** [src/app/api/pagespeed/route.ts] *)

Module PageSpeedRoute.
Import Http.

Module METRIC_MAP.
Definition fcp := "first-contentful-paint".
Definition lcp := "largest-contentful-paint".
Definition tbt := "total-blocking-time".
Definition cls := "cumulative-layout-shift".
End METRIC_MAP.

Module Audit.
Record PageSpeedAudit := {
  id : string;
  title : string;
  description : option string;
  score : JS.nullable Q;
  displayValue : option string;
  numericValue : option Q
}.
End Audit.
Abbreviation PageSpeedAudit := Audit.PageSpeedAudit.

Module AuditRef.
Record t := { id : string; weight : Q }.
End AuditRef.

Module Performance.
Record t := { score : option Q; auditRefs : option (list AuditRef.t) }.
End Performance.

Module Categories.
Record t := { performance : option Performance.t }.
End Categories.

Module Lighthouse.
Record t := {
  categories : option Categories.t;
  audits : option (JSMap.t PageSpeedAudit)
}.
End Lighthouse.

Record PageSpeedResponse := { lighthouseResult : option Lighthouse.t }.

Module Metrics.
Record t := { fcp : string; lcp : string; tbt : string; cls : string }.
End Metrics.

Module Entry.
Record t := { title : string; description : option string }.
End Entry.

Record ApiResult := {
  score : JS.number;
  metrics : Metrics.t;
  recommendations : list Entry.t
}.

(** [fetchPageSpeed] (lines 42-64): the upstream calls it makes and what
    its promise settles to. *)
Definition fetchPageSpeed (env : Env PageSpeedResponse) (url : string)
    (strategy : Strategy) : list Call * Outcome (Body PageSpeedResponse) :=
  let key := GOOGLE_PAGESPEED_API_KEY env in
  if negb (JS.truthy_opt key) then ([], Rejected KeyNotConfigured)
  else
    let apiUrl :=
      {| call_url := url;
         call_key := JS.nullish key "";
         call_strategy := strategy;
         call_category := Some "performance" |} in
    ([apiUrl],
     match fetch env apiUrl with
     | NetworkFailure text => Rejected (Runtime text)
     | Responded response =>
         if negb (ok response)
         then Rejected (FetchFailed strategy (up_text response))
         else
           match up_json response with
           | SyntaxError text => Rejected (Runtime text)
           | Json payload => Fulfilled payload
           end
     end).

(** [audits[id]?.displayValue ?? "--"] *)
Definition metric (audits : JSMap.t PageSpeedAudit) (id : string) : string :=
  JS.nullish (JS.chain (JSMap.get audits id) Audit.displayValue) "--".

(** [Boolean(audit?.title)] *)
Definition has_title (audit : option PageSpeedAudit) : bool :=
  JS.truthy_opt (option_map Audit.title audit).

(** The type guard of the first filter: what passes [has_title] is an
    audit. *)
Fixpoint narrowed (l : list (option PageSpeedAudit)) : list PageSpeedAudit :=
  match l with
  | [] => []
  | Some audit :: l' => audit :: narrowed l'
  | None :: l' => narrowed l'
  end.

(** The audits behind the recommendations: the chain of [extractResult] up
    to [slice(0, 3)]. *)
Definition selected (refs : list AuditRef.t)
    (audits : JSMap.t PageSpeedAudit) : list PageSpeedAudit :=
  JSArray.slice0 3
    (JSArray.sort
       (fun a b => JS.nullish (Audit.numericValue b) 0
                   - JS.nullish (Audit.numericValue a) 0)
       (filter (fun audit => JS.lt (JS.nullish_of (Audit.score audit) 1) 1)
          (narrowed
             (filter has_title
                (map (fun ref => JSMap.get audits (AuditRef.id ref))
                   refs))))).

(** [payload.lighthouseResult?.categories?.performance] *)
Definition performance_of (payload : PageSpeedResponse)
    : option Performance.t :=
  JS.chain (JS.chain (lighthouseResult payload) Lighthouse.categories)
    Categories.performance.

(** [payload.lighthouseResult?.audits ?? {}] *)
Definition audits_of (payload : PageSpeedResponse)
    : JSMap.t PageSpeedAudit :=
  JS.nullish (JS.chain (lighthouseResult payload) Lighthouse.audits)
    JSMap.empty.

(** The callback of the last [map]. *)
Definition entry_of (audit : PageSpeedAudit) : Entry.t :=
  {| Entry.title := Audit.title audit;
     Entry.description := Audit.description audit |}.

(** [extractResult] (lines 66-91) for a payload that is not [null]. *)
Definition extractResult (payload : PageSpeedResponse) : ApiResult :=
  let performance := performance_of payload in
  let audits := audits_of payload in
  let score :=
    JS.round
      (JS.times
         (JS.Num (JS.nullish (JS.chain performance Performance.score) 0))
         100) in
  let metrics :=
    {| Metrics.fcp := metric audits METRIC_MAP.fcp;
       Metrics.lcp := metric audits METRIC_MAP.lcp;
       Metrics.tbt := metric audits METRIC_MAP.tbt;
       Metrics.cls := metric audits METRIC_MAP.cls |} in
  let recommendations :=
    JS.nullish
      (option_map (fun refs => map entry_of (selected refs audits))
         (JS.chain performance Performance.auditRefs))
      [] in
  {| score := score; metrics := metrics; recommendations := recommendations |}.

(** [extractResult(payload)] for what [json()] gave: reading
    [lighthouseResult] of [null] (line 67) throws. *)
Definition extracted (payload : Body PageSpeedResponse) : Outcome ApiResult :=
  match payload with
  | JsonNull => Rejected (CannotRead "lighthouseResult")
  | JsonValue payload => Fulfilled (extractResult payload)
  end.

Inductive ResponseBody :=
| ErrorBody (error : Message)
| ReportBody (mobile desktop : ApiResult).

Local Open Scope outcome_scope.

(** Lines 103-111: the two payloads, then their extractions, the mobile one
    first. *)
Definition report (first : Strategy)
    (mobile desktop : Outcome (Body PageSpeedResponse))
    : Outcome (ApiResult * ApiResult) :=
  payloads <- Promise_all first mobile desktop ;;
  mobile <- extracted (fst payloads) ;;
  desktop <- extracted (snd payloads) ;;
  Fulfilled (mobile, desktop).

(** [POST] (lines 93-119): the upstream calls it makes and its response.
    [first] names the upstream call that settles first.  Every value thrown
    inside the [try] is an [Error], so the [catch] answers with its
    message. *)
Definition POST (env : Env PageSpeedResponse) (request : Request)
    (first : Strategy) : list Call * Response ResponseBody :=
  match request with
  | SyntaxError text =>
      ([], {| status := 500; body := ErrorBody (Runtime text) |})
  | Json JsonNull =>
      ([], {| status := 500; body := ErrorBody (CannotRead "url") |})
  | Json (JsonValue body) =>
      if negb (JS.truthy_opt (url body))
         || negb (test_http (JS.nullish (url body) ""))
      then ([], {| status := 400; body := ErrorBody InvalidUrl |})
      else
        let target := JS.nullish (url body) "" in
        let (calls_m, mobile) := fetchPageSpeed env target Mobile in
        let (calls_d, desktop) := fetchPageSpeed env target Desktop in
        (calls_m ++ calls_d,
         match report first mobile desktop with
         | Fulfilled (mobile, desktop) =>
             {| status := 200; body := ReportBody mobile desktop |}
         | Rejected message =>
             {| status := 500; body := ErrorBody message |}
         end)
  end.

End PageSpeedRoute.

(** ** [src/app/api/analyze/route.ts] *)

Module AnalyzeRoute.
Import Http.

(** The payload is untyped in the source; these are the properties that
    [analyzePageSpeed] reads, with the types that the PageSpeed API gives
    them: a score is a number, [null] or missing, the savings are a number
    or missing, and every entry of [audits] is an object. *)
Module Details.
Record t := { overallSavingsMs : option Q }.
End Details.

Module Audit.
Record t := {
  title : option string;
  description : option string;
  score : JS.nullable Q;
  displayValue : option string;
  details : option Details.t
}.
End Audit.

Module Performance.
Record t := { score : JS.nullable Q }.
End Performance.

Module Categories.
Record t := { performance : option Performance.t }.
End Categories.

Module Lighthouse.
Record t := {
  categories : option Categories.t;
  audits : option (JSMap.t Audit.t)
}.
End Lighthouse.

Record Data := { lighthouseResult : option Lighthouse.t }.

Module Metrics.
Record t := {
  fcp : option string;
  lcp : option string;
  tbt : option string;
  cls : option string;
  speedIndex : option string
}.
End Metrics.

Module Entry.
Record t := {
  title : option string;
  description : option string;
  savings : string;
  savingsMs : Q
}.
End Entry.

Record Analysis := {
  score : JS.number;
  metrics : Metrics.t;
  recommendations : list Entry.t
}.

(** [audit.details?.overallSavingsMs] *)
Definition overallSavingsMs (audit : Audit.t) : option Q :=
  JS.chain (Audit.details audit) Details.overallSavingsMs.

(** The predicate of the filter. *)
Definition room_for_improvement (audit : Audit.t) : bool :=
  negb (match Audit.score audit with JS.null => true | _ => false end)
  && JS.less (JS.ToNumber (Audit.score audit)) 1
  && match overallSavingsMs audit with
     | Some ms => JS.gt ms 100
     | None => false
     end.

(** [audit.details.overallSavingsMs] in the comparator and in the template:
    only audits that passed the filter reach them, and those have the
    number. *)
Definition savings_of (audit : Audit.t) : Q :=
  JS.nullish (overallSavingsMs audit) 0.

(** The audits behind the recommendations: the chain over
    [Object.values(audits)] up to [slice(0, 3)]. *)
Definition selected (audits : JSMap.t Audit.t) : list Audit.t :=
  JSArray.slice0 3
    (JSArray.sort (fun a b => savings_of b - savings_of a)
       (filter room_for_improvement (JSMap.Object_values audits))).

(** The decimal digits of a natural number. *)
Definition decimal (z : Z) : string :=
  NilZero.string_of_uint (N.to_uint (Z.to_N z)).

(** Without the zeros at the end. *)
Fixpoint strip_zeros (s : string) : string :=
  match s with
  | EmptyString => EmptyString
  | String c s' =>
      match strip_zeros s' with
      | EmptyString =>
          if Ascii.eqb c "0" then EmptyString else String c EmptyString
      | t => String c t
      end
  end.

(** Whether the decimal [s * 10 ^ e] is read as the double [v]. *)
Definition reads_as (v s e : Z) : bool :=
  match JS.rounded (inject_Z (s * 10 ^ e)) with
  | JS.Num q => Qeq_bool q (inject_Z v)
  | _ => false
  end.

(** The significand of [k] digits for [v], a number of [n] digits: of the
    two multiples of [10 ^ (n - k)] around [v], one that is read as [v], the
    closer one when both are, and the even one when they are as close. *)
Definition significand (v n k : Z) : option Z :=
  let e := (n - k)%Z in
  let lo := (v / 10 ^ e)%Z in
  let hi := (lo + 1)%Z in
  match reads_as v lo e, reads_as v hi e with
  | true, true =>
      match (v - lo * 10 ^ e ?= hi * 10 ^ e - v)%Z with
      | Lt => Some lo
      | Gt => Some hi
      | Eq => Some (if Z.even lo then lo else hi)
      end
  | true, false => Some lo
  | false, true => Some hi
  | false, false => None
  end.

(** The shortest significand that is read as [v], with its power of ten:
    [k] digits are tried before [k + 1]. *)
Fixpoint shortest (v n : Z) (k : Z) (fuel : nat) : Z * Z :=
  match fuel with
  | O => (v, 0%Z)
  | S fuel' =>
      match significand v n k with
      | Some s => (s, (n - k)%Z)
      | None => shortest v n (k + 1) fuel'
      end
  end.

(** [Number::toString] for a positive integer that is a double: the
    shortest digits that are read as it, followed by zeros up to 21 digits
    and by an exponent beyond. *)
Definition show_natural (v : Z) : string :=
  let n := Z.of_nat (String.length (decimal v)) in
  let (s, e) := shortest v n 1 (Z.to_nat n) in
  let digits := strip_zeros (decimal s) in
  let point := (Z.of_nat (String.length (decimal s)) + e)%Z in
  if (point <=? 21)%Z
  then
    (digits
     ++ String.concat ""
          (repeat "0" (Z.to_nat point - String.length digits)))%string
  else
    let exponent := ("e+" ++ decimal (point - 1))%string in
    match digits with
    | String d EmptyString => String d exponent
    | String d rest => (String d (String "." rest) ++ exponent)%string
    | EmptyString => EmptyString
    end.

(** A rounded number in a template literal. *)
Definition show (a : JS.number) : string :=
  match a with
  | JS.NaN => "NaN"
  | JS.Infinity true => "Infinity"
  | JS.Infinity false => "-Infinity"
  | JS.Num q =>
      match Qfloor q with
      | Z0 => "0"
      | Zpos p => show_natural (Zpos p)
      | Zneg p => String "-" (show_natural (Zpos p))
      end
  end.

(** [`${Math.round(audit.details.overallSavingsMs / 1000)}s`] *)
Definition seconds (audit : Audit.t) : string :=
  (show (JS.round (JS.over (JS.Num (savings_of audit)) 1000)) ++ "s")%string.

Definition entry_of (audit : Audit.t) : Entry.t :=
  {| Entry.title := Audit.title audit;
     Entry.description := Audit.description audit;
     Entry.savings :=
       if JS.truthy_opt (Audit.displayValue audit)
       then JS.nullish (Audit.displayValue audit) ""
       else seconds audit;
     Entry.savingsMs := JS.nullish (overallSavingsMs audit) 0 |}.

Local Open Scope outcome_scope.

(** [audits[id].displayValue] *)
Definition metric (audits : option (JSMap.t Audit.t)) (id : string)
    : Outcome (option string) :=
  dict <- reading id audits ;;
  audit <- reading "displayValue" (JSMap.get dict id) ;;
  Fulfilled (Audit.displayValue audit).

(** The part of [analyzePageSpeed] after [response.json()] (lines 57-81)
    for a payload that is not [null].  The properties are read in the order
    of the source, so the first missing one decides the error. *)
Definition extract (data : Data) : Outcome Analysis :=
  let lighthouse := lighthouseResult data in
  lighthouse <- reading "categories" lighthouse ;;
  let categories := Lighthouse.categories lighthouse in
  let audits := Lighthouse.audits lighthouse in
  categories <- reading "performance" categories ;;
  performance <- reading "score" (Categories.performance categories) ;;
  let score :=
    JS.round (JS.times (JS.ToNumber (Performance.score performance)) 100) in
  fcp <- metric audits "first-contentful-paint" ;;
  lcp <- metric audits "largest-contentful-paint" ;;
  tbt <- metric audits "total-blocking-time" ;;
  cls <- metric audits "cumulative-layout-shift" ;;
  speedIndex <- metric audits "speed-index" ;;
  Fulfilled
    {| score := score;
       metrics :=
         {| Metrics.fcp := fcp; Metrics.lcp := lcp; Metrics.tbt := tbt;
            Metrics.cls := cls; Metrics.speedIndex := speedIndex |};
       (* [audits] is defined here: the metrics were read from it *)
       recommendations :=
         map entry_of (selected (JS.nullish audits JSMap.empty)) |}.

(** [analyzePageSpeed] (lines 46-82). *)
Definition analyzePageSpeed (env : Env Data) (url : string)
    (strategy : Strategy) (apiKey : string) : list Call * Outcome Analysis :=
  let apiUrl :=
    {| call_url := url;
       call_key := apiKey;
       call_strategy := strategy;
       call_category := None |} in
  ([apiUrl],
   match fetch env apiUrl with
   | NetworkFailure text => Rejected (Runtime text)
   | Responded response =>
       if negb (ok response)
       then Rejected (ApiError (up_status response))
       else
         match up_json response with
         | SyntaxError text => Rejected (Runtime text)
         | Json JsonNull => Rejected (CannotRead "lighthouseResult")
         | Json (JsonValue data) => extract data
         end
   end).

Inductive ResponseBody :=
| ErrorBody (error : Message)
| ReportBody (mobile desktop : Analysis) (url email : string).

(** [error.message || 'Erro ao analisar site'] *)
Definition caught (message : Message) : Response ResponseBody :=
  {| status := 500;
     body := ErrorBody
               (if message_truthy message then message
                else AnalyzeFallback) |}.

(** [POST] (lines 3-44): the upstream calls it makes and its response.
    [first] names the upstream call that settles first. *)
Definition POST (env : Env Data) (request : Request) (first : Strategy)
    : list Call * Response ResponseBody :=
  match request with
  | SyntaxError text => ([], caught (Runtime text))
  | Json JsonNull => ([], caught (CannotRead "email"))
  | Json (JsonValue fields) =>
      if negb (JS.truthy_opt (email fields))
         || negb (JS.truthy_opt (url fields))
      then ([], {| status := 400; body := ErrorBody Required |})
      else
        let email := JS.nullish (email fields) "" in
        let url := JS.nullish (url fields) "" in
        let apiKey := GOOGLE_PAGESPEED_API_KEY env in
        if negb (JS.truthy_opt apiKey)
        then ([], {| status := 500; body := ErrorBody ApiKeyMissing |})
        else
          let apiKey := JS.nullish apiKey "" in
          let (calls_m, mobileData) :=
            analyzePageSpeed env url Mobile apiKey in
          let (calls_d, desktopData) :=
            analyzePageSpeed env url Desktop apiKey in
          (calls_m ++ calls_d,
           match Promise_all first mobileData desktopData with
           | Fulfilled (mobileData, desktopData) =>
               {| status := 200;
                  body := ReportBody mobileData desktopData url email |}
           | Rejected message => caught message
           end)
  end.

End AnalyzeRoute.

(** ** Sample payloads and environments *)

Module Samples.
Import Http.

Module Simple.
Import PageSpeedRoute.

Definition audit (id title : string) (score : JS.nullable Q)
    (displayValue : option string) (numericValue : option Q)
    : string * PageSpeedAudit :=
  (id,
   {| Audit.id := id; Audit.title := title; Audit.description := None;
      Audit.score := score; Audit.displayValue := displayValue;
      Audit.numericValue := numericValue |}).

Definition audits : JSMap.t PageSpeedAudit :=
  [ audit "first-contentful-paint" "First Contentful Paint"
      (JS.def 1) (Some "0.8 s") (Some 800);
    audit "largest-contentful-paint" "Largest Contentful Paint"
      (JS.def (1 # 2)) (Some "3.1 s") (Some 3100);
    audit "unused-javascript" "Reduce unused JavaScript"
      (JS.def 0) (Some "Potential savings of 120 KiB") (Some 450);
    audit "final-screenshot" "Final Screenshot"
      JS.null None (Some 9000);
    audit "network-requests" "Network Requests"
      JS.undefined None (Some 8000) ].

Definition ref (id : string) : AuditRef.t :=
  {| AuditRef.id := id; AuditRef.weight := 1 |}.

Definition payload : PageSpeedResponse :=
  {| lighthouseResult :=
       Some
         {| Lighthouse.categories :=
              Some
                {| Categories.performance :=
                     Some
                       {| Performance.score := Some (87 # 100);
                          Performance.auditRefs :=
                            Some
                              [ ref "first-contentful-paint";
                                ref "unused-javascript";
                                ref "final-screenshot";
                                ref "largest-contentful-paint";
                                ref "network-requests";
                                ref "total-blocking-time" ] |} |};
            Lighthouse.audits := Some audits |} |}.

(** A payload without a performance category and without audits. *)
Definition bare : PageSpeedResponse := {| lighthouseResult := None |}.

(** The first call succeeds, the second is refused. *)
Definition env : Env PageSpeedResponse :=
  {| GOOGLE_PAGESPEED_API_KEY := Some "key";
     fetch := fun call =>
       match call_strategy call with
       | Mobile =>
           Responded {| up_status := 200; up_text := "";
                        up_json := Json (JsonValue payload) |}
       | Desktop =>
           Responded {| up_status := 429; up_text := "quota";
                        up_json := SyntaxError "Unexpected token" |}
       end |}.

(** Both calls succeed. *)
Definition serving (payload : PageSpeedResponse)
    : Env PageSpeedResponse :=
  {| GOOGLE_PAGESPEED_API_KEY := Some "key";
     fetch := fun _ =>
       Responded {| up_status := 200; up_text := "";
                    up_json := Json (JsonValue payload) |} |}.
End Simple.

Module Rich.
Import AnalyzeRoute.

Definition audit (id : string) (title : option string)
    (score : JS.nullable Q) (displayValue : option string)
    (ms : option Q) : string * Audit.t :=
  (id,
   {| Audit.title := title; Audit.description := None;
      Audit.score := score; Audit.displayValue := displayValue;
      Audit.details := Some {| Details.overallSavingsMs := ms |} |}).

Definition metric_audits : JSMap.t Audit.t :=
  [ audit "first-contentful-paint" (Some "First Contentful Paint")
      (JS.def 1) (Some "0.8 s") None;
    audit "largest-contentful-paint" (Some "Largest Contentful Paint")
      (JS.def (1 # 2)) (Some "3.1 s") None;
    audit "total-blocking-time" (Some "Total Blocking Time")
      (JS.def 1) (Some "10 ms") None;
    audit "cumulative-layout-shift" (Some "Cumulative Layout Shift")
      (JS.def 1) (Some "0") None;
    audit "speed-index" (Some "Speed Index")
      (JS.def 1) (Some "1.5 s") None ].

Definition other_audits : JSMap.t Audit.t :=
  [ audit "unused-javascript" (Some "")
      (JS.def (1 # 2)) None (Some 2600);
    audit "final-screenshot" (Some "Final Screenshot")
      JS.null None (Some 9000);
    audit "network-requests" (Some "Network Requests")
      JS.undefined None (Some 8000);
    audit "modern-image-formats" (Some "Serve images in next-gen formats")
      (JS.def 0) (Some "Potential savings of 3 s") (Some 3000) ].

Definition data_with (score : JS.nullable Q) (audits : JSMap.t Audit.t)
    : Data :=
  {| lighthouseResult :=
       Some
         {| Lighthouse.categories :=
              Some
                {| Categories.performance :=
                     Some {| Performance.score := score |} |};
            Lighthouse.audits := Some audits |} |}.

Definition data : Data :=
  data_with (JS.def (87 # 100)) (metric_audits ++ other_audits).

(** The performance category has no score. *)
Definition unscored : Data :=
  data_with JS.undefined (metric_audits ++ other_audits).

(** The first metric audit is missing. *)
Definition without_fcp : Data :=
  data_with (JS.def (87 # 100)) (tl metric_audits ++ other_audits).

Definition result : Analysis :=
  {| score := JS.Num 87;
     metrics :=
       {| Metrics.fcp := Some "0.8 s"; Metrics.lcp := Some "3.1 s";
          Metrics.tbt := Some "10 ms"; Metrics.cls := Some "0";
          Metrics.speedIndex := Some "1.5 s" |};
     recommendations :=
       [ {| Entry.title := Some "Serve images in next-gen formats";
            Entry.description := None;
            Entry.savings := "Potential savings of 3 s";
            Entry.savingsMs := 3000 |};
         {| Entry.title := Some "";
            Entry.description := None;
            Entry.savings := "3s";
            Entry.savingsMs := 2600 |} ] |}.

(** The first call succeeds, the second is refused. *)
Definition env : Env Data :=
  {| GOOGLE_PAGESPEED_API_KEY := Some "key";
     fetch := fun call =>
       match call_strategy call with
       | Mobile =>
           Responded {| up_status := 200; up_text := "";
                        up_json := Json (JsonValue data) |}
       | Desktop =>
           Responded {| up_status := 429; up_text := "quota";
                        up_json := SyntaxError "Unexpected token" |}
       end |}.

(** Both calls succeed. *)
Definition serving (data : Data) : Env Data :=
  {| GOOGLE_PAGESPEED_API_KEY := Some "key";
     fetch := fun _ =>
       Responded {| up_status := 200; up_text := "";
                    up_json := Json (JsonValue data) |} |}.
End Rich.

Definition request (url email : option string) : Request :=
  Json (JsonValue {| url := url; email := email |}).

(** The decimal digits of [10 ^ n]. *)
Definition power_of_ten (n : nat) : string :=
  String "1" (String.concat "" (repeat "0" n)).
End Samples.

(** ** Regular expressions *)

(** The regular expressions of the program have no groups to read back and
    no look-around, so [test] is membership in the language of the pattern.
    Characters are code units below 256. *)
Module RegExp.

Inductive t :=
| Fail
| Empty
| Class (accepts : ascii -> bool)
| Seq (r1 r2 : t)
| Alt (r1 r2 : t)
| Star (r : t).

(** [r+], [r?] and a literal character. *)
Definition Plus (r : t) : t := Seq r (Star r).
Definition Opt (r : t) : t := Alt r Empty.
Definition Chr (c : ascii) : t := Class (Ascii.eqb c).

(** A letter under the [i] flag, given in lower case. *)
Definition Letter (c : ascii) : t :=
  Class (fun x => Ascii.eqb (JS.lower_char x) c).

(** The strings a pattern matches. *)
Inductive matches : t -> string -> Prop :=
| matches_empty : matches Empty ""
| matches_class (p : ascii -> bool) (c : ascii) :
    p c = true -> matches (Class p) (String c "")
| matches_seq (r1 r2 : t) (s1 s2 : string) :
    matches r1 s1 -> matches r2 s2 -> matches (Seq r1 r2) (s1 ++ s2)%string
| matches_left (r1 r2 : t) (s : string) :
    matches r1 s -> matches (Alt r1 r2) s
| matches_right (r1 r2 : t) (s : string) :
    matches r2 s -> matches (Alt r1 r2) s
| matches_none (r : t) : matches (Star r) ""
| matches_more (r : t) (s1 s2 : string) :
    matches r s1 -> matches (Star r) s2 ->
    matches (Star r) (s1 ++ s2)%string.

(** Whether the pattern matches the empty string. *)
Fixpoint nullable (r : t) : bool :=
  match r with
  | Fail => false
  | Empty => true
  | Class _ => false
  | Seq r1 r2 => nullable r1 && nullable r2
  | Alt r1 r2 => nullable r1 || nullable r2
  | Star _ => true
  end.

(** The pattern of what may follow the character [c]. *)
Fixpoint derive (c : ascii) (r : t) : t :=
  match r with
  | Fail => Fail
  | Empty => Fail
  | Class p => if p c then Empty else Fail
  | Seq r1 r2 =>
      if nullable r1
      then Alt (Seq (derive c r1) r2) (derive c r2)
      else Seq (derive c r1) r2
  | Alt r1 r2 => Alt (derive c r1) (derive c r2)
  | Star r1 => Seq (derive c r1) (Star r1)
  end.

(** [/^r$/.test(s)] *)
Fixpoint test (r : t) (s : string) : bool :=
  match s with
  | EmptyString => nullable r
  | String c s' => test (derive c r) s'
  end.

(** [/^r/.test(s)]: any characters may follow the match. *)
Definition test_start (r : t) (s : string) : bool :=
  test (Seq r (Star (Class (fun _ => true)))) s.

(** Every character of [s] passes [p]. *)
Fixpoint all (p : ascii -> bool) (s : string) : bool :=
  match s with
  | EmptyString => true
  | String c s' => p c && all p s'
  end.

(** [\s] on code units below 256: tab, line feed, vertical tab, form feed,
    carriage return, space and no-break space. *)
Definition is_space (c : ascii) : bool :=
  let n := nat_of_ascii c in
  ((9 <=? n)%nat && (n <=? 13)%nat) || (n =? 32)%nat || (n =? 160)%nat.

End RegExp.

(** ** The client page: the form and its submission *)

Module HomePage.
Import Page.

Module Metrics.
Record t := { fcp : string; lcp : string; tbt : string; cls : string }.
End Metrics.

(** [score] is [null] when the route computed [NaN] or an infinity, which
    JSON does not carry. *)
Record StrategyResult := {
  score : option Q;
  metrics : Metrics.t;
  recommendations : Recommendations
}.

Record PageSpeedResult := {
  mobile : StrategyResult;
  desktop : StrategyResult
}.

(** [[^\s@]] *)
Definition plain (c : ascii) : bool :=
  negb (RegExp.is_space c || Ascii.eqb c "@").

(** [/^[^\s@]+@[^\s@]+\.[^\s@]+$/] *)
Definition EMAIL_REGEX : RegExp.t :=
  RegExp.Seq (RegExp.Plus (RegExp.Class plain))
    (RegExp.Seq (RegExp.Chr "@")
       (RegExp.Seq (RegExp.Plus (RegExp.Class plain))
          (RegExp.Seq (RegExp.Chr ".")
             (RegExp.Plus (RegExp.Class plain))))).

(** [/^https?:\/\//i], which the page and the pagespeed route share. *)
Definition URL_REGEX : RegExp.t :=
  RegExp.Seq (RegExp.Letter "h")
    (RegExp.Seq (RegExp.Letter "t")
       (RegExp.Seq (RegExp.Letter "t")
          (RegExp.Seq (RegExp.Letter "p")
             (RegExp.Seq (RegExp.Opt (RegExp.Letter "s"))
                (RegExp.Seq (RegExp.Chr ":")
                   (RegExp.Seq (RegExp.Chr "/") (RegExp.Chr "/"))))))).

(** What [response.json()] gives the page when it is not [null]: one of
    the falsy values [false], 0 and the empty string, which have no
    properties of their own; a report, with the recommendations of both
    strategies; or any other value, read through its [error] property and
    without recommendations to read. *)
Inductive Data :=
| FalsyData
| ErrorData (error : option Http.Message)
| ResultData (r : PageSpeedResult).

(** [data?.error] *)
Definition error_of (data : Http.Body Data) : option Http.Message :=
  match data with
  | Http.JsonValue (ErrorData error) => error
  | _ => None
  end.

(** The text of the [error] state. *)
Inductive Notice :=
| InvalidEmail
    (* "Digite um email válido." *)
| InvalidUrl
    (* "Digite uma URL válida com http ou https." *)
| Served (message : Http.Message)
    (* the [error] of the response *)
| NotAnalyzed
    (* "Não foi possível analisar." *)
| Thrown (text : string)
    (* the message of what [fetch] or [response.json()] threw *).

(** The state of the component; a [result] of [None] is [null]. *)
Record State := {
  email : string;
  url : string;
  loading : bool;
  error : option Notice;
  result : option Data
}.

(** The state updates of [handleSubmit]. *)
Definition settle (s : State) (loading : bool) (error : option Notice)
    (result : option Data) : State :=
  {| email := email s; url := url s; loading := loading;
     error := error; result := result |}.

(** [data?.error || "Não foi possível analisar."] *)
Definition refusal (data : Http.Body Data) : Notice :=
  match error_of data with
  | Some message =>
      if Http.message_truthy message then Served message else NotAnalyzed
  | None => NotAnalyzed
  end.

(** [setResult(data as PageSpeedResult)] *)
Definition held (data : Http.Body Data) : option Data :=
  match data with
  | Http.JsonNull => None
  | Http.JsonValue data => Some data
  end.

(** [handleSubmit] (lines 45-82), run as far as it gets: the urls posted to
    [/api/pagespeed] and the state it leaves.  [server] is what the fetch of
    a posted url settles to, [None] when it never settles: the function then
    stays at its [await] after [setLoading(true)].  Every value thrown inside
    the [try] is an [Error]. *)
Definition handleSubmit (server : string -> option (Http.Fetched Data))
    (s : State) : list string * State :=
  if negb (RegExp.test EMAIL_REGEX (email s))
  then ([], settle s (loading s) (Some InvalidEmail) None)
  else if negb (Http.test_http (url s))
  then ([], settle s (loading s) (Some InvalidUrl) None)
  else
    ([url s],
     match server (url s) with
     | None => settle s true None None
     | Some (Http.NetworkFailure text) =>
         settle s false (Some (Thrown text)) None
     | Some (Http.Responded response) =>
         match Http.up_json response with
         | Http.SyntaxError text => settle s false (Some (Thrown text)) None
         | Http.Json data =>
             if negb (Http.ok response)
             then settle s false (Some (refusal data)) None
             else settle s false None (held data)
         end
     end).

(** [combinedRecommendations] (lines 38-43): the empty list while [result]
    is falsy; reading [recommendations] of a missing [mobile] throws. *)
Definition combinedRecommendations (s : State) : Http.Outcome Recommendations :=
  match result s with
  | None | Some FalsyData => Http.Fulfilled []
  | Some (ResultData r) =>
      Http.Fulfilled
        (mergeRecommendations (recommendations (mobile r))
           (recommendations (desktop r)))
  | Some (ErrorData _) => Http.Rejected (Http.CannotRead "recommendations")
  end.

(** *** The page and the pagespeed route together *)

(** A result of the route as the page reads it from the JSON of the
    response. *)
Definition received (r : PageSpeedRoute.ApiResult) : StrategyResult :=
  {| score :=
       match PageSpeedRoute.score r with
       | JS.Num q => Some q
       | _ => None
       end;
     metrics :=
       {| Metrics.fcp :=
            PageSpeedRoute.Metrics.fcp (PageSpeedRoute.metrics r);
          Metrics.lcp :=
            PageSpeedRoute.Metrics.lcp (PageSpeedRoute.metrics r);
          Metrics.tbt :=
            PageSpeedRoute.Metrics.tbt (PageSpeedRoute.metrics r);
          Metrics.cls :=
            PageSpeedRoute.Metrics.cls (PageSpeedRoute.metrics r) |};
     recommendations :=
       map (fun e =>
              {| title := PageSpeedRoute.Entry.title e;
                 description := PageSpeedRoute.Entry.description e;
                 savings := None;
                 savingsMs := None |})
         (PageSpeedRoute.recommendations r) |}.

Definition data_of (body : PageSpeedRoute.ResponseBody) : Data :=
  match body with
  | PageSpeedRoute.ErrorBody message => ErrorData (Some message)
  | PageSpeedRoute.ReportBody m d =>
      ResultData {| mobile := received m; desktop := received d |}
  end.

(** The pagespeed route behind [/api/pagespeed]: the page posts
    [JSON.stringify({ url })]. *)
Definition route (env : Http.Env PageSpeedRoute.PageSpeedResponse)
    (first : Http.Strategy) (posted : string)
    : option (Http.Fetched Data) :=
  let response :=
    snd (PageSpeedRoute.POST env
           (Http.Json
              (Http.JsonValue {| Http.url := Some posted;
                                 Http.email := None |}))
           first) in
  Some
    (Http.Responded
       {| Http.up_status := Http.status response;
          Http.up_text := "";
          Http.up_json :=
            Http.Json (Http.JsonValue (data_of (Http.body response))) |}).

(** The items that come first under their title, in their order. *)
Fixpoint first_of_title (seen : list string) (items : Recommendations)
    : Recommendations :=
  match items with
  | [] => []
  | item :: rest =>
      if existsb (String.eqb (title item)) seen
      then first_of_title seen rest
      else item :: first_of_title (title item :: seen) rest
  end.

End HomePage.

(** ** The audits that the extractors sort *)

Module Eligible.

(** The two filters of [extractResult] over the referenced audits. *)
Definition simple (refs : list PageSpeedRoute.AuditRef.t)
    (audits : JSMap.t PageSpeedRoute.PageSpeedAudit)
    : list PageSpeedRoute.PageSpeedAudit :=
  filter
    (fun audit =>
       JS.lt (JS.nullish_of (PageSpeedRoute.Audit.score audit) 1) 1)
    (PageSpeedRoute.narrowed
       (filter PageSpeedRoute.has_title
          (map (fun ref => JSMap.get audits (PageSpeedRoute.AuditRef.id ref))
             refs))).

(** The filter of [analyzePageSpeed] over [Object.values(audits)]. *)
Definition rich (audits : JSMap.t AnalyzeRoute.Audit.t)
    : list AnalyzeRoute.Audit.t :=
  filter AnalyzeRoute.room_for_improvement (JSMap.Object_values audits).

End Eligible.

(** ** A sample submission *)

Module PageSamples.
Import HomePage.

(** The form before the submission, with what an earlier one left. *)
Definition form : State :=
  {| email := "me@example.com"; url := "https://example.com";
     loading := false; error := Some NotAnalyzed; result := None |}.

(** The report of the sample payload for both strategies. *)
Definition report : PageSpeedResult :=
  {| mobile :=
       received (PageSpeedRoute.extractResult Samples.Simple.payload);
     desktop :=
       received (PageSpeedRoute.extractResult Samples.Simple.payload) |}.

End PageSamples.

(** * Properties *)

(** ** Comparisons *)

Section Comparisons.
Variables a b : Q.

Lemma gt_true : JS.gt a b = true <-> b < a.
Proof.
  unfold JS.gt. rewrite Qgt_alt.
  destruct (a ?= b); intuition congruence.
Qed.

Lemma gt_false : JS.gt a b = false <-> a <= b.
Proof.
  unfold JS.gt. rewrite Qle_alt.
  destruct (a ?= b); intuition congruence.
Qed.

Lemma lt_true : JS.lt a b = true <-> a < b.
Proof.
  unfold JS.lt. rewrite Qlt_alt.
  destruct (a ?= b); intuition congruence.
Qed.
End Comparisons.

Section NumberComparisons.
Implicit Types x y z : JS.number.

Lemma greater_asymmetric x y :
  JS.greater x y = true -> JS.greater y x = false.
Proof.
  destruct x as [|p|p], y as [|q|q]; simpl; try reflexivity;
    try discriminate.
  - destruct p, q; simpl; congruence.
  - now destruct p.
  - now destruct q.
  - rewrite gt_true, gt_false. apply Qlt_le_weak.
Qed.

Lemma greater_irreflexive x : JS.greater x x = false.
Proof.
  destruct x as [|p|p]; simpl; [reflexivity|now destruct p|].
  apply gt_false, Qle_refl.
Qed.

(** Between numbers that are not [NaN], [<=] is the negation of [>]. *)
Lemma leq_not_greater x y :
  x <> JS.NaN -> y <> JS.NaN ->
  JS.leq x y = negb (JS.greater x y).
Proof. destruct x, y; simpl; congruence. Qed.

Lemma leq_reflexive x : x <> JS.NaN -> JS.leq x x = true.
Proof.
  intros H. rewrite leq_not_greater by exact H.
  now rewrite greater_irreflexive.
Qed.

Lemma leq_transitive x y z :
  JS.leq x y = true -> JS.leq y z = true -> JS.leq x z = true.
Proof.
  destruct x as [|p|p], y as [|q|q], z as [|r|r]; simpl;
    try reflexivity; try discriminate;
    try (repeat match goal with f : bool |- _ => destruct f end;
         simpl; congruence).
  rewrite !negb_true_iff, !gt_false. apply Qle_trans.
Qed.

Lemma greater_leq x y : JS.greater x y = true -> JS.leq y x = true.
Proof.
  intros H. pose proof (greater_asymmetric _ _ H) as Hn.
  destruct x, y; simpl in *; try discriminate; now rewrite ?Hn.
Qed.

(** The sign that [sort] reads of [x - y] is positive exactly when
    [x > y]. *)
Lemma difference_positive x y :
  JS.gt (JS.difference x y) 0 = JS.greater x y.
Proof.
  assert (Hq : forall p q : Q, JS.gt (p - q) 0 = JS.gt p q).
  { intros p q. apply Bool.eq_iff_eq_true. rewrite !gt_true.
    rewrite (Qlt_minus_iff q p). unfold Qminus. reflexivity. }
  destruct x as [|p|p], y as [|q|q]; simpl; try reflexivity;
    try apply Hq.
  - destruct p, q; reflexivity.
  - destruct p; reflexivity.
  - destruct q; reflexivity.
Qed.
End NumberComparisons.

(** ** Rounding to a double *)

Section Doubles.
Lemma nearest_even_le (q : Q) (M : Z) :
  q <= inject_Z M -> (Double.nearest_even q <= M)%Z.
Proof.
  intros H. unfold Double.nearest_even.
  pose proof (Qfloor_resp_le _ _ H) as Hf. rewrite Qfloor_Z in Hf.
  destruct (Z.eq_dec (Qfloor q) M) as [E|E].
  - assert (Hlt : q - inject_Z (Qfloor q) < 1 # 2).
    { rewrite E. lra. }
    rewrite Qlt_alt in Hlt. rewrite Hlt. lia.
  - cbv zeta. destruct (Qcompare _ _); [destruct (Z.even _)| |]; lia.
Qed.

Lemma nearest_even_ge (q : Q) (M : Z) :
  inject_Z M <= q -> (M <= Double.nearest_even q)%Z.
Proof.
  intros H. unfold Double.nearest_even.
  pose proof (Qfloor_resp_le _ _ H) as Hf. rewrite Qfloor_Z in Hf.
  cbv zeta. destruct (Qcompare _ _); [destruct (Z.even _)| |]; lia.
Qed.

Lemma ilog2_small (q : Q) (Y : Z) :
  0 < q -> (Y < 2 ^ 53)%Z -> q <= inject_Z Y -> (Double.ilog2 q <= 52)%Z.
Proof.
  intros Hq HY Hle. unfold Double.ilog2. cbv zeta.
  destruct (Qle_bool _ q) eqn:E.
  - apply Qle_bool_iff in E.
    assert (H : 2 ^ (Z.log2 (Qnum q) - Z.log2 (Z.pos (Qden q))) < 2 ^ 53).
    { eapply Qle_lt_trans; [exact E|]. eapply Qle_lt_trans; [exact Hle|].
      rewrite <- (Zpower_Qpower 2 53) by lia. rewrite <- Zlt_Qlt. exact HY. }
    apply Qpower_lt_compat_l_inv in H; [lia|reflexivity].
  - clear E. destruct q as [n d]. unfold Qlt, Qle in *.
    cbn [Qnum Qden inject_Z] in *.
    assert (Hn : (n <= Y * Z.pos d)%Z) by lia.
    assert (HnYd : (0 < n)%Z) by lia.
    assert (HY0 : (0 < Y)%Z) by nia.
    assert (HYb : (Y < 2 ^ 53)%Z) by exact HY.
    pose proof (Z.log2_le_mono _ _ Hn) as H1.
    pose proof (Z.log2_mul_above Y (Z.pos d) ltac:(lia) ltac:(lia)) as H2.
    assert (H3 : (Z.log2 Y < 53)%Z) by (apply Z.log2_lt_pow2; lia).
    lia.
Qed.

Lemma nearest_nonneg (q : Q) : 0 <= q -> 0 <= Double.nearest q.
Proof.
  intros H. unfold Double.nearest.
  destruct (Qeq_bool q 0); [apply Qle_refl|]. cbv zeta.
  rewrite Qred_correct.
  set (k := Double.ulp_exponent q).
  assert (Hk : 0 < 2 ^ k) by (apply Qpower_0_lt; reflexivity).
  apply Qmult_le_0_compat; [|now apply Qlt_le_weak].
  change 0 with (inject_Z 0). rewrite <- Zle_Qle.
  apply nearest_even_ge. change (inject_Z 0) with 0.
  apply Qle_shift_div_l; [exact Hk|]. lra.
Qed.

Lemma nearest_nonpos (q : Q) : q <= 0 -> Double.nearest q <= 0.
Proof.
  intros H. unfold Double.nearest.
  destruct (Qeq_bool q 0); [apply Qle_refl|]. cbv zeta.
  rewrite Qred_correct.
  set (k := Double.ulp_exponent q).
  assert (Hk : 0 < 2 ^ k) by (apply Qpower_0_lt; reflexivity).
  assert (Hm : inject_Z (Double.nearest_even (q / 2 ^ k)) <= 0).
  { change 0 with (inject_Z 0). rewrite <- Zle_Qle.
    apply nearest_even_le. change (inject_Z 0) with 0.
    apply Qle_shift_div_r; [exact Hk|]. lra. }
  assert (0 <= - inject_Z (Double.nearest_even (q / 2 ^ k)) * 2 ^ k).
  { apply Qmult_le_0_compat; lra. }
  lra.
Qed.

(** Rounding does not pass an integer that is itself a double. *)
Lemma nearest_upper (q : Q) (Y : Z) :
  (0 <= Y < 2 ^ 53)%Z -> q <= inject_Z Y -> Double.nearest q <= inject_Z Y.
Proof.
  intros [HY0 HY] Hle.
  assert (HYQ : 0 <= inject_Z Y)
    by (change 0 with (inject_Z 0); now rewrite <- Zle_Qle).
  destruct (Qlt_le_dec 0 q) as [Hpos|Hneg];
    [|apply Qle_trans with 0; [now apply nearest_nonpos|exact HYQ]].
  unfold Double.nearest.
  destruct (Qeq_bool q 0); [exact HYQ|]. cbv zeta.
  rewrite Qred_correct.
  set (k := Double.ulp_exponent q).
  assert (Hk0 : (k <= 0)%Z).
  { unfold k, Double.ulp_exponent.
    assert (Ha : Qabs q == q) by (apply Qabs_pos; lra).
    pose proof (ilog2_small (Qabs q) Y) as Hs.
    rewrite Ha in Hs at 1 2. specialize (Hs Hpos HY Hle). lia. }
  assert (Hk : 0 < 2 ^ k) by (apply Qpower_0_lt; reflexivity).
  assert (Hinv : 2 ^ (- k) * 2 ^ k == 1).
  { rewrite <- Qpower_plus by discriminate.
    replace (- k + k)%Z with 0%Z by lia. reflexivity. }
  assert (HYk : inject_Z Y == inject_Z (Y * 2 ^ (- k)) * 2 ^ k).
  { rewrite inject_Z_mult, Zpower_Qpower by lia.
    change (inject_Z 2) with 2. rewrite <- Qmult_assoc, Hinv. ring. }
  rewrite HYk. apply Qmult_le_compat_r; [|now apply Qlt_le_weak].
  rewrite <- Zle_Qle. apply nearest_even_le.
  apply Qle_shift_div_r; [exact Hk|]. now rewrite <- HYk.
Qed.

Lemma rounded_not_NaN (q : Q) : JS.rounded q <> JS.NaN.
Proof. unfold JS.rounded. cbv zeta. now destruct (Double.finite _). Qed.

(** A value between 0 and such an integer rounds to a finite number
    between them. *)
Lemma rounded_bounded (q : Q) (Y : Z) :
  (0 <= Y < 2 ^ 53)%Z -> 0 <= q <= inject_Z Y ->
  exists r, JS.rounded q = JS.Num r /\ 0 <= r <= inject_Z Y.
Proof.
  intros HY [H0 H1]. exists (Double.nearest q).
  pose proof (nearest_nonneg q H0) as Hlo.
  pose proof (nearest_upper q Y HY H1) as Hhi.
  split; [|now split].
  unfold JS.rounded. cbv zeta.
  assert (Hf : Double.finite (Double.nearest q) = true).
  { unfold Double.finite. apply Qle_bool_iff.
    rewrite Qabs_pos by exact Hlo.
    apply Qle_trans with (inject_Z Y); [exact Hhi|].
    apply Qle_trans with (inject_Z (2 ^ 53)).
    - rewrite <- Zle_Qle. lia.
    - apply Qle_bool_iff. vm_compute. reflexivity. }
  now rewrite Hf.
Qed.

(** What is not negative rounds to a finite number that is not negative,
    or to the positive infinity. *)
Lemma rounded_nonneg (q : Q) :
  0 <= q ->
  (exists r, JS.rounded q = JS.Num r /\ 0 <= r)
  \/ JS.rounded q = JS.Infinity true.
Proof.
  intros H0. pose proof (nearest_nonneg q H0) as Hlo.
  unfold JS.rounded. cbv zeta.
  destruct (Double.finite (Double.nearest q)) eqn:Hf.
  - left. now exists (Double.nearest q).
  - right. f_equal. apply lt_true.
    destruct (Qlt_le_dec 0 (Double.nearest q)) as [Hlt|Hle]; [exact Hlt|].
    exfalso. assert (Hz : Double.nearest q == 0) by lra.
    unfold Double.finite in Hf. rewrite Hz in Hf. discriminate Hf.
Qed.
End Doubles.

(** *** Doubles are left as they are *)

Section DoubleIdempotent.

Lemma two_power_pos (k : Z) : 0 < 2 ^ k.
Proof. apply Qpower_0_lt. reflexivity. Qed.

Lemma two_power_Z (n : Z) : (0 <= n)%Z -> inject_Z (2 ^ n) == 2 ^ n.
Proof. intros H. now rewrite Zpower_Qpower. Qed.

Lemma two_power_lt (a b : Z) : 2 ^ a < 2 ^ b -> (a < b)%Z.
Proof. intros H. apply Qpower_lt_compat_l_inv in H; [exact H|reflexivity]. Qed.

Lemma two_power_le (a b : Z) : (a <= b)%Z -> 2 ^ a <= 2 ^ b.
Proof. intros H. apply Qpower_le_compat_l; [exact H|discriminate]. Qed.

Lemma two_power_add (a b : Z) : 2 ^ (a + b) == 2 ^ a * 2 ^ b.
Proof. apply Qpower_plus. discriminate. Qed.

(** Comparing a fraction with a power of two, in integers. *)
Lemma power_lt_fraction (x y n : Z) (d : positive) :
  (0 <= x)%Z -> (0 <= y)%Z ->
  (2 ^ x * Z.pos d < n * 2 ^ y)%Z -> 2 ^ (x - y) < n # d.
Proof.
  intros Hx Hy H.
  rewrite Qpower_minus by discriminate.
  apply Qlt_shift_div_r; [apply two_power_pos|].
  rewrite <- !two_power_Z by assumption.
  remember (2 ^ x)%Z as X. remember (2 ^ y)%Z as Y.
  unfold Qlt. cbn [Qnum Qden Qmult inject_Z].
  rewrite Pos.mul_1_r. lia.
Qed.

Lemma fraction_lt_power (x y n : Z) (d : positive) :
  (0 <= x)%Z -> (0 <= y)%Z ->
  (n * 2 ^ y < 2 ^ x * Z.pos d)%Z -> n # d < 2 ^ (x - y).
Proof.
  intros Hx Hy H.
  rewrite Qpower_minus by discriminate.
  apply Qlt_shift_div_l; [apply two_power_pos|].
  rewrite <- !two_power_Z by assumption.
  remember (2 ^ x)%Z as X. remember (2 ^ y)%Z as Y.
  unfold Qlt. cbn [Qnum Qden Qmult inject_Z].
  rewrite Pos.mul_1_r. lia.
Qed.

(** [ilog2] is the floor of the binary logarithm. *)
Lemma ilog2_spec (q : Q) :
  0 < q -> 2 ^ Double.ilog2 q <= q /\ q < 2 ^ (Double.ilog2 q + 1).
Proof.
  intros Hq. destruct q as [n d].
  assert (Hn : (0 < n)%Z).
  { unfold Qlt in Hq. simpl in Hq. lia. }
  unfold Double.ilog2. cbn [Qnum Qden].
  set (a := Z.log2 n). set (b := Z.log2 (Z.pos d)).
  assert (Ha : (0 <= a)%Z) by apply Z.log2_nonneg.
  assert (Hb : (0 <= b)%Z) by apply Z.log2_nonneg.
  destruct (Z.log2_spec n Hn) as [Ha1 Ha2]. fold a in Ha1, Ha2.
  destruct (Z.log2_spec (Z.pos d) ltac:(lia)) as [Hb1 Hb2].
  fold b in Hb1, Hb2.
  rewrite Z.pow_succ_r in Ha2, Hb2 by assumption.
  assert (Hpa : (0 < 2 ^ a)%Z) by (apply Z.pow_pos_nonneg; lia).
  assert (Hpb : (0 < 2 ^ b)%Z) by (apply Z.pow_pos_nonneg; lia).
  cbv zeta. destruct (Qle_bool (2 ^ (a - b)) (n # d)) eqn:E.
  - apply Qle_bool_iff in E. split; [exact E|].
    replace (a - b + 1)%Z with (a + 1 - b)%Z by lia.
    apply fraction_lt_power; [lia|lia|].
    rewrite Z.pow_add_r by lia. change (2 ^ 1)%Z with 2%Z. nia.
  - split.
    + apply Qlt_le_weak.
      replace (a - b - 1)%Z with (a - (b + 1))%Z by lia.
      apply power_lt_fraction; [lia|lia|].
      rewrite Z.pow_add_r by lia. change (2 ^ 1)%Z with 2%Z. nia.
    + replace (a - b - 1 + 1)%Z with (a - b)%Z by lia.
      apply Qnot_le_lt. intros H. apply Qle_bool_iff in H. congruence.
Qed.

Lemma ilog2_unique (q : Q) (e : Z) :
  2 ^ e <= q -> q < 2 ^ (e + 1) -> Double.ilog2 q = e.
Proof.
  intros H1 H2.
  assert (Hq : 0 < q) by (eapply Qlt_le_trans; [apply two_power_pos|exact H1]).
  destruct (ilog2_spec q Hq) as [H3 H4].
  assert (Double.ilog2 q < e + 1)%Z
    by (apply two_power_lt; eapply Qle_lt_trans; eassumption).
  assert (e < Double.ilog2 q + 1)%Z
    by (apply two_power_lt; eapply Qle_lt_trans; eassumption).
  lia.
Qed.

Lemma ilog2_equal (p q : Q) :
  0 < p -> p == q -> Double.ilog2 p = Double.ilog2 q.
Proof.
  intros Hp E. destruct (ilog2_spec p Hp) as [H1 H2].
  symmetry. apply ilog2_unique; now rewrite <- E.
Qed.

Lemma Qabs_positive (p : Q) : ~ p == 0 -> 0 < Qabs p.
Proof.
  intros Hp. destruct (Qlt_le_dec 0 (Qabs p)) as [H|H]; [exact H|].
  exfalso. apply Hp. apply Qabs_Qle_condition in H.
  change (- 0) with 0 in H. destruct H. now apply Qle_antisym.
Qed.

Lemma ulp_exponent_equal (p q : Q) :
  ~ p == 0 -> p == q -> Double.ulp_exponent p = Double.ulp_exponent q.
Proof.
  intros Hp E. unfold Double.ulp_exponent. f_equal. f_equal.
  apply ilog2_equal; [now apply Qabs_positive|now rewrite E].
Qed.

Lemma nearest_even_equal (p q : Q) :
  p == q -> Double.nearest_even p = Double.nearest_even q.
Proof.
  intros E. unfold Double.nearest_even.
  rewrite (Qfloor_comp _ _ E). cbv zeta.
  assert (C : Qcompare (p - inject_Z (Qfloor q)) (1 # 2)
              = Qcompare (q - inject_Z (Qfloor q)) (1 # 2))
    by now rewrite E.
  now rewrite C.
Qed.

Lemma nearest_even_integer (m : Z) : Double.nearest_even (inject_Z m) = m.
Proof.
  unfold Double.nearest_even. rewrite Qfloor_Z. cbv zeta.
  assert (H : inject_Z m - inject_Z m < 1 # 2) by lra.
  rewrite Qlt_alt in H. now rewrite H.
Qed.

(** [nearest] depends on the value only, not on how the rational is
    written. *)
Lemma nearest_equal (p q : Q) :
  p == q -> Double.nearest p = Double.nearest q.
Proof.
  intros E. unfold Double.nearest.
  destruct (Qeq_bool p 0) eqn:Hp.
  - apply Qeq_bool_iff in Hp. rewrite E in Hp.
    apply Qeq_bool_iff in Hp. now rewrite Hp.
  - apply Qeq_bool_neq in Hp.
    assert (Hq : Qeq_bool q 0 = false).
    { destruct (Qeq_bool q 0) eqn:F; [|reflexivity].
      apply Qeq_bool_iff in F. rewrite <- E in F. contradiction. }
    rewrite Hq. cbv zeta. apply Qred_complete.
    rewrite (ulp_exponent_equal p q Hp E).
    rewrite (nearest_even_equal (p / 2 ^ Double.ulp_exponent q)
               (q / 2 ^ Double.ulp_exponent q)) by now rewrite E.
    reflexivity.
Qed.

(** A value that is an integer number of units of its own last place is
    a double already. *)
Lemma nearest_fixed (r : Q) (m : Z) :
  ~ r == 0 -> r == inject_Z m * 2 ^ Double.ulp_exponent r ->
  Double.nearest r = Qred r.
Proof.
  intros Hr E. unfold Double.nearest.
  destruct (Qeq_bool r 0) eqn:Hz;
    [apply Qeq_bool_iff in Hz; contradiction|].
  cbv zeta. apply Qred_complete.
  set (k := Double.ulp_exponent r) in *.
  assert (Hk : r / 2 ^ k == inject_Z m).
  { rewrite E. unfold Qdiv. rewrite <- Qmult_assoc, Qmult_inv_r.
    - apply Qmult_1_r.
    - apply Qnot_eq_sym, Qlt_not_eq, two_power_pos. }
  rewrite (nearest_even_equal _ _ Hk), nearest_even_integer.
  now symmetry.
Qed.

Lemma ilog2_below (q : Q) (t : Z) :
  0 < q -> q < 2 ^ t -> (Double.ilog2 q < t)%Z.
Proof.
  intros Hq H. destruct (ilog2_spec q Hq) as [H1 _].
  apply two_power_lt. eapply Qle_lt_trans; eassumption.
Qed.

(** The mantissa that rounding finds has at most 53 bits, the case
    [2 ^ 53] included. *)
Lemma mantissa_bound (q : Q) :
  ~ q == 0 ->
  let k := Double.ulp_exponent q in
  (Z.abs (Double.nearest_even (q / 2 ^ k)) <= 2 ^ 53)%Z.
Proof.
  intros Hq k.
  pose proof (Qabs_positive q Hq) as Hp.
  destruct (ilog2_spec (Qabs q) Hp) as [_ Hup].
  assert (Hk : (Double.ilog2 (Qabs q) + 1 <= k + 53)%Z)
    by (unfold k, Double.ulp_exponent; lia).
  assert (Hb : Qabs q < 2 ^ (k + 53) \/ Qabs q <= 2 ^ (k + 53)).
  { right. apply Qlt_le_weak. eapply Qlt_le_trans; [exact Hup|].
    now apply two_power_le. }
  assert (Hle : Qabs q <= 2 ^ (k + 53)) by (destruct Hb; [lra|assumption]).
  clear Hb. rewrite two_power_add in Hle.
  assert (H2k : 0 < 2 ^ k) by apply two_power_pos.
  apply Qabs_Qle_condition in Hle. destruct Hle as [Hlo Hhi].
  assert (E53 : 2 ^ 53 == inject_Z (2 ^ 53)) by reflexivity.
  apply Z.abs_le. split.
  - apply nearest_even_ge. apply Qle_shift_div_l; [exact H2k|].
    rewrite inject_Z_opp, <- E53.
    setoid_replace (- 2 ^ 53 * 2 ^ k) with (- (2 ^ k * 2 ^ 53)) by ring.
    exact Hlo.
  - apply nearest_even_le. apply Qle_shift_div_r; [exact H2k|].
    rewrite <- E53.
    setoid_replace (2 ^ 53 * 2 ^ k) with (2 ^ k * 2 ^ 53) by ring.
    exact Hhi.
Qed.

Lemma ulp_exponent_least (q : Q) : (-1074 <= Double.ulp_exponent q)%Z.
Proof. unfold Double.ulp_exponent. lia. Qed.

Lemma Qabs_units (m k : Z) :
  Qabs (inject_Z m * 2 ^ k) == inject_Z (Z.abs m) * 2 ^ k.
Proof.
  rewrite Qabs_Qmult. rewrite (Qabs_pos (2 ^ k))
    by (apply Qlt_le_weak, two_power_pos).
  reflexivity.
Qed.

(** The exponent of a number of at most 53 bits in units of [2 ^ k] is at
    most [k], except for [2 ^ 53] units, where it is [k + 1]. *)
Lemma ulp_exponent_units (m k : Z) :
  (-1074 <= k)%Z -> (0 < Z.abs m <= 2 ^ 53)%Z ->
  let k' := Double.ulp_exponent (inject_Z m * 2 ^ k) in
  (k' <= k)%Z \/ (k' = k + 1 /\ Z.abs m = 2 ^ 53)%Z.
Proof.
  intros Hk [Hm0 Hm] k'. unfold k', Double.ulp_exponent.
  assert (Hpos : 0 < Qabs (inject_Z m * 2 ^ k)).
  { rewrite Qabs_units. apply Qmult_lt_0_compat; [|apply two_power_pos].
    change 0 with (inject_Z 0). now rewrite <- Zlt_Qlt. }
  destruct (Z.eq_dec (Z.abs m) (2 ^ 53)) as [E|E].
  - right. split; [|exact E].
    assert (Hl : Double.ilog2 (Qabs (inject_Z m * 2 ^ k)) = (k + 53)%Z).
    { apply ilog2_unique.
      - rewrite Qabs_units, E, two_power_add, Qmult_comm.
        apply Qle_refl.
      - rewrite Qabs_units, E.
        replace (k + 53 + 1)%Z with (54 + k)%Z by lia.
        rewrite two_power_add. apply Qmult_lt_r; [apply two_power_pos|].
        reflexivity. }
    rewrite Hl. lia.
  - left.
    assert (Hl : (Double.ilog2 (Qabs (inject_Z m * 2 ^ k)) < 53 + k)%Z).
    { apply ilog2_below; [exact Hpos|].
      rewrite Qabs_units, two_power_add.
      apply Qmult_lt_r; [apply two_power_pos|].
      change (2 ^ 53) with (inject_Z (2 ^ 53)). rewrite <- Zlt_Qlt. lia. }
    lia.
Qed.

(** Rounding leaves a double as it is. *)
Lemma nearest_idempotent (q : Q) :
  Double.nearest (Double.nearest q) = Double.nearest q.
Proof.
  destruct (Qeq_bool q 0) eqn:Hz.
  { assert (E : Double.nearest q = 0)
      by (unfold Double.nearest; now rewrite Hz).
    rewrite E. reflexivity. }
  assert (E : Double.nearest q
              = Qred (inject_Z
                        (Double.nearest_even
                           (q / 2 ^ Double.ulp_exponent q))
                      * 2 ^ Double.ulp_exponent q))
    by (unfold Double.nearest; now rewrite Hz).
  rewrite E. clear E.
  apply Qeq_bool_neq in Hz.
  set (k := Double.ulp_exponent q).
  set (m := Double.nearest_even (q / 2 ^ k)).
  pose proof (mantissa_bound q Hz) as Hm. cbv zeta in Hm.
  fold k in Hm. fold m in Hm.
  pose proof (ulp_exponent_least q) as Hk. fold k in Hk.
  set (r := inject_Z m * 2 ^ k).
  assert (Hr : Qred r == r) by apply Qred_correct.
  destruct (Z.eq_dec m 0) as [E0|E0].
  - assert (Ez : Qred r = 0).
    { change 0 with (Qred 0). apply Qred_complete.
      unfold r. rewrite E0. apply Qmult_0_l. }
    rewrite Ez. reflexivity.
  - assert (Hnz : ~ r == 0).
    { unfold r. intros F. apply Qmult_integral in F as [F|F].
      - apply E0. unfold Qeq in F. simpl in F. lia.
      - pose proof (two_power_pos k) as P. rewrite F in P.
        discriminate P. }
    assert (Hfix : Double.nearest r = Qred r).
    { destruct (ulp_exponent_units m k Hk) as [Hle|[Hk' Hm']];
        [lia| |].
      - apply (nearest_fixed r
                 (m * 2 ^ (k - Double.ulp_exponent r))); [exact Hnz|].
        rewrite inject_Z_mult, two_power_Z by (unfold r; lia).
        rewrite <- Qmult_assoc, <- two_power_add.
        replace (k - Double.ulp_exponent r + Double.ulp_exponent r)%Z
          with k by lia.
        reflexivity.
      - apply (nearest_fixed r (m / 2)); [exact Hnz|].
        fold r in Hk'. rewrite Hk'.
        assert (Em : m = (2 * (m / 2))%Z).
        { apply Z.div_exact; [lia|].
          destruct (Z.abs_eq_or_opp m) as [A|A]; rewrite A in Hm';
            [rewrite Hm'|replace m with (- 2 ^ 53)%Z by lia];
            reflexivity. }
        unfold r. rewrite Em at 1.
        rewrite inject_Z_mult, two_power_add.
        change (inject_Z 2) with 2. change (2 ^ 1) with 2. ring. }
    rewrite (nearest_equal (Qred r) r Hr), Hfix. reflexivity.
Qed.

(** A finite number that rounding gave is a double: it rounds to
    itself. *)
Lemma rounded_idempotent (q d : Q) :
  JS.rounded q = JS.Num d -> JS.rounded d = JS.Num d.
Proof.
  unfold JS.rounded. cbv zeta.
  destruct (Double.finite (Double.nearest q)) eqn:F; [|discriminate].
  intros [= <-]. now rewrite nearest_idempotent, F.
Qed.

(** So the product of a double and a positive double is the rounded exact
    product. *)
Lemma times_double (q d b : Q) :
  JS.rounded q = JS.Num d -> JS.times (JS.Num d) b = JS.rounded (d * b).
Proof.
  intros H. unfold JS.times. now rewrite (rounded_idempotent q d H).
Qed.

Lemma nearest_even_error (x : Q) :
  Qabs (x - inject_Z (Double.nearest_even x)) <= 1 # 2.
Proof.
  unfold Double.nearest_even. cbv zeta.
  pose proof (Qfloor_le x) as Hlo. pose proof (Qlt_floor x) as Hhi.
  rewrite inject_Z_plus in Hhi. change (inject_Z 1) with 1 in Hhi.
  apply Qabs_Qle_condition.
  destruct (Qcompare (x - inject_Z (Qfloor x)) (1 # 2)) eqn:C.
  - apply Qeq_alt in C.
    destruct (Z.even (Qfloor x)); rewrite ?inject_Z_plus;
      change (inject_Z 1) with 1; split; lra.
  - apply Qlt_alt in C. split; lra.
  - apply Qgt_alt in C. rewrite inject_Z_plus.
    change (inject_Z 1) with 1. split; lra.
Qed.

(** What rounding gives is a double, [m * 2 ^ k] with at most 53 bits in
    [m] and [k] no less than -1074, within half a unit [2 ^ k] of the
    value, where [2 ^ k] is the unit of the doubles around the value. *)
Lemma nearest_is_nearest (q : Q) :
  ~ q == 0 ->
  let k := Double.ulp_exponent q in
  exists m,
    Double.nearest q == inject_Z m * 2 ^ k
    /\ (Z.abs m <= 2 ^ 53)%Z /\ (-1074 <= k)%Z
    /\ Qabs (q - Double.nearest q) <= (1 # 2) * 2 ^ k
    /\ (k = (-1074)%Z
        \/ 2 ^ (k + 52) <= Qabs q /\ Qabs q < 2 ^ (k + 53)).
Proof.
  intros Hq k.
  exists (Double.nearest_even (q / 2 ^ k)).
  assert (E : Double.nearest q
              == inject_Z (Double.nearest_even (q / 2 ^ k)) * 2 ^ k).
  { unfold Double.nearest.
    destruct (Qeq_bool q 0) eqn:Hz;
      [apply Qeq_bool_iff in Hz; contradiction|].
    cbv zeta. apply Qred_correct. }
  pose proof (two_power_pos k) as Hk.
  split; [exact E|]. split; [now apply mantissa_bound|].
  split; [apply ulp_exponent_least|]. split.
  - rewrite E.
    setoid_replace (q - inject_Z (Double.nearest_even (q / 2 ^ k)) * 2 ^ k)
      with ((q / 2 ^ k - inject_Z (Double.nearest_even (q / 2 ^ k)))
            * 2 ^ k)
      by (field; apply Qnot_eq_sym, Qlt_not_eq, Hk).
    rewrite Qabs_Qmult, (Qabs_pos (2 ^ k)) by now apply Qlt_le_weak.
    apply Qmult_le_compat_r; [apply nearest_even_error|].
    now apply Qlt_le_weak.
  - pose proof (Qabs_positive q Hq) as Hp.
    destruct (ilog2_spec (Qabs q) Hp) as [H1 H2].
    unfold k, Double.ulp_exponent.
    destruct (Z.max_spec (Double.ilog2 (Qabs q) - 52) (-1074))
      as [[_ ->]|[_ ->]]; [now left|right].
    replace (Double.ilog2 (Qabs q) - 52 + 52)%Z
      with (Double.ilog2 (Qabs q)) by lia.
    replace (Double.ilog2 (Qabs q) - 52 + 53)%Z
      with (Double.ilog2 (Qabs q) + 1)%Z by lia.
    now split.
Qed.
End DoubleIdempotent.

(** ** Savings estimation *)

Section Savings.
Import Page.
Local Arguments Ascii.eqb : simpl never.

(** A string that contains "ms" contains "s". *)
Lemma includes_ms_s (s : string) :
  JS.includes "ms" s = true -> JS.includes "s" s = true.
Proof.
  induction s as [|c s IH]; simpl; [discriminate|].
  rewrite !andb_true_r.
  destruct (Ascii.eqb "s" c); [reflexivity|]. simpl.
  destruct (Ascii.eqb "m" c); simpl; [|exact IH].
  destruct s as [|c' s]; simpl in *; [discriminate|].
  rewrite !andb_true_r in *.
  destruct (Ascii.eqb "s" c'); simpl; [reflexivity|exact IH].
Qed.

Lemma normalize_empty_no_match (s : string) (m : string) :
  JS.match_number (normalize s) = Some m -> JS.truthy s = true.
Proof. destruct s; [discriminate|reflexivity]. Qed.

Lemma Number_double (m : string) (value : Q) :
  JS.Number m = JS.Num value -> JS.rounded value = JS.Num value.
Proof.
  unfold JS.Number. destruct (JS.literal m) as [q|]; [|discriminate].
  apply rounded_idempotent.
Qed.

(** C1.  For an item without a numeric [savingsMs], [getSavingsMs] maps the
    savings string "1.2 s" to 1200, "300 ms" to 300, "1,5 s" to 1500, a
    missing or empty string to 0 and "abc" to 0.  When the number extracted
    is the finite double [value], the result is [value] if the normalized
    string contains "ms", else the product of [value] and 1000, rounded to a
    double, if it contains "s", else [value]: the "ms" test comes first (a
    string with "ms" also contains "s" and still gives [value]), and a
    number without a unit counts as milliseconds. *)
Theorem getSavingsMs_of_savings_string (item : Recommendation) :
  savingsMs item = None ->
  (savings item = Some "1.2 s" -> getSavingsMs item = JS.Num 1200) /\
  (savings item = Some "300 ms" -> getSavingsMs item = JS.Num 300) /\
  (savings item = Some "1,5 s" -> getSavingsMs item = JS.Num 1500) /\
  (savings item = None \/ savings item = Some "" ->
   getSavingsMs item = JS.Num 0) /\
  (savings item = Some "abc" -> getSavingsMs item = JS.Num 0) /\
  (forall s m value,
      savings item = Some s ->
      JS.match_number (normalize s) = Some m ->
      JS.Number m = JS.Num value ->
      getSavingsMs item =
        (if JS.includes "ms" (normalize s) then JS.Num value
         else if JS.includes "s" (normalize s)
         then JS.rounded (value * 1000)
         else JS.Num value)
      /\ (JS.includes "ms" (normalize s) = true ->
          JS.includes "s" (normalize s) = true
          /\ getSavingsMs item = JS.Num value)
      /\ (JS.includes "s" (normalize s) = false ->
          getSavingsMs item = JS.Num value)).
Proof.
  intros Hms. unfold getSavingsMs. rewrite Hms.
  refine (conj _ (conj _ (conj _ (conj _ (conj _ _))))).
  - intros ->. vm_compute. reflexivity.
  - intros ->. vm_compute. reflexivity.
  - intros ->. vm_compute. reflexivity.
  - intros [-> | ->]; vm_compute; reflexivity.
  - intros ->. vm_compute. reflexivity.
  - intros s m value Hs Hm Hv. rewrite Hs.
    cbn [JS.truthy_opt JS.nullish negb].
    rewrite (normalize_empty_no_match _ _ Hm). cbn [negb].
    rewrite Hm, Hv.
    rewrite (times_double value value 1000 (Number_double m value Hv)).
    refine (conj eq_refl (conj _ _)).
    + intros Hi. split; [now apply includes_ms_s|]. now rewrite Hi.
    + intros Hi.
      destruct (JS.includes "ms" (normalize s)) eqn:E; [|now rewrite Hi].
      apply includes_ms_s in E. congruence.
Qed.

Lemma getSavingsMs_of_savings_string_witness :
  getSavingsMs
    {| title := "Defer images"; description := None;
       savings := Some "1.2 s"; savingsMs := None |} = JS.Num 1200
  /\ getSavingsMs
       {| title := "Fonts"; description := None;
          savings := Some "About 42"; savingsMs := None |} = JS.Num 42.
Proof.
  split.
  - apply (getSavingsMs_of_savings_string
             {| title := "Defer images"; description := None;
                savings := Some "1.2 s"; savingsMs := None |});
      reflexivity.
  - apply (getSavingsMs_of_savings_string
             {| title := "Fonts"; description := None;
                savings := Some "About 42"; savingsMs := None |}
             eq_refl) with (s := "About 42") (m := "42");
      reflexivity.
Defined.

Lemma times_not_NaN (a : JS.number) (b : Q) :
  a <> JS.NaN -> JS.times a b <> JS.NaN.
Proof.
  destruct a as [|p|q]; simpl; try congruence. intros _.
  destruct (JS.rounded q) as [|p|d] eqn:E; try discriminate.
  - now apply rounded_not_NaN in E.
  - apply rounded_not_NaN.
Qed.

(** An estimate is never [NaN]. *)
Lemma getSavingsMs_number (item : Recommendation) :
  getSavingsMs item <> JS.NaN.
Proof.
  unfold getSavingsMs.
  destruct (savingsMs item) as [ms|]; [apply rounded_not_NaN|].
  destruct (negb _); [discriminate|]. cbv zeta.
  destruct (JS.match_number _) as [m|]; [|discriminate].
  destruct (JS.Number m) as [|p|value]; try discriminate.
  destruct (JS.includes "ms" _); [discriminate|].
  destruct (JS.includes "s" _); [|discriminate].
  apply times_not_NaN. discriminate.
Qed.

(** The arithmetic is that of doubles: 4.03 times 1000 is
    4030.0000000000005; a number of 310 digits is an infinity, which
    [Number.isFinite] refuses; and [10 ^ 306] is finite, but its product
    with 1000 is not. *)
Example getSavingsMs_in_doubles :
  let item text := {| title := "Fonts"; description := None;
                      savings := Some text; savingsMs := None |} in
  getSavingsMs (item "4.03 s")
  = JS.Num (8862063719874561 # 2199023255552)
  /\ JS.Number (Samples.power_of_ten 309) = JS.Infinity true
  /\ getSavingsMs (item (Samples.power_of_ten 309 ++ " s")%string)
     = JS.Num 0
  /\ getSavingsMs (item (Samples.power_of_ten 306 ++ " s")%string)
     = JS.Infinity true.
Proof. vm_compute. repeat split. Qed.
End Savings.

(** ** Sorting and slicing *)

Section Sorting.
Context {A : Type}.

Lemma gt_difference (p q : Q) : JS.gt (p - q) 0 = true <-> q < p.
Proof.
  rewrite gt_true, (Qlt_minus_iff q p). reflexivity.
Qed.

Lemma not_gt_difference (p q : Q) : JS.gt (p - q) 0 = false <-> p <= q.
Proof.
  split; intro H.
  - destruct (Qlt_le_dec q p) as [Hlt|Hle]; [|exact Hle].
    apply gt_difference in Hlt. congruence.
  - destruct (JS.gt (p - q) 0) eqn:E; [|reflexivity].
    apply gt_difference in E. exfalso. exact (Qlt_not_le _ _ E H).
Qed.

Lemma sort_insert_perm (comparefn : A -> A -> Q) (x : A) (l : list A) :
  Permutation (JSArray.sort_insert comparefn x l) (x :: l).
Proof.
  induction l as [|y l IH]; simpl; [reflexivity|].
  destruct (JS.gt (comparefn x y) 0); [|reflexivity].
  rewrite IH. apply perm_swap.
Qed.

Lemma sort_perm (comparefn : A -> A -> Q) (l : list A) :
  Permutation (JSArray.sort comparefn l) l.
Proof.
  induction l as [|x l IH]; simpl; [reflexivity|].
  rewrite sort_insert_perm. now constructor.
Qed.

Lemma slice0_In (n : nat) (l : list A) (x : A) :
  In x (JSArray.slice0 n l) -> In x l.
Proof.
  unfold JSArray.slice0. revert l.
  induction n as [|n IH]; intros [|y l]; simpl; try tauto.
  intros [->|H]; [now left|right; now apply IH].
Qed.

Lemma slice0_Forall (P : A -> Prop) (n : nat) (l : list A) :
  Forall P l -> Forall P (JSArray.slice0 n l).
Proof.
  rewrite !Forall_forall. intros H x Hx. apply H.
  now apply slice0_In with n.
Qed.

Lemma slice0_NoDup (n : nat) (l : list A) :
  NoDup l -> NoDup (JSArray.slice0 n l).
Proof.
  unfold JSArray.slice0. intros H. revert n.
  induction H as [|y l Hy Hl IH]; intros [|n]; simpl; try constructor.
  - intro Hin. apply Hy. now apply slice0_In with n.
  - apply IH.
Qed.

Lemma slice0_length (n : nat) (l : list A) :
  (List.length (JSArray.slice0 n l) <= n)%nat.
Proof. apply firstn_le_length. Qed.

Lemma sort_Forall (P : A -> Prop) (comparefn : A -> A -> Q) (l : list A) :
  Forall P l -> Forall P (JSArray.sort comparefn l).
Proof.
  intros H. eapply Permutation_Forall; [|exact H].
  symmetry. apply sort_perm.
Qed.
Variable key : A -> Q.

(** The sort is stable: the elements that a test selects keep their order,
    provided the test never selects two elements of different keys. *)
Lemma sort_insert_stable (p : A -> bool) (x : A) (l : list A) :
  (forall a b, p a = true -> p b = true -> key a == key b) ->
  filter p (JSArray.sort_insert (fun a b => key b - key a) x l)
  = filter p (x :: l).
Proof.
  intros Hp. induction l as [|y l IH]; [reflexivity|].
  cbn [JSArray.sort_insert].
  destruct (JS.gt (key y - key x) 0) eqn:E; [|reflexivity].
  apply gt_difference in E.
  cbn [filter] in *. rewrite IH.
  destruct (p x) eqn:Px, (p y) eqn:Py; try reflexivity.
  exfalso. rewrite (Hp x y Px Py) in E. exact (Qlt_irrefl _ E).
Qed.

Lemma sort_stable (p : A -> bool) (l : list A) :
  (forall a b, p a = true -> p b = true -> key a == key b) ->
  filter p (JSArray.sort (fun a b => key b - key a) l) = filter p l.
Proof.
  intros Hp. induction l as [|x l IH]; [reflexivity|].
  cbn [JSArray.sort fold_right].
  fold (JSArray.sort (fun a b => key b - key a) l).
  rewrite sort_insert_stable by exact Hp.
  cbn [filter]. now rewrite IH.
Qed.

Lemma sort_insert_descending (x : A) (l : list A) :
  JSArray.descending key l ->
  JSArray.descending key
    (JSArray.sort_insert (fun a b => key b - key a) x l).
Proof.
  unfold JSArray.descending.
  induction 1 as [|y l Hl IH Hy]; simpl.
  - repeat constructor.
  - destruct (JS.gt (key y - key x) 0) eqn:E.
    + apply gt_difference in E. constructor; [exact IH|].
      rewrite sort_insert_perm. constructor; [now apply Qlt_le_weak|exact Hy].
    + apply not_gt_difference in E.
      constructor; [now constructor|].
      constructor; [exact E|].
      eapply Forall_impl; [|exact Hy].
      intros z Hz. cbv beta in *. now apply Qle_trans with (key y).
Qed.

Lemma sort_descending (l : list A) :
  JSArray.descending key (JSArray.sort (fun a b => key b - key a) l).
Proof.
  induction l as [|x l IH]; simpl.
  - constructor.
  - now apply sort_insert_descending.
Qed.

Lemma slice0_descending (n : nat) (l : list A) :
  JSArray.descending key l -> JSArray.descending key (JSArray.slice0 n l).
Proof.
  unfold JSArray.descending, JSArray.slice0. intros H. revert n.
  induction H as [|y l Hl IH Hy]; intros [|n]; simpl; try constructor.
  - apply IH.
  - now apply (slice0_Forall _ n l).
Qed.

End Sorting.

(** The same for a comparator over numbers that can be infinite but are
    never [NaN]. *)
Section SortingNumbers.
Context {A : Type} (key : A -> JS.number).
Hypothesis key_number : forall a, key a <> JS.NaN.

Lemma sort_insert_descending_numbers (x : A) (l : list A) :
  JSArray.descending_numbers key l ->
  JSArray.descending_numbers key
    (JSArray.sort_insert (fun a b => JS.difference (key b) (key a)) x l).
Proof.
  unfold JSArray.descending_numbers.
  induction 1 as [|y l Hl IH Hy]; simpl.
  - repeat constructor.
  - rewrite difference_positive.
    destruct (JS.greater (key y) (key x)) eqn:E.
    + constructor; [exact IH|].
      rewrite sort_insert_perm. constructor; [now apply greater_leq|exact Hy].
    + assert (Hle : JS.leq (key y) (key x) = true).
      { rewrite leq_not_greater by apply key_number. now rewrite E. }
      constructor; [now constructor|].
      constructor; [exact Hle|].
      eapply Forall_impl; [|exact Hy].
      intros z Hz. cbv beta in *. now apply leq_transitive with (key y).
Qed.

Lemma sort_descending_numbers (l : list A) :
  JSArray.descending_numbers key
    (JSArray.sort (fun a b => JS.difference (key b) (key a)) l).
Proof.
  induction l as [|x l IH]; simpl.
  - constructor.
  - now apply sort_insert_descending_numbers.
Qed.

Lemma slice0_descending_numbers (n : nat) (l : list A) :
  JSArray.descending_numbers key l ->
  JSArray.descending_numbers key (JSArray.slice0 n l).
Proof.
  unfold JSArray.descending_numbers, JSArray.slice0. intros H. revert n.
  induction H as [|y l Hl IH Hy]; intros [|n]; simpl; try constructor.
  - apply IH.
  - now apply (slice0_Forall _ n l).
Qed.

Lemma descending_numbers_append (l1 l2 : list A) :
  JSArray.descending_numbers key (l1 ++ l2) ->
  forall x y, In x l1 -> In y l2 -> JS.leq (key y) (key x) = true.
Proof.
  unfold JSArray.descending_numbers. induction l1 as [|a l1 IH]; simpl.
  - intros _ x y [].
  - intros H x y [<-|Hx] Hy.
    + apply StronglySorted_inv in H as [_ H].
      rewrite Forall_forall in H. apply H. apply in_or_app. now right.
    + apply StronglySorted_inv in H as [H _]. now apply IH.
Qed.

(** What [sort] followed by [slice(0, n)] leaves out is no larger than what
    it keeps, and something is left out only when [n] elements are kept. *)
Lemma sort_slice_top_numbers (n : nat) (l : list A) :
  let sorted :=
    JSArray.sort (fun a b => JS.difference (key b) (key a)) l in
  Permutation (JSArray.slice0 n sorted ++ skipn n sorted) l
  /\ (forall x y, In x (JSArray.slice0 n sorted) -> In y (skipn n sorted) ->
                  JS.leq (key y) (key x) = true)
  /\ (skipn n sorted <> [] -> List.length (JSArray.slice0 n sorted) = n)
  /\ List.length (JSArray.slice0 n sorted) = Nat.min n (List.length l).
Proof.
  cbv zeta. unfold JSArray.slice0.
  set (sorted := JSArray.sort (fun a b => JS.difference (key b) (key a)) l).
  assert (Hperm : Permutation sorted l) by apply sort_perm.
  split; [now rewrite firstn_skipn|]. split.
  - apply descending_numbers_append. rewrite firstn_skipn.
    apply sort_descending_numbers.
  - split.
    + intros Hrest. rewrite length_firstn. apply Nat.min_l.
      destruct (Nat.le_gt_cases n (List.length sorted)) as [Hle|Hgt];
        [exact Hle|].
      exfalso. apply Hrest. apply skipn_all2. lia.
    + rewrite length_firstn. now rewrite (Permutation_length Hperm).
Qed.
End SortingNumbers.

(** Elements none of which is greater than another are left in their
    order. *)
Lemma sort_unranked {A : Type} (key : A -> JS.number) (l : list A) :
  (forall x y, In x l -> In y l -> JS.greater (key x) (key y) = false) ->
  JSArray.sort (fun a b => JS.difference (key b) (key a)) l = l.
Proof.
  induction l as [|x l IH]; intros H; [reflexivity|].
  cbn [JSArray.sort fold_right].
  fold (JSArray.sort (fun a b => JS.difference (key b) (key a)) l).
  rewrite IH by (intros; apply H; now right).
  destruct l as [|y l]; [reflexivity|]. cbn [JSArray.sort_insert].
  rewrite difference_positive, (H y x); [reflexivity| |]; simpl; tauto.
Qed.

(** ** Maps *)

Section Maps.
Context {V : Type}.
Implicit Types (m : JSMap.t V) (k : string) (v : V).

Lemma get_absent m k : JSMap.get m k = None <-> ~ In k (JSMap.keys m).
Proof.
  induction m as [|[k' v'] m IH]; simpl; [tauto|].
  destruct (String.eqb_spec k k') as [->|Hk].
  - split; [discriminate|]. intros H. exfalso. apply H. now left.
  - rewrite IH. split; [|tauto].
    intros H [E|E]; [congruence|tauto].
Qed.

Lemma get_present m k v : JSMap.get m k = Some v -> In (k, v) m.
Proof.
  induction m as [|[k' v'] m IH]; simpl; [discriminate|].
  destruct (String.eqb_spec k k') as [->|Hk].
  - intros [= ->]. now left.
  - intros H. right. now apply IH.
Qed.

Lemma get_set_same m k v : JSMap.get (JSMap.set m k v) k = Some v.
Proof.
  induction m as [|[k' v'] m IH]; simpl.
  - now rewrite String.eqb_refl.
  - destruct (String.eqb_spec k k') as [->|Hk]; simpl.
    + now rewrite String.eqb_refl.
    + destruct (String.eqb_spec k k'); [contradiction|exact IH].
Qed.

Lemma get_set_other m k k' v :
  k <> k' -> JSMap.get (JSMap.set m k v) k' = JSMap.get m k'.
Proof.
  intros Hk. induction m as [|[k0 v0] m IH]; simpl.
  - destruct (String.eqb_spec k' k); [congruence|reflexivity].
  - destruct (String.eqb_spec k k0) as [->|Hk0]; simpl.
    + destruct (String.eqb_spec k' k0); [congruence|reflexivity].
    + now rewrite IH.
Qed.

Lemma keys_set_present m k v :
  In k (JSMap.keys m) -> JSMap.keys (JSMap.set m k v) = JSMap.keys m.
Proof.
  induction m as [|[k' v'] m IH]; simpl; [tauto|].
  destruct (String.eqb_spec k k') as [->|Hk]; simpl; [reflexivity|].
  intros [E|H]; [congruence|]. f_equal. now apply IH.
Qed.

Lemma keys_set_absent m k v :
  ~ In k (JSMap.keys m) ->
  JSMap.keys (JSMap.set m k v) = JSMap.keys m ++ [k].
Proof.
  induction m as [|[k' v'] m IH]; simpl; [reflexivity|].
  destruct (String.eqb_spec k k') as [->|Hk]; simpl.
  - intros H. exfalso. apply H. now left.
  - intros H. f_equal. apply IH. tauto.
Qed.

Lemma set_entries m k v (e : string * V) :
  In e (JSMap.set m k v) -> e = (k, v) \/ In e m.
Proof.
  induction m as [|[k' v'] m IH]; simpl.
  - intros [<-|[]]. now left.
  - destruct (String.eqb_spec k k') as [->|Hk]; simpl.
    + intros [<-|H]; [now left|now right; right].
    + intros [<-|H]; [now right; left|].
      destruct (IH H); [now left|now right; right].
Qed.

Lemma filter_partition {A : Type} (p : A -> bool) (l : list A) :
  Permutation (filter p l ++ filter (fun x => negb (p x)) l) l.
Proof.
  induction l as [|x l IH]; simpl; [constructor|].
  destruct (p x); simpl.
  - now constructor.
  - symmetry. apply Permutation_cons_app. now symmetry.
Qed.

(** [Object.values] lists the values of the object, each once, in its own
    order. *)
Lemma Object_values_perm m :
  Permutation (JSMap.Object_values m) (JSMap.values m).
Proof.
  unfold JSMap.Object_values, JSMap.values, JSMap.ordered.
  apply Permutation_map.
  rewrite sort_perm. apply filter_partition.
Qed.

Lemma Object_values_In m v :
  In v (JSMap.Object_values m) <-> In v (JSMap.values m).
Proof.
  split; apply Permutation_in;
    [|symmetry]; apply Object_values_perm.
Qed.

(** An object none of whose keys is an array index is listed in insertion
    order. *)
Lemma Object_values_plain m :
  forallb (fun e => negb (JSMap.is_index e)) m = true ->
  JSMap.Object_values m = JSMap.values m.
Proof.
  intros H. unfold JSMap.Object_values, JSMap.values, JSMap.ordered.
  f_equal.
  assert (E1 : filter JSMap.is_index m = []).
  { induction m as [|e m IH]; [reflexivity|]. simpl in *.
    apply andb_true_iff in H as [He Hm]. apply negb_true_iff in He.
    rewrite He. now apply IH. }
  assert (E2 : filter (fun e => negb (JSMap.is_index e)) m = m).
  { induction m as [|e m IH]; [reflexivity|]. simpl in *.
    apply andb_true_iff in H as [He Hm]. rewrite He. f_equal.
    apply IH; [exact Hm|]. simpl in E1. apply negb_true_iff in He.
    now rewrite He in E1. }
  now rewrite E1, E2.
Qed.

Lemma set_keeps_NoDup m k v :
  NoDup (JSMap.keys m) -> NoDup (JSMap.keys (JSMap.set m k v)).
Proof.
  intros H. destruct (in_dec string_dec k (JSMap.keys m)) as [Hin|Hout].
  - now rewrite keys_set_present.
  - rewrite keys_set_absent by exact Hout.
    apply NoDup_app; [exact H|repeat constructor; simpl; tauto|].
    intros x Hx [<-|[]]. contradiction.
Qed.
End Maps.

(** ** The merger *)

Section Merger.
Import Page.
Implicit Types (byTitle : JSMap.t Recommendation) (item : Recommendation).

(** Each entry of the map is stored under its own title, and no title is
    stored twice. *)
Lemma merge_item_keyed byTitle item :
  NoDup (JSMap.keys byTitle)
  /\ Forall (fun e => title (snd e) = fst e) byTitle ->
  NoDup (JSMap.keys (merge_item byTitle item))
  /\ Forall (fun e => title (snd e) = fst e) (merge_item byTitle item).
Proof.
  intros [Hnd Hk].
  assert (Hset : NoDup (JSMap.keys (JSMap.set byTitle (title item) item))
                 /\ Forall (fun e => title (snd e) = fst e)
                      (JSMap.set byTitle (title item) item)).
  { split; [now apply set_keeps_NoDup|].
    rewrite Forall_forall in *. intros e He.
    destruct (set_entries _ _ _ _ He) as [->|Hin]; [reflexivity|].
    now apply Hk. }
  unfold merge_item.
  destruct (JSMap.get byTitle (title item)) as [existing|]; [|exact Hset].
  destruct (JS.greater _ _); [exact Hset|now split].
Qed.

Lemma fold_merge_keyed (items : Recommendations) byTitle :
  NoDup (JSMap.keys byTitle)
  /\ Forall (fun e => title (snd e) = fst e) byTitle ->
  NoDup (JSMap.keys (fold_left merge_item items byTitle))
  /\ Forall (fun e => title (snd e) = fst e)
       (fold_left merge_item items byTitle).
Proof.
  revert byTitle. induction items as [|item items IH]; intros m H; simpl.
  - exact H.
  - apply IH. now apply merge_item_keyed.
Qed.

Lemma byTitle_of_keyed (items : Recommendations) :
  NoDup (JSMap.keys (byTitle_of items))
  /\ Forall (fun e => title (snd e) = fst e) (byTitle_of items).
Proof.
  apply fold_merge_keyed. split; constructor.
Qed.

Lemma values_titles byTitle :
  Forall (fun e => title (snd e) = fst e) byTitle ->
  map title (JSMap.values byTitle) = JSMap.keys byTitle.
Proof.
  induction 1 as [|[k v] m Hk Hm IH]; simpl; [reflexivity|].
  simpl in Hk. now rewrite Hk, IH.
Qed.

(** What the map holds for a title after a scan: an item of the scan with
    that title whose savings no item with that title exceeds; nothing when
    no item has the title. *)
Lemma merge_item_maximum (seen : Recommendations) byTitle item :
  (forall k,
      match JSMap.get byTitle k with
      | Some v => title v = k /\ In v seen /\
                  forall x, In x seen -> title x = k ->
                            JS.leq (getSavingsMs x) (getSavingsMs v) = true
      | None => forall x, In x seen -> title x <> k
      end) ->
  forall k,
    match JSMap.get (merge_item byTitle item) k with
    | Some v => title v = k /\ In v (seen ++ [item]) /\
                forall x, In x (seen ++ [item]) -> title x = k ->
                          JS.leq (getSavingsMs x) (getSavingsMs v) = true
    | None => forall x, In x (seen ++ [item]) -> title x <> k
    end.
Proof.
  intros Inv k. specialize (Inv k) as Hk.
  destruct (string_dec (title item) k) as [<-|Hne].
  - unfold merge_item.
    destruct (JSMap.get byTitle (title item)) as [existing|] eqn:G.
    + destruct Hk as (Ht & Hin & Hmax).
      destruct (JS.greater _ _) eqn:E.
      * rewrite get_set_same. apply greater_leq in E.
        split; [reflexivity|]. split; [apply in_or_app; simpl; tauto|].
        intros x Hx Hxt. apply in_app_or in Hx as [Hx|[<-|[]]].
        -- apply leq_transitive with (getSavingsMs existing);
             [now apply Hmax|exact E].
        -- apply leq_reflexive, getSavingsMs_number.
      * rewrite G.
        split; [exact Ht|]. split; [apply in_or_app; tauto|].
        intros x Hx Hxt. apply in_app_or in Hx as [Hx|[<-|[]]].
        -- now apply Hmax.
        -- rewrite leq_not_greater by apply getSavingsMs_number.
           now rewrite E.
    + rewrite get_set_same.
      split; [reflexivity|]. split; [apply in_or_app; simpl; tauto|].
      intros x Hx Hxt. apply in_app_or in Hx as [Hx|[<-|[]]].
      * exfalso. exact (Hk x Hx Hxt).
      * apply leq_reflexive, getSavingsMs_number.
  - assert (G : JSMap.get (merge_item byTitle item) k = JSMap.get byTitle k).
    { unfold merge_item.
      destruct (JSMap.get byTitle (title item));
        [destruct (JS.greater _ _)|];
        try reflexivity; now apply get_set_other. }
    rewrite G. destruct (JSMap.get byTitle k) as [v|].
    + destruct Hk as (Ht & Hin & Hmax).
      split; [exact Ht|]. split; [apply in_or_app; tauto|].
      intros x Hx Hxt. apply in_app_or in Hx as [Hx|[<-|[]]].
      * now apply Hmax.
      * contradiction.
    + intros x Hx. apply in_app_or in Hx as [Hx|[<-|[]]].
      * now apply Hk.
      * exact Hne.
Qed.

Lemma fold_merge_maximum (items seen : Recommendations) byTitle :
  (forall k,
      match JSMap.get byTitle k with
      | Some v => title v = k /\ In v seen /\
                  forall x, In x seen -> title x = k ->
                            JS.leq (getSavingsMs x) (getSavingsMs v) = true
      | None => forall x, In x seen -> title x <> k
      end) ->
  forall k,
    match JSMap.get (fold_left merge_item items byTitle) k with
    | Some v => title v = k /\ In v (seen ++ items) /\
                forall x, In x (seen ++ items) -> title x = k ->
                          JS.leq (getSavingsMs x) (getSavingsMs v) = true
    | None => forall x, In x (seen ++ items) -> title x <> k
    end.
Proof.
  revert seen byTitle.
  induction items as [|item items IH]; intros seen m Inv; simpl.
  - now rewrite app_nil_r.
  - intros k.
    specialize (IH (seen ++ [item]) (merge_item m item)
                  (merge_item_maximum seen m item Inv) k).
    now rewrite <- app_assoc in IH.
Qed.
End Merger.

Section MergerClaims.
Import Page.

(** C2.  When the title of an item is already in the map, the stored item
    is replaced exactly when the new item has strictly greater estimated
    savings; otherwise the map is left as it is, so on equal savings the
    earlier item stays.  After a scan the item stored under a title has
    the greatest savings among the scanned items with that title.  For two
    lists of one item each with the same title the result is the second
    item if its savings are strictly greater and the first otherwise; the
    500 ms and "1.2 s" variants of "Defer images" give the "1.2 s" one.
    The estimates are compared as JavaScript compares numbers, an infinite
    estimate included. *)
Theorem merge_replaces_on_strictly_greater
    (byTitle : JSMap.t Recommendation) (item existing : Recommendation) :
  JSMap.get byTitle (title item) = Some existing ->
  (JS.greater (getSavingsMs item) (getSavingsMs existing) = true ->
   JSMap.get (merge_item byTitle item) (title item) = Some item)
  /\ (JS.leq (getSavingsMs item) (getSavingsMs existing) = true ->
      merge_item byTitle item = byTitle)
  /\ (forall (mobile desktop : Recommendations) k v,
         JSMap.get (byTitle_of (mobile ++ desktop)) k = Some v ->
         title v = k /\ In v (mobile ++ desktop) /\
         forall x, In x (mobile ++ desktop) -> title x = k ->
                   JS.leq (getSavingsMs x) (getSavingsMs v) = true)
  /\ (forall a b : Recommendation,
         title a = title b ->
         mergeRecommendations [a] [b]
         = [if JS.greater (getSavingsMs b) (getSavingsMs a) then b else a])
  /\ (forall d1 d2 : option string,
         let slow := {| title := "Defer images"; description := d1;
                        savings := None; savingsMs := Some 500 |} in
         let fast := {| title := "Defer images"; description := d2;
                        savings := Some "1.2 s"; savingsMs := None |} in
         mergeRecommendations [slow] [fast] = [fast]
         /\ mergeRecommendations [fast] [slow] = [fast]
         /\ getSavingsMs fast = JS.Num 1200
         /\ getSavingsMs slow = JS.Num 500).
Proof.
  intros G. refine (conj _ (conj _ (conj _ (conj _ _)))).
  - intros H. unfold merge_item. rewrite G, H. apply get_set_same.
  - intros H. unfold merge_item. rewrite G.
    rewrite leq_not_greater in H by apply getSavingsMs_number.
    apply negb_true_iff in H. now rewrite H.
  - intros mobile desktop k v Hv.
    pose proof (fold_merge_maximum (mobile ++ desktop) [] JSMap.empty) as M.
    specialize (M (fun _ x (F : In x []) => match F with end) k).
    fold (byTitle_of (mobile ++ desktop)) in M. rewrite Hv in M.
    exact M.
  - intros a b Hab.
    unfold mergeRecommendations, byTitle_of, merge_item. simpl.
    rewrite Hab, String.eqb_refl.
    destruct (JS.greater (getSavingsMs b) (getSavingsMs a)); simpl;
      rewrite ?String.eqb_refl; reflexivity.
  - intros d1 d2. cbv zeta. vm_compute. repeat split.
Qed.

Lemma merge_replaces_on_strictly_greater_witness :
  let slow := {| title := "Defer images"; description := None;
                 savings := None; savingsMs := Some 500 |} in
  let fast := {| title := "Defer images"; description := None;
                 savings := Some "1.2 s"; savingsMs := None |} in
  JSMap.get (merge_item [("Defer images", slow)] fast) "Defer images"
  = Some fast
  /\ merge_item [("Defer images", fast)] slow = [("Defer images", fast)].
Proof.
  cbv zeta. split.
  - apply (merge_replaces_on_strictly_greater
             [("Defer images",
               {| title := "Defer images"; description := None;
                  savings := None; savingsMs := Some 500 |})]
             {| title := "Defer images"; description := None;
                savings := Some "1.2 s"; savingsMs := None |}
             {| title := "Defer images"; description := None;
                savings := None; savingsMs := Some 500 |});
      reflexivity.
  - apply (merge_replaces_on_strictly_greater
             [("Defer images",
               {| title := "Defer images"; description := None;
                  savings := Some "1.2 s"; savingsMs := None |})]
             {| title := "Defer images"; description := None;
                savings := None; savingsMs := Some 500 |}
             {| title := "Defer images"; description := None;
                savings := Some "1.2 s"; savingsMs := None |});
      [reflexivity|vm_compute; reflexivity].
Defined.

(** The scenario of two lists with a shared title: A(2000), C(1500),
    B(500). *)
Example merge_scenario :
  let item t ms := {| title := t; description := None; savings := None;
                      savingsMs := Some ms |} in
  mergeRecommendations [item "A" 2000; item "B" 500]
    [item "A" 1000; item "C" 1500]
  = [item "A" 2000; item "C" 1500; item "B" 500].
Proof. vm_compute. reflexivity. Qed.

(** C3.  For every pair of input lists the merger returns at most 5 items,
    with pairwise distinct titles, in descending order of estimated
    savings: the estimate of each item is at least that of every item after
    it. *)
Theorem mergeRecommendations_top5 (mobile desktop : Recommendations) :
  (List.length (mergeRecommendations mobile desktop) <= 5)%nat
  /\ NoDup (map title (mergeRecommendations mobile desktop))
  /\ JSArray.descending_numbers getSavingsMs
       (mergeRecommendations mobile desktop).
Proof.
  unfold mergeRecommendations.
  destruct (byTitle_of_keyed (mobile ++ desktop)) as [Hnd Hk].
  split; [apply slice0_length|]. split.
  - unfold JSArray.slice0. rewrite <- firstn_map.
    apply slice0_NoDup.
    eapply Permutation_NoDup.
    + apply Permutation_map. symmetry. apply sort_perm.
    + now rewrite values_titles.
  - apply slice0_descending_numbers, sort_descending_numbers.
    apply getSavingsMs_number.
Qed.
End MergerClaims.

(** ** The extractor of the pagespeed route *)

Section SimpleExtractor.
Import PageSpeedRoute.

Lemma narrowed_In (l : list (option PageSpeedAudit)) (a : PageSpeedAudit) :
  In a (narrowed l) <-> In (Some a) l.
Proof.
  induction l as [|[b|] l IH]; simpl; [tauto| |].
  - rewrite IH. split; intros [H|H]; auto; left; congruence.
  - rewrite IH. split; [tauto|]. intros [H|H]; [discriminate|exact H].
Qed.

(** A score passes the filter exactly when it is a number below 1: a
    missing or [null] score counts as 1. *)
Lemma score_below_one (s : JS.nullable Q) :
  JS.lt (JS.nullish_of s 1) 1 = true <-> exists q, s = JS.def q /\ q < 1.
Proof.
  rewrite lt_true. destruct s as [| |q]; simpl.
  - split; [intros H; now apply Qlt_irrefl in H|intros (q & H & _); discriminate].
  - split; [intros H; now apply Qlt_irrefl in H|intros (q & H & _); discriminate].
  - split; [intros H; now exists q|intros (q' & [= ->] & H); exact H].
Qed.

Lemma selected_simple (refs : list AuditRef.t)
    (audits : JSMap.t PageSpeedAudit) :
  (List.length (selected refs audits) <= 3)%nat
  /\ JSArray.descending (fun a => JS.nullish (Audit.numericValue a) 0)
       (selected refs audits)
  /\ Forall (fun a =>
               JS.truthy (Audit.title a) = true
               /\ (exists q, Audit.score a = JS.def q /\ q < 1)
               /\ exists ref, In ref refs
                              /\ JSMap.get audits (AuditRef.id ref) = Some a)
       (selected refs audits).
Proof.
  unfold selected. split; [apply slice0_length|]. split.
  - apply slice0_descending.
    apply (sort_descending (fun a => JS.nullish (Audit.numericValue a) 0)).
  - apply slice0_Forall, sort_Forall.
    rewrite Forall_forall. intros a Ha.
    apply filter_In in Ha as [Ha Hscore].
    apply narrowed_In, filter_In in Ha as [Ha Htitle].
    apply in_map_iff in Ha as (ref & Hget & Href).
    split; [exact Htitle|]. split; [now apply score_below_one|].
    now exists ref.
Qed.
End SimpleExtractor.

(** ** The extractor of the analyze route *)

Section RichExtractor.
Import Http AnalyzeRoute.

Lemma room_for_improvement_true (a : Audit.t) :
  room_for_improvement a = true <->
  (exists q, Audit.score a = JS.def q /\ q < 1)
  /\ exists ms, overallSavingsMs a = Some ms /\ 100 < ms.
Proof.
  unfold room_for_improvement.
  destruct (Audit.score a) as [| |q]; simpl.
  - split; [discriminate|intros [(q & H & _) _]; discriminate].
  - split; [discriminate|intros [(q & H & _) _]; discriminate].
  - destruct (overallSavingsMs a) as [ms|].
    + rewrite andb_true_iff, lt_true, gt_true. split.
      * intros [Hq Hms]. split; [now exists q|now exists ms].
      * intros [(q' & [= ->] & Hq) (ms' & [= ->] & Hms)]. now split.
    + rewrite andb_false_r.
      split; [discriminate|intros [_ (ms & H & _)]; discriminate].
Qed.

Lemma selected_rich (audits : JSMap.t Audit.t) :
  (List.length (selected audits) <= 3)%nat
  /\ JSArray.descending savings_of (selected audits)
  /\ Forall (fun a =>
               In a (JSMap.values audits)
               /\ (exists q, Audit.score a = JS.def q /\ q < 1)
               /\ exists ms, overallSavingsMs a = Some ms /\ 100 < ms)
       (selected audits).
Proof.
  unfold selected. split; [apply slice0_length|]. split.
  - apply slice0_descending, (sort_descending savings_of).
  - apply slice0_Forall, sort_Forall.
    rewrite Forall_forall. intros a Ha.
    apply filter_In in Ha as [Ha Hroom].
    apply (proj1 (Object_values_In audits a)) in Ha.
    apply room_for_improvement_true in Hroom. tauto.
Qed.

Lemma metric_fulfilled (audits : option (JSMap.t Audit.t)) (id : string)
    (v : option string) :
  metric audits id = Fulfilled v <->
  exists dict a, audits = Some dict /\ JSMap.get dict id = Some a
                 /\ v = Audit.displayValue a.
Proof.
  unfold metric. destruct audits as [dict|]; simpl.
  - destruct (JSMap.get dict id) as [a|] eqn:G; simpl.
    + split.
      * intros [= <-]. now exists dict, a.
      * intros (d & a' & [= <-] & G' & ->). congruence.
    + split; [discriminate|intros (d & a' & [= <-] & G' & _); congruence].
  - split; [discriminate|intros (d & a' & H & _); discriminate].
Qed.

(** [extract] returns exactly when the payload has the performance
    category and the five metric audits, and then it returns this. *)
Lemma extract_fulfilled (data : Data) (r : Analysis) :
  extract data = Fulfilled r <->
  exists lighthouse categories performance audits fcp lcp tbt cls si,
    lighthouseResult data = Some lighthouse
    /\ Lighthouse.categories lighthouse = Some categories
    /\ Categories.performance categories = Some performance
    /\ Lighthouse.audits lighthouse = Some audits
    /\ JSMap.get audits "first-contentful-paint" = Some fcp
    /\ JSMap.get audits "largest-contentful-paint" = Some lcp
    /\ JSMap.get audits "total-blocking-time" = Some tbt
    /\ JSMap.get audits "cumulative-layout-shift" = Some cls
    /\ JSMap.get audits "speed-index" = Some si
    /\ r = {| score :=
                JS.round
                  (JS.times (JS.ToNumber (Performance.score performance))
                     100);
              metrics :=
                {| Metrics.fcp := Audit.displayValue fcp;
                   Metrics.lcp := Audit.displayValue lcp;
                   Metrics.tbt := Audit.displayValue tbt;
                   Metrics.cls := Audit.displayValue cls;
                   Metrics.speedIndex := Audit.displayValue si |};
              recommendations := map entry_of (selected audits) |}.
Proof.
  split.
  - unfold extract.
    destruct (lighthouseResult data) as [lh|] eqn:H1; simpl;
      [|discriminate].
    destruct (Lighthouse.categories lh) as [cats|] eqn:H2; simpl;
      [|discriminate].
    destruct (Categories.performance cats) as [perf|] eqn:H3; simpl;
      [|discriminate].
    destruct (metric _ "first-contentful-paint") as [v1|] eqn:E1;
      simpl; [|discriminate].
    destruct (metric _ "largest-contentful-paint") as [v2|] eqn:E2;
      simpl; [|discriminate].
    destruct (metric _ "total-blocking-time") as [v3|] eqn:E3;
      simpl; [|discriminate].
    destruct (metric _ "cumulative-layout-shift") as [v4|] eqn:E4;
      simpl; [|discriminate].
    destruct (metric _ "speed-index") as [v5|] eqn:E5;
      simpl; [|discriminate].
    apply metric_fulfilled in E1 as (dict & a1 & Hd & G1 & ->).
    apply metric_fulfilled in E2 as (d2 & a2 & Hd2 & G2 & ->).
    apply metric_fulfilled in E3 as (d3 & a3 & Hd3 & G3 & ->).
    apply metric_fulfilled in E4 as (d4 & a4 & Hd4 & G4 & ->).
    apply metric_fulfilled in E5 as (d5 & a5 & Hd5 & G5 & ->).
    rewrite Hd in Hd2, Hd3, Hd4, Hd5.
    injection Hd2 as <-. injection Hd3 as <-.
    injection Hd4 as <-. injection Hd5 as <-.
    intros [= <-]. exists lh, cats, perf, dict, a1, a2, a3, a4, a5.
    rewrite Hd. simpl. tauto.
  - intros (lh & cats & perf & dict & a1 & a2 & a3 & a4 & a5 &
            H1 & H2 & H3 & H4 & G1 & G2 & G3 & G4 & G5 & ->).
    unfold extract, metric. rewrite H1. simpl. rewrite H2. simpl.
    rewrite H3. simpl. rewrite H4. simpl.
    rewrite G1, G2, G3, G4, G5. reflexivity.
Qed.
End RichExtractor.

(** ** Recommendations of the two extractors *)

Section Recommendations.
Import Http.

Lemma descending_map {A B : Type} (f : A -> B) (key : B -> Q) (l : list A) :
  JSArray.descending (fun a => key (f a)) l ->
  JSArray.descending key (map f l).
Proof.
  unfold JSArray.descending.
  induction 1 as [|a l Hl IH Ha]; simpl; constructor.
  - exact IH.
  - rewrite Forall_forall in *. intros b Hb.
    apply in_map_iff in Hb as (x & <- & Hx). now apply Ha.
Qed.

(** C4, as the code has it.  The pagespeed route returns the projections of
    at most 3 audits, in descending order of [numericValue ?? 0], each with
    a non-empty title and a score that is a number below 1.  When the
    analyze route returns, its entries are the projections of at most 3
    audits of the payload, in descending order of savings, each with a
    score that is a number below 1 and savings above 100 ms; it does not
    look at the title. *)
Theorem extractors_select_top3
    (payload : PageSpeedRoute.PageSpeedResponse)
    (data : AnalyzeRoute.Data) (r : AnalyzeRoute.Analysis) :
  (exists l,
      PageSpeedRoute.recommendations (PageSpeedRoute.extractResult payload)
      = map PageSpeedRoute.entry_of l
      /\ (List.length l <= 3)%nat
      /\ JSArray.descending
           (fun a => JS.nullish (PageSpeedRoute.Audit.numericValue a) 0) l
      /\ Forall
           (fun a =>
              JS.truthy (PageSpeedRoute.Audit.title a) = true
              /\ (exists q, PageSpeedRoute.Audit.score a = JS.def q /\ q < 1)
              /\ exists id,
                   JSMap.get (PageSpeedRoute.audits_of payload) id = Some a)
           l)
  /\ (AnalyzeRoute.extract data = Fulfilled r ->
      exists audits l,
        JS.chain (AnalyzeRoute.lighthouseResult data)
          AnalyzeRoute.Lighthouse.audits = Some audits
        /\ AnalyzeRoute.recommendations r = map AnalyzeRoute.entry_of l
        /\ (List.length l <= 3)%nat
        /\ JSArray.descending AnalyzeRoute.savings_of l
        /\ JSArray.descending AnalyzeRoute.Entry.savingsMs
             (AnalyzeRoute.recommendations r)
        /\ Forall
             (fun a =>
                In a (JSMap.values audits)
                /\ (exists q,
                       AnalyzeRoute.Audit.score a = JS.def q /\ q < 1)
                /\ exists ms,
                     AnalyzeRoute.overallSavingsMs a = Some ms
                     /\ 100 < ms
                     /\ AnalyzeRoute.Entry.savingsMs
                          (AnalyzeRoute.entry_of a) = ms)
             l).
Proof.
  split.
  - unfold PageSpeedRoute.extractResult. simpl.
    destruct (JS.chain (PageSpeedRoute.performance_of payload)
                PageSpeedRoute.Performance.auditRefs) as [refs|]; simpl.
    + exists (PageSpeedRoute.selected refs
                (PageSpeedRoute.audits_of payload)).
      destruct (selected_simple refs (PageSpeedRoute.audits_of payload))
        as (Hlen & Hdesc & Hall).
      repeat (split; [assumption || reflexivity|]).
      eapply Forall_impl; [|exact Hall].
      intros a (Ht & Hs & ref & _ & Hget).
      split; [exact Ht|]. split; [exact Hs|]. now exists (PageSpeedRoute.AuditRef.id ref).
    + exists []. repeat split; simpl; auto; constructor.
  - intros H.
    apply extract_fulfilled in H
      as (lh & cats & perf & audits & a1 & a2 & a3 & a4 & a5 &
          H1 & H2 & H3 & H4 & _ & _ & _ & _ & _ & ->).
    exists audits, (AnalyzeRoute.selected audits).
    destruct (selected_rich audits) as (Hlen & Hdesc & Hall).
    rewrite H1. simpl.
    repeat (split; [assumption || reflexivity|]).
    split; [now apply descending_map|].
    eapply Forall_impl; [|exact Hall].
    intros a (Hin & Hs & ms & Hms & Hgt).
    split; [exact Hin|]. split; [exact Hs|].
    exists ms. unfold AnalyzeRoute.entry_of. simpl. rewrite Hms. auto.
Qed.

Lemma extractors_select_top3_witness :
  exists l,
    AnalyzeRoute.recommendations Samples.Rich.result
    = map AnalyzeRoute.entry_of l
    /\ (List.length l <= 3)%nat
    /\ JSArray.descending AnalyzeRoute.Entry.savingsMs
         (AnalyzeRoute.recommendations Samples.Rich.result).
Proof.
  destruct (extractors_select_top3 Samples.Simple.payload
              Samples.Rich.data Samples.Rich.result) as [_ H].
  destruct (H eq_refl) as (audits & l & _ & Hr & Hlen & _ & Hdesc & _).
  exists l. auto.
Defined.

(** The claim C4 fails for the analyze route: an audit with an empty title,
    a score of 0.5 and savings of 2600 ms is returned. *)
Lemma rich_extractor_returns_untitled_counterexample :
  AnalyzeRoute.extract Samples.Rich.data = Fulfilled Samples.Rich.result
  /\ In {| AnalyzeRoute.Entry.title := Some "";
           AnalyzeRoute.Entry.description := None;
           AnalyzeRoute.Entry.savings := "3s";
           AnalyzeRoute.Entry.savingsMs := 2600 |}
        (AnalyzeRoute.recommendations Samples.Rich.result)
  /\ ~ (forall data r,
           AnalyzeRoute.extract data = Fulfilled r ->
           Forall (fun e => JS.truthy_opt (AnalyzeRoute.Entry.title e) = true)
             (AnalyzeRoute.recommendations r)).
Proof.
  split; [reflexivity|]. split; [simpl; tauto|].
  intros H. specialize (H Samples.Rich.data Samples.Rich.result eq_refl).
  simpl in H. inversion H as [|? ? _ H']. inversion H' as [|? ? F _].
  discriminate F.
Qed.
End Recommendations.

(** ** Audits without a score *)

Section AbsentScore.

(** C10.  An audit whose score is missing or [null] is never among the
    audits behind the recommendations, whatever its savings: the pagespeed
    route reads such a score as 1, which the strict test against 1 refuses,
    and the filter of the analyze route is false for it.  Every entry that
    either route returns is the projection of an audit whose score is a
    number below 1. *)
Theorem absent_score_never_selected
    (simple : PageSpeedRoute.PageSpeedAudit) (rich : AnalyzeRoute.Audit.t) :
  (PageSpeedRoute.Audit.score simple = JS.undefined
   \/ PageSpeedRoute.Audit.score simple = JS.null ->
   JS.nullish_of (PageSpeedRoute.Audit.score simple) 1 = 1
   /\ forall refs audits, ~ In simple (PageSpeedRoute.selected refs audits))
  /\ (forall payload,
         Forall (fun e => exists a q,
                     e = PageSpeedRoute.entry_of a
                     /\ PageSpeedRoute.Audit.score a = JS.def q /\ q < 1)
           (PageSpeedRoute.recommendations
              (PageSpeedRoute.extractResult payload)))
  /\ (AnalyzeRoute.Audit.score rich = JS.undefined
      \/ AnalyzeRoute.Audit.score rich = JS.null ->
      AnalyzeRoute.room_for_improvement rich = false
      /\ forall audits, ~ In rich (AnalyzeRoute.selected audits))
  /\ (forall data r,
         AnalyzeRoute.extract data = Http.Fulfilled r ->
         Forall (fun e => exists a q,
                     e = AnalyzeRoute.entry_of a
                     /\ AnalyzeRoute.Audit.score a = JS.def q /\ q < 1)
           (AnalyzeRoute.recommendations r)).
Proof.
  assert (Hsimple : forall refs audits a,
             In a (PageSpeedRoute.selected refs audits) ->
             exists q, PageSpeedRoute.Audit.score a = JS.def q /\ q < 1).
  { intros refs audits a Hin.
    destruct (selected_simple refs audits) as (_ & _ & Hall).
    rewrite Forall_forall in Hall.
    now destruct (Hall a Hin) as (_ & Hq & _). }
  assert (Hrich : forall audits a,
             In a (AnalyzeRoute.selected audits) ->
             exists q, AnalyzeRoute.Audit.score a = JS.def q /\ q < 1).
  { intros audits a Hin.
    destruct (selected_rich audits) as (_ & _ & Hall).
    rewrite Forall_forall in Hall.
    now destruct (Hall a Hin) as (_ & Hq & _). }
  refine (conj _ (conj _ (conj _ _))).
  - intros Habsent.
    split; [destruct Habsent as [-> | ->]; reflexivity|].
    intros refs audits Hin.
    destruct (Hsimple refs audits simple Hin) as (q & Hq & _).
    destruct Habsent; congruence.
  - intros payload. unfold PageSpeedRoute.extractResult. simpl.
    destruct (JS.chain _ PageSpeedRoute.Performance.auditRefs)
      as [refs|]; simpl; [|constructor].
    rewrite Forall_forall. intros e He.
    apply in_map_iff in He as (a & <- & Ha).
    destruct (Hsimple refs _ a Ha) as (q & Hq). now exists a, q.
  - intros Habsent. split.
    + unfold AnalyzeRoute.room_for_improvement.
      destruct Habsent as [-> | ->]; reflexivity.
    + intros audits Hin.
      destruct (Hrich audits rich Hin) as (q & Hq & _).
      destruct Habsent; congruence.
  - intros data r H.
    apply extract_fulfilled in H
      as (lh & cats & perf & audits & a1 & a2 & a3 & a4 & a5 &
          _ & _ & _ & _ & _ & _ & _ & _ & _ & ->).
    simpl. rewrite Forall_forall. intros e He.
    apply in_map_iff in He as (a & <- & Ha).
    destruct (Hrich audits a Ha) as (q & Hq). now exists a, q.
Qed.

Lemma absent_score_never_selected_witness :
  ~ In (snd (Samples.Simple.audit "network-requests" "Network Requests"
               JS.undefined None (Some 8000)))
      (PageSpeedRoute.selected
         [Samples.Simple.ref "network-requests";
          Samples.Simple.ref "unused-javascript"]
         Samples.Simple.audits)
  /\ ~ In (snd (Samples.Rich.audit "final-screenshot"
                  (Some "Final Screenshot") JS.null None (Some 9000)))
         (AnalyzeRoute.selected
            (Samples.Rich.metric_audits ++ Samples.Rich.other_audits)).
Proof.
  destruct (absent_score_never_selected
              (snd (Samples.Simple.audit "network-requests"
                      "Network Requests" JS.undefined None (Some 8000)))
              (snd (Samples.Rich.audit "final-screenshot"
                      (Some "Final Screenshot") JS.null None (Some 9000))))
    as (Hs & _ & Hr & _).
  split.
  - apply Hs. left. reflexivity.
  - apply Hr. right. reflexivity.
Defined.
End AbsentScore.

(** ** The score *)

Section Score.
Import Http.

(** [Math.round] gives the nearest integer. *)
Lemma Math_round_nearest (x : Q) :
  x - (1 # 2) < inject_Z (JS.Math_round x)
  /\ inject_Z (JS.Math_round x) <= x + (1 # 2).
Proof.
  unfold JS.Math_round.
  pose proof (Qfloor_le (x + (1 # 2))) as Hle.
  pose proof (Qlt_floor (x + (1 # 2))) as Hlt.
  rewrite inject_Z_plus in Hlt.
  change (inject_Z 1) with 1 in Hlt.
  split; lra.
Qed.

Lemma Math_round_bounded (x : Q) (Y : Z) :
  0 <= x <= inject_Z Y -> (0 <= JS.Math_round x <= Y)%Z.
Proof.
  intros [H0 H1]. unfold JS.Math_round. split.
  - apply (Qfloor_resp_le 0). lra.
  - assert (H : x + (1 # 2) <= inject_Z Y + (1 # 2)) by lra.
    apply Qfloor_resp_le in H.
    assert (E : Qfloor (inject_Z Y + (1 # 2)) = Y).
    { pose proof (Qfloor_le (inject_Z Y + (1 # 2))) as Hle.
      pose proof (Qlt_floor (inject_Z Y + (1 # 2))) as Hlt.
      rewrite inject_Z_plus in Hlt. change (inject_Z 1) with 1 in Hlt.
      assert (H2 : inject_Z (Qfloor (inject_Z Y + (1 # 2))) < inject_Z (Y + 1)).
      { rewrite inject_Z_plus. change (inject_Z 1) with 1. lra. }
      assert (H3 : inject_Z (Y - 1) < inject_Z (Qfloor (inject_Z Y + (1 # 2)))).
      { unfold Z.sub. rewrite inject_Z_plus.
        change (inject_Z (- (1))) with (- (1)). lra. }
      rewrite <- Zlt_Qlt in H2, H3. lia. }
    lia.
Qed.

(** The product of a fraction in [0,1] and 100, as doubles, is a finite
    number in [0,100]. *)
Lemma times_percent (s : Q) :
  0 <= s <= 1 ->
  exists product,
    JS.times (JS.Num s) 100 = JS.Num product /\ 0 <= product <= 100.
Proof.
  intros Hs. unfold JS.times.
  destruct (rounded_bounded s 1) as (d & -> & Hd0 & Hd1); [lia|exact Hs|].
  change (inject_Z 1) with 1 in Hd1.
  destruct (rounded_bounded (d * 100) 100) as (p & Hp & Hp0 & Hp1);
    [lia| |].
  - change (inject_Z 100) with 100. split; lra.
  - exists p. split; [exact Hp|]. now split.
Qed.

Lemma round_percent (s : Q) :
  0 <= s <= 1 ->
  exists z,
    JS.round (JS.times (JS.Num s) 100) = JS.Num (inject_Z z)
    /\ (0 <= z <= 100)%Z.
Proof.
  intros Hs. destruct (times_percent s Hs) as (p & -> & Hp).
  exists (JS.Math_round p). split; [reflexivity|].
  now apply Math_round_bounded.
Qed.

(** C5, as the code has it.  The pagespeed route returns [Math.round] of
    the product of the fractional score, or of 0 when it is absent, and 100:
    the integer nearest to that product, a half going up.  The product is
    that of doubles, so it is rounded before [Math.round] sees it (0.285
    gives 28, and the double nearest to 0.015 gives 2).  For a fraction in
    [0,1] the score is an integer in [0,100], and an absent fraction gives
    0.  The analyze route, when it returns, computes the score of a present
    fraction in the same way, but has no default: an absent fraction gives
    [NaN], and [null] gives 0. *)
Theorem score_of_fraction
    (payload : PageSpeedRoute.PageSpeedResponse)
    (data : AnalyzeRoute.Data) (r : AnalyzeRoute.Analysis) :
  (let fraction :=
     JS.chain (PageSpeedRoute.performance_of payload)
       PageSpeedRoute.Performance.score in
   let product := JS.times (JS.Num (JS.nullish fraction 0)) 100 in
   let score := PageSpeedRoute.score (PageSpeedRoute.extractResult payload) in
   score = JS.round product
   /\ (forall p, product = JS.Num p ->
       exists z, score = JS.Num (inject_Z z)
                 /\ p - (1 # 2) < inject_Z z /\ inject_Z z <= p + (1 # 2))
   /\ (forall s, fraction = Some s -> JS.rounded s = JS.Num s ->
       score = JS.round (JS.rounded (s * 100)))
   /\ (fraction = None -> score = JS.Num 0)
   /\ (0 <= JS.nullish fraction 0 <= 1 ->
       exists z, score = JS.Num (inject_Z z) /\ (0 <= z <= 100)%Z))
  /\ JS.round (JS.times (JS.Num (285 # 1000)) 100) = JS.Num 28
  /\ JS.round (JS.times (JS.Num (Double.nearest (15 # 1000))) 100)
     = JS.Num 2
  /\ (AnalyzeRoute.extract data = Fulfilled r ->
      exists performance,
        JS.chain
          (JS.chain (AnalyzeRoute.lighthouseResult data)
             AnalyzeRoute.Lighthouse.categories)
          AnalyzeRoute.Categories.performance = Some performance
        /\ AnalyzeRoute.score r
           = JS.round
               (JS.times
                  (JS.ToNumber (AnalyzeRoute.Performance.score performance))
                  100)
        /\ (forall s,
               AnalyzeRoute.Performance.score performance = JS.def s ->
               JS.rounded s = JS.Num s ->
               AnalyzeRoute.score r = JS.round (JS.rounded (s * 100)))
        /\ (forall s,
               AnalyzeRoute.Performance.score performance = JS.def s ->
               0 <= s <= 1 ->
               exists z, AnalyzeRoute.score r = JS.Num (inject_Z z)
                         /\ (0 <= z <= 100)%Z)
        /\ (AnalyzeRoute.Performance.score performance = JS.undefined ->
            AnalyzeRoute.score r = JS.NaN)
        /\ (AnalyzeRoute.Performance.score performance = JS.null ->
            AnalyzeRoute.score r = JS.Num 0)).
Proof.
  refine (conj _ (conj _ (conj _ _))).
  - cbv zeta. unfold PageSpeedRoute.extractResult. simpl.
    split; [reflexivity|]. split; [|split; [|split]].
    + intros p ->. exists (JS.Math_round p).
      split; [reflexivity|apply Math_round_nearest].
    + intros s -> Hs. simpl. now rewrite Hs.
    + intros ->. vm_compute. reflexivity.
    + apply round_percent.
  - vm_compute. reflexivity.
  - vm_compute. reflexivity.
  - intros H.
    apply extract_fulfilled in H
      as (lh & cats & perf & audits & a1 & a2 & a3 & a4 & a5 &
          H1 & H2 & H3 & _ & _ & _ & _ & _ & _ & ->).
    exists perf. rewrite H1. simpl. rewrite H2. simpl.
    split; [exact H3|]. split; [reflexivity|]. split; [|split; [|split]].
    + intros s -> Hs. simpl. now rewrite Hs.
    + intros s ->. simpl. apply round_percent.
    + intros ->. reflexivity.
    + intros ->. vm_compute. reflexivity.
Qed.

Lemma score_of_fraction_witness :
  (exists z,
      PageSpeedRoute.score
        (PageSpeedRoute.extractResult Samples.Simple.payload)
      = JS.Num (inject_Z z) /\ (0 <= z <= 100)%Z)
  /\ PageSpeedRoute.score (PageSpeedRoute.extractResult Samples.Simple.bare)
     = JS.Num 0
  /\ exists z,
       AnalyzeRoute.score Samples.Rich.result = JS.Num (inject_Z z)
       /\ (0 <= z <= 100)%Z.
Proof.
  destruct (score_of_fraction Samples.Simple.payload Samples.Rich.data
              Samples.Rich.result)
    as [(_ & _ & _ & _ & Hrange) (_ & _ & Hrich)].
  destruct (score_of_fraction Samples.Simple.bare Samples.Rich.data
              Samples.Rich.result) as [(_ & _ & _ & Hzero & _) _].
  split; [apply Hrange; split; vm_compute; discriminate|].
  split; [apply Hzero; reflexivity|].
  destruct (Hrich eq_refl) as (performance & Hp & _ & _ & Hs & _).
  injection Hp as <-.
  apply (Hs (87 # 100)); [reflexivity|split; vm_compute; discriminate].
Defined.

(** The claim C5 fails for the analyze route: a performance category
    without a score gives [NaN], not 0. *)
Lemma rich_score_absent_counterexample :
  (exists r,
      AnalyzeRoute.extract Samples.Rich.unscored = Fulfilled r
      /\ AnalyzeRoute.score r = JS.NaN
      /\ AnalyzeRoute.score r <> JS.Num 0)
  /\ ~ (forall data r performance,
           AnalyzeRoute.extract data = Fulfilled r ->
           JS.chain
             (JS.chain (AnalyzeRoute.lighthouseResult data)
                AnalyzeRoute.Lighthouse.categories)
             AnalyzeRoute.Categories.performance = Some performance ->
           AnalyzeRoute.Performance.score performance = JS.undefined ->
           AnalyzeRoute.score r = JS.Num 0).
Proof.
  split.
  - eexists. split; [reflexivity|]. split; [reflexivity|discriminate].
  - intros H.
    specialize (H Samples.Rich.unscored _ _ eq_refl eq_refl eq_refl).
    discriminate H.
Qed.
End Score.

(** ** The four metrics *)

Section MetricValues.
Import Http.

(** C6, as the code has it.  For each of the four metric ids the pagespeed
    route returns the display value of the audit when there is one, and
    "--" when the audit is absent from the audits.  The analyze route has
    no placeholder: when it returns, each metric is the display value of
    its audit, and when a metric audit is absent it throws instead; a
    request for which an upstream call is answered with such a payload is
    answered with status 500. *)
Theorem metric_display_values
    (payload : PageSpeedRoute.PageSpeedResponse)
    (data : AnalyzeRoute.Data) (r : AnalyzeRoute.Analysis) :
  (let audits := PageSpeedRoute.audits_of payload in
   PageSpeedRoute.metrics (PageSpeedRoute.extractResult payload)
   = {| PageSpeedRoute.Metrics.fcp :=
          PageSpeedRoute.metric audits "first-contentful-paint";
        PageSpeedRoute.Metrics.lcp :=
          PageSpeedRoute.metric audits "largest-contentful-paint";
        PageSpeedRoute.Metrics.tbt :=
          PageSpeedRoute.metric audits "total-blocking-time";
        PageSpeedRoute.Metrics.cls :=
          PageSpeedRoute.metric audits "cumulative-layout-shift" |}
   /\ forall id,
        (forall a v,
            JSMap.get audits id = Some a ->
            PageSpeedRoute.Audit.displayValue a = Some v ->
            PageSpeedRoute.metric audits id = v)
        /\ (JSMap.get audits id = None ->
            PageSpeedRoute.metric audits id = "--"))
  /\ (AnalyzeRoute.extract data = Fulfilled r ->
      exists audits fcp lcp tbt cls,
        JS.chain (AnalyzeRoute.lighthouseResult data)
          AnalyzeRoute.Lighthouse.audits = Some audits
        /\ JSMap.get audits "first-contentful-paint" = Some fcp
        /\ JSMap.get audits "largest-contentful-paint" = Some lcp
        /\ JSMap.get audits "total-blocking-time" = Some tbt
        /\ JSMap.get audits "cumulative-layout-shift" = Some cls
        /\ AnalyzeRoute.Metrics.fcp (AnalyzeRoute.metrics r)
           = AnalyzeRoute.Audit.displayValue fcp
        /\ AnalyzeRoute.Metrics.lcp (AnalyzeRoute.metrics r)
           = AnalyzeRoute.Audit.displayValue lcp
        /\ AnalyzeRoute.Metrics.tbt (AnalyzeRoute.metrics r)
           = AnalyzeRoute.Audit.displayValue tbt
        /\ AnalyzeRoute.Metrics.cls (AnalyzeRoute.metrics r)
           = AnalyzeRoute.Audit.displayValue cls)
  /\ (forall audits id,
         JS.chain (AnalyzeRoute.lighthouseResult data)
           AnalyzeRoute.Lighthouse.audits = Some audits ->
         In id ["first-contentful-paint"; "largest-contentful-paint";
                "total-blocking-time"; "cumulative-layout-shift"] ->
         JSMap.get audits id = None ->
         exists message, AnalyzeRoute.extract data = Rejected message)
  /\ (forall env fields target address key first strategy response audits id,
         url fields = Some target -> JS.truthy target = true ->
         email fields = Some address -> JS.truthy address = true ->
         GOOGLE_PAGESPEED_API_KEY env = Some key -> JS.truthy key = true ->
         fetch env {| call_url := target; call_key := key;
                      call_strategy := strategy; call_category := None |}
         = Responded response ->
         ok response = true ->
         up_json response = Json (JsonValue data) ->
         JS.chain (AnalyzeRoute.lighthouseResult data)
           AnalyzeRoute.Lighthouse.audits = Some audits ->
         In id ["first-contentful-paint"; "largest-contentful-paint";
                "total-blocking-time"; "cumulative-layout-shift"] ->
         JSMap.get audits id = None ->
         status (snd (AnalyzeRoute.POST env (Json (JsonValue fields)) first))
         = 500%nat).
Proof.
  assert (Hthrows : forall audits id,
             JS.chain (AnalyzeRoute.lighthouseResult data)
               AnalyzeRoute.Lighthouse.audits = Some audits ->
             In id ["first-contentful-paint"; "largest-contentful-paint";
                    "total-blocking-time"; "cumulative-layout-shift"] ->
             JSMap.get audits id = None ->
             exists message, AnalyzeRoute.extract data = Rejected message).
  { intros audits id Haudits Hid Hget.
    destruct (AnalyzeRoute.extract data) as [r'|message] eqn:E;
      [|now exists message].
    exfalso.
    apply extract_fulfilled in E
      as (lh & cats & perf & audits' & a1 & a2 & a3 & a4 & a5 &
          H1 & _ & _ & H4 & G1 & G2 & G3 & G4 & _ & _).
    rewrite H1 in Haudits. simpl in Haudits.
    assert (audits' = audits) as -> by congruence.
    simpl in Hid.
    destruct Hid as [<-|[<-|[<-|[<-|[]]]]]; congruence. }
  refine (conj _ (conj _ (conj Hthrows _))).
  - cbv zeta. split; [reflexivity|]. intros id. split.
    + intros a v Ha Hv. unfold PageSpeedRoute.metric.
      rewrite Ha. simpl. now rewrite Hv.
    + intros Ha. unfold PageSpeedRoute.metric. now rewrite Ha.
  - intros H.
    apply extract_fulfilled in H
      as (lh & cats & perf & audits & a1 & a2 & a3 & a4 & a5 &
          H1 & _ & _ & H4 & G1 & G2 & G3 & G4 & _ & ->).
    exists audits, a1, a2, a3, a4. rewrite H1. simpl. tauto.
  - intros env fields target address key first strategy response audits id
      Hu Ht He Hte Hk Htk Hf Hok Hj Haudits Hid Hget.
    destruct (Hthrows audits id Haudits Hid Hget) as [message Hm].
    assert (Hs : snd (AnalyzeRoute.analyzePageSpeed env target strategy key)
                 = Rejected message).
    { unfold AnalyzeRoute.analyzePageSpeed. cbn [snd].
      now rewrite Hf, Hok, Hj. }
    unfold AnalyzeRoute.POST. rewrite Hu, He, Hk.
    cbn [JS.truthy_opt JS.nullish]. rewrite Ht, Hte, Htk. cbn [negb orb].
    destruct (AnalyzeRoute.analyzePageSpeed env target Mobile key)
      as [cm om] eqn:Fm.
    destruct (AnalyzeRoute.analyzePageSpeed env target Desktop key)
      as [cd od] eqn:Fd.
    cbn [snd].
    assert (Hr : exists e, Promise_all first om od = Rejected e).
    { destruct strategy; [rewrite Fm in Hs|rewrite Fd in Hs];
        cbn [snd] in Hs; subst; destruct first;
        [destruct od|destruct od|destruct om|destruct om];
        simpl; eauto. }
    destruct Hr as [e ->]. reflexivity.
Qed.

Lemma metric_display_values_witness :
  PageSpeedRoute.metric
    (PageSpeedRoute.audits_of Samples.Simple.payload)
    "first-contentful-paint" = "0.8 s"
  /\ PageSpeedRoute.metric
       (PageSpeedRoute.audits_of Samples.Simple.payload)
       "total-blocking-time" = "--"
  /\ (exists fcp,
         JSMap.get (Samples.Rich.metric_audits ++ Samples.Rich.other_audits)
           "first-contentful-paint" = Some fcp
         /\ AnalyzeRoute.Metrics.fcp
              (AnalyzeRoute.metrics Samples.Rich.result)
            = AnalyzeRoute.Audit.displayValue fcp)
  /\ exists message,
       AnalyzeRoute.extract Samples.Rich.without_fcp = Rejected message.
Proof.
  destruct (metric_display_values Samples.Simple.payload Samples.Rich.data
              Samples.Rich.result) as ((_ & Hsimple) & Hrich & _).
  destruct (metric_display_values Samples.Simple.payload
              Samples.Rich.without_fcp Samples.Rich.result)
    as (_ & _ & Hmissing & _).
  split.
  { destruct (Hsimple "first-contentful-paint") as [Hvalue _].
    eapply Hvalue; reflexivity. }
  split.
  { destruct (Hsimple "total-blocking-time") as [_ Hplaceholder].
    apply Hplaceholder. reflexivity. }
  split.
  - destruct (Hrich eq_refl)
      as (audits & fcp & lcp & tbt & cls & Ha & G1 & _ & _ & _ & M1 & _).
    injection Ha as <-. now exists fcp.
  - apply (Hmissing _ "first-contentful-paint" eq_refl).
    + simpl. tauto.
    + reflexivity.
Defined.

(** The claim C6 fails for the analyze route: without the
    first-contentful-paint audit nothing is returned, and the request is
    answered with status 500. *)
Lemma rich_metric_absent_counterexample :
  JSMap.get (tl Samples.Rich.metric_audits ++ Samples.Rich.other_audits)
    "first-contentful-paint" = None
  /\ AnalyzeRoute.extract Samples.Rich.without_fcp
     = Rejected (CannotRead "displayValue")
  /\ snd (AnalyzeRoute.POST (Samples.Rich.serving Samples.Rich.without_fcp)
            (Samples.request (Some "https://example.com")
               (Some "me@example.com"))
            Mobile)
     = {| status := 500;
          body := AnalyzeRoute.ErrorBody (CannotRead "displayValue") |}
  /\ ~ (forall data audits,
           JS.chain (AnalyzeRoute.lighthouseResult data)
             AnalyzeRoute.Lighthouse.audits = Some audits ->
           JSMap.get audits "first-contentful-paint" = None ->
           exists r,
             AnalyzeRoute.extract data = Fulfilled r
             /\ AnalyzeRoute.Metrics.fcp (AnalyzeRoute.metrics r)
                = Some "--").
Proof.
  split; [reflexivity|]. split; [reflexivity|]. split; [reflexivity|].
  intros H.
  destruct (H Samples.Rich.without_fcp _ eq_refl eq_refl) as (r & Hr & _).
  discriminate Hr.
Qed.
End MetricValues.

(** ** The request handlers *)

Section Handlers.
Import Http.

Lemma Promise_all_rejected {A : Type} (first : Strategy)
    (m d : Outcome A) :
  (exists e, m = Rejected e) \/ (exists e, d = Rejected e) ->
  exists e, Promise_all first m d = Rejected e.
Proof.
  intros [[e ->]|[e ->]]; [destruct d|destruct m]; destruct first;
    simpl; eauto.
Qed.

Lemma report_rejected (first : Strategy)
    (m d : Outcome (Body PageSpeedRoute.PageSpeedResponse)) :
  (exists e, m = Rejected e) \/ (exists e, d = Rejected e) ->
  exists e, PageSpeedRoute.report first m d = Rejected e.
Proof.
  intros H. destruct (Promise_all_rejected first m d H) as [e He].
  exists e. unfold PageSpeedRoute.report. now rewrite He.
Qed.

(** The pagespeed route answers 400 without an upstream call when the url
    is missing, empty or fails the test. *)
Lemma pagespeed_rejects (env : Env PageSpeedRoute.PageSpeedResponse)
    (fields : Fields) (first : Strategy) :
  JS.truthy_opt (url fields) = false
  \/ test_http (JS.nullish (url fields) "") = false ->
  PageSpeedRoute.POST env (Json (JsonValue fields)) first
  = ([], {| status := 400; body := PageSpeedRoute.ErrorBody InvalidUrl |}).
Proof.
  intros H. unfold PageSpeedRoute.POST.
  destruct H as [-> | ->]; [reflexivity|].
  now rewrite orb_true_r.
Qed.

(** The upstream calls of the pagespeed route. *)
Lemma pagespeed_calls (env : Env PageSpeedRoute.PageSpeedResponse)
    (request : Request) (first : Strategy) (call : Call) :
  In call (fst (PageSpeedRoute.POST env request first)) ->
  exists fields target key strategy,
    request = Json (JsonValue fields)
    /\ url fields = Some target
    /\ test_http target = true
    /\ GOOGLE_PAGESPEED_API_KEY env = Some key
    /\ JS.truthy key = true
    /\ call = {| call_url := target; call_key := key;
                 call_strategy := strategy;
                 call_category := Some "performance" |}
    /\ snd (PageSpeedRoute.POST env request first)
       = match PageSpeedRoute.report first
                 (snd (PageSpeedRoute.fetchPageSpeed env target Mobile))
                 (snd (PageSpeedRoute.fetchPageSpeed env target Desktop))
         with
         | Fulfilled (mobile, desktop) =>
             {| status := 200;
                body := PageSpeedRoute.ReportBody mobile desktop |}
         | Rejected message =>
             {| status := 500; body := PageSpeedRoute.ErrorBody message |}
         end.
Proof.
  unfold PageSpeedRoute.POST.
  destruct request as [text|[|fields]]; simpl; try tauto.
  destruct (url fields) as [target|] eqn:Hu; simpl; [|tauto].
  destruct (JS.truthy target) eqn:Ht; simpl; [|tauto].
  destruct (test_http target) eqn:Hh; simpl; [|tauto].
  unfold PageSpeedRoute.fetchPageSpeed.
  destruct (GOOGLE_PAGESPEED_API_KEY env) as [key|] eqn:Hk; simpl; [|tauto].
  destruct (JS.truthy key) eqn:Htk; simpl; [|tauto].
  intros [<-|[<-|[]]].
  - exists fields, target, key, Mobile. repeat split; auto.
  - exists fields, target, key, Desktop. repeat split; auto.
Qed.

(** The upstream calls of the analyze route. *)
Lemma analyze_calls (env : Env AnalyzeRoute.Data)
    (fields : Fields) (first : Strategy) (target address key : string) :
  url fields = Some target -> JS.truthy target = true ->
  email fields = Some address -> JS.truthy address = true ->
  GOOGLE_PAGESPEED_API_KEY env = Some key -> JS.truthy key = true ->
  AnalyzeRoute.POST env (Json (JsonValue fields)) first
  = ([ {| call_url := target; call_key := key; call_strategy := Mobile;
          call_category := None |};
       {| call_url := target; call_key := key; call_strategy := Desktop;
          call_category := None |} ],
     match Promise_all first
             (snd (AnalyzeRoute.analyzePageSpeed env target Mobile key))
             (snd (AnalyzeRoute.analyzePageSpeed env target Desktop key))
     with
     | Fulfilled (mobile, desktop) =>
         {| status := 200;
            body := AnalyzeRoute.ReportBody mobile desktop target address |}
     | Rejected message => AnalyzeRoute.caught message
     end).
Proof.
  intros Hu Ht He Hte Hk Htk. unfold AnalyzeRoute.POST.
  rewrite Hu, He, Hk. simpl. rewrite Ht, Hte, Htk. reflexivity.
Qed.

Lemma analyze_calls_made (env : Env AnalyzeRoute.Data)
    (request : Request) (first : Strategy) (call : Call) :
  In call (fst (AnalyzeRoute.POST env request first)) ->
  exists fields target address key,
    request = Json (JsonValue fields)
    /\ url fields = Some target /\ JS.truthy target = true
    /\ email fields = Some address /\ JS.truthy address = true
    /\ GOOGLE_PAGESPEED_API_KEY env = Some key /\ JS.truthy key = true
    /\ call = {| call_url := target; call_key := key;
                 call_strategy := call_strategy call;
                 call_category := None |}.
Proof.
  unfold AnalyzeRoute.POST.
  destruct request as [text|[|fields]]; simpl; try tauto.
  destruct (email fields) as [address|] eqn:He; simpl; [|tauto].
  destruct (JS.truthy address) eqn:Hte; simpl; [|tauto].
  destruct (url fields) as [target|] eqn:Hu; simpl; [|tauto].
  destruct (JS.truthy target) eqn:Ht; simpl; [|tauto].
  destruct (GOOGLE_PAGESPEED_API_KEY env) as [key|] eqn:Hk; simpl; [|tauto].
  destruct (JS.truthy key) eqn:Htk; simpl; [|tauto].
  intros [<-|[<-|[]]]; exists fields, target, address, key; simpl;
    repeat split; auto.
Qed.
End Handlers.

Section HandlerClaims.
Import Http.

(** C8.  If an upstream call that a request makes is answered with a
    non-success status, the request is answered with status 500 and an
    error body, whichever call settles first: no report is returned, for
    neither strategy. *)
Theorem upstream_failure_fails_request
    (envP : Env PageSpeedRoute.PageSpeedResponse)
    (envA : Env AnalyzeRoute.Data)
    (request : Request) (first : Strategy) (call : Call)
    (responseP : Upstream PageSpeedRoute.PageSpeedResponse)
    (responseA : Upstream AnalyzeRoute.Data) :
  (In call (fst (PageSpeedRoute.POST envP request first)) ->
   fetch envP call = Responded responseP ->
   ok responseP = false ->
   status (snd (PageSpeedRoute.POST envP request first)) = 500%nat
   /\ exists message,
        body (snd (PageSpeedRoute.POST envP request first))
        = PageSpeedRoute.ErrorBody message)
  /\ (In call (fst (AnalyzeRoute.POST envA request first)) ->
      fetch envA call = Responded responseA ->
      ok responseA = false ->
      status (snd (AnalyzeRoute.POST envA request first)) = 500%nat
      /\ exists message,
           body (snd (AnalyzeRoute.POST envA request first))
           = AnalyzeRoute.ErrorBody message).
Proof.
  split; intros Hin Hfetch Hok.
  - apply pagespeed_calls in Hin
      as (fields & target & key & strategy & -> & Hu & Hh & Hk & Htk
          & -> & ->).
    destruct (report_rejected first
                (snd (PageSpeedRoute.fetchPageSpeed envP target Mobile))
                (snd (PageSpeedRoute.fetchPageSpeed envP target Desktop)))
      as [e ->]; [|simpl; eauto].
    unfold PageSpeedRoute.fetchPageSpeed. rewrite Hk. simpl. rewrite Htk.
    simpl. destruct strategy; [left|right]; rewrite Hfetch, Hok; simpl;
      eauto.
  - apply analyze_calls_made in Hin
      as (fields & target & address & key & -> & Hu & Ht & He & Hte
          & Hk & Htk & Hcall).
    rewrite (analyze_calls envA fields first target address key)
      by assumption.
    cbn [snd].
    destruct (Promise_all_rejected first
                (snd (AnalyzeRoute.analyzePageSpeed envA target Mobile key))
                (snd (AnalyzeRoute.analyzePageSpeed envA target Desktop key)))
      as [e ->]; [|simpl; eauto].
    unfold AnalyzeRoute.analyzePageSpeed. cbn [snd].
    rewrite Hcall in Hfetch.
    destruct (call_strategy call); [left|right]; rewrite Hfetch, Hok; simpl;
      eauto.
Qed.

Lemma upstream_failure_fails_request_witness :
  status (snd (PageSpeedRoute.POST Samples.Simple.env
                 (Samples.request (Some "https://example.com") None)
                 Mobile)) = 500%nat
  /\ status (snd (AnalyzeRoute.POST Samples.Rich.env
                    (Samples.request (Some "https://example.com")
                       (Some "me@example.com"))
                    Mobile)) = 500%nat.
Proof.
  split.
  - apply (upstream_failure_fails_request Samples.Simple.env
             Samples.Rich.env
             (Samples.request (Some "https://example.com") None) Mobile
             {| call_url := "https://example.com"; call_key := "key";
                call_strategy := Desktop;
                call_category := Some "performance" |}
             {| up_status := 429; up_text := "quota";
                up_json := SyntaxError "Unexpected token" |}
             {| up_status := 429; up_text := "quota";
                up_json := SyntaxError "Unexpected token" |}).
    + simpl. tauto.
    + reflexivity.
    + reflexivity.
  - apply (upstream_failure_fails_request Samples.Simple.env
             Samples.Rich.env
             (Samples.request (Some "https://example.com")
                (Some "me@example.com")) Mobile
             {| call_url := "https://example.com"; call_key := "key";
                call_strategy := Desktop; call_category := None |}
             {| up_status := 429; up_text := "quota";
                up_json := SyntaxError "Unexpected token" |}
             {| up_status := 429; up_text := "quota";
                up_json := SyntaxError "Unexpected token" |}).
    + simpl. tauto.
    + reflexivity.
    + reflexivity.
Defined.

(** C7, as the code has it.  The pagespeed route answers 400 exactly when
    the body of the request is a JSON value other than [null] whose url is
    missing, empty or does not match [^https?://] without regard to case (as
    "ftp://x.com"), and it makes no upstream call then.  A body that is
    [null] or does not parse is answered with 500, also without an upstream
    call, by both routes.  The analyze route answers 400 exactly when the
    body is a JSON value other than [null] whose email or url is missing or
    empty, whether or not a key is configured, and it makes no upstream call
    then; it does not test the form of the url: with a key configured it
    makes both upstream calls for any non-empty url (a string of characters
    below 256). *)
Theorem invalid_url_rejected
    (envP : Env PageSpeedRoute.PageSpeedResponse)
    (envA : Env AnalyzeRoute.Data)
    (request : Request) (first : Strategy) :
  (status (snd (PageSpeedRoute.POST envP request first)) = 400%nat <->
   exists fields,
     request = Json (JsonValue fields)
     /\ (JS.truthy_opt (url fields) = false
         \/ test_http (JS.nullish (url fields) "") = false))
  /\ (status (snd (PageSpeedRoute.POST envP request first)) = 400%nat ->
      PageSpeedRoute.POST envP request first
      = ([], {| status := 400;
                body := PageSpeedRoute.ErrorBody InvalidUrl |}))
  /\ test_http "ftp://x.com" = false
  /\ (request = Json JsonNull \/ (exists text, request = SyntaxError text) ->
      fst (PageSpeedRoute.POST envP request first) = []
      /\ status (snd (PageSpeedRoute.POST envP request first)) = 500%nat
      /\ fst (AnalyzeRoute.POST envA request first) = []
      /\ status (snd (AnalyzeRoute.POST envA request first)) = 500%nat)
  /\ (status (snd (AnalyzeRoute.POST envA request first)) = 400%nat <->
      exists fields,
        request = Json (JsonValue fields)
        /\ (JS.truthy_opt (email fields) = false
            \/ JS.truthy_opt (url fields) = false))
  /\ (status (snd (AnalyzeRoute.POST envA request first)) = 400%nat ->
      AnalyzeRoute.POST envA request first
      = ([], {| status := 400; body := AnalyzeRoute.ErrorBody Required |}))
  /\ (forall fields target address key,
         request = Json (JsonValue fields) ->
         url fields = Some target -> JS.truthy target = true ->
         email fields = Some address -> JS.truthy address = true ->
         GOOGLE_PAGESPEED_API_KEY envA = Some key -> JS.truthy key = true ->
         fst (AnalyzeRoute.POST envA request first)
         = [ {| call_url := target; call_key := key;
                call_strategy := Mobile; call_category := None |};
             {| call_url := target; call_key := key;
                call_strategy := Desktop; call_category := None |} ]
         /\ status (snd (AnalyzeRoute.POST envA request first)) <> 400%nat).
Proof.
  assert (HP : status (snd (PageSpeedRoute.POST envP request first))
               = 400%nat ->
               exists fields,
                 request = Json (JsonValue fields)
                 /\ (JS.truthy_opt (url fields) = false
                     \/ test_http (JS.nullish (url fields) "") = false)).
  { unfold PageSpeedRoute.POST.
    destruct request as [text|[|fields]]; simpl;
      try (intros F; discriminate F).
    intros H. exists fields. split; [reflexivity|].
    destruct (JS.truthy_opt (url fields)); [|now left].
    destruct (test_http (JS.nullish (url fields) "")); [|now right].
    exfalso. simpl in H.
    destruct (PageSpeedRoute.fetchPageSpeed envP _ Mobile) as [cm om].
    destruct (PageSpeedRoute.fetchPageSpeed envP _ Desktop) as [cd od].
    simpl in H.
    destruct (PageSpeedRoute.report first om od) as [[m d]|message];
      discriminate H. }
  assert (HA : status (snd (AnalyzeRoute.POST envA request first))
               = 400%nat ->
               exists fields,
                 request = Json (JsonValue fields)
                 /\ (JS.truthy_opt (email fields) = false
                     \/ JS.truthy_opt (url fields) = false)).
  { unfold AnalyzeRoute.POST.
    destruct request as [text|[|fields]]; simpl;
      try (intros F; discriminate F).
    intros H. exists fields. split; [reflexivity|].
    destruct (JS.truthy_opt (email fields)); [|now left].
    destruct (JS.truthy_opt (url fields)); [|now right].
    exfalso. simpl in H.
    destruct (negb (JS.truthy_opt (GOOGLE_PAGESPEED_API_KEY envA)));
      [discriminate H|].
    simpl in H.
    destruct (Promise_all _ _ _) as [[m d]|message]; discriminate H. }
  refine (conj _ (conj _ (conj _ (conj _ (conj _ (conj _ _)))))).
  - split; [exact HP|].
    intros (fields & -> & H). now rewrite pagespeed_rejects.
  - intros H. destruct (HP H) as (fields & -> & Hu).
    now apply pagespeed_rejects.
  - reflexivity.
  - intros [-> |[text ->]]; repeat split.
  - split; [exact HA|].
    intros (fields & -> & H). unfold AnalyzeRoute.POST.
    destruct H as [-> | ->]; [reflexivity|now rewrite orb_true_r].
  - intros H. destruct (HA H) as (fields & -> & Hf).
    unfold AnalyzeRoute.POST.
    destruct Hf as [-> | ->]; [reflexivity|now rewrite orb_true_r].
  - intros fields target address key -> Hu Ht He Hte Hk Htk.
    rewrite (analyze_calls envA fields first target address key)
      by assumption.
    split; [reflexivity|]. cbn [snd].
    destruct (Promise_all _ _ _) as [[m d]|message]; simpl; discriminate.
Qed.

Lemma invalid_url_rejected_witness :
  PageSpeedRoute.POST (Samples.Simple.serving Samples.Simple.payload)
    (Samples.request (Some "ftp://x.com") None) Mobile
  = ([], {| status := 400; body := PageSpeedRoute.ErrorBody InvalidUrl |})
  /\ AnalyzeRoute.POST (Samples.Rich.serving Samples.Rich.data)
       (Samples.request (Some "ftp://x.com") None) Mobile
     = ([], {| status := 400; body := AnalyzeRoute.ErrorBody Required |})
  /\ List.length
       (fst (AnalyzeRoute.POST (Samples.Rich.serving Samples.Rich.data)
               (Samples.request (Some "ftp://x.com")
                  (Some "me@example.com")) Mobile)) = 2%nat
  /\ status
       (snd (PageSpeedRoute.POST
               (Samples.Simple.serving Samples.Simple.payload)
               (Json JsonNull) Mobile)) = 500%nat.
Proof.
  destruct (invalid_url_rejected
              (Samples.Simple.serving Samples.Simple.payload)
              (Samples.Rich.serving Samples.Rich.data)
              (Samples.request (Some "ftp://x.com") None) Mobile)
    as ([_ Hp] & Hp' & _ & _ & [_ Ha] & Ha' & _).
  destruct (invalid_url_rejected
              (Samples.Simple.serving Samples.Simple.payload)
              (Samples.Rich.serving Samples.Rich.data)
              (Samples.request (Some "ftp://x.com")
                 (Some "me@example.com")) Mobile)
    as (_ & _ & _ & _ & _ & _ & Hcalls).
  destruct (invalid_url_rejected
              (Samples.Simple.serving Samples.Simple.payload)
              (Samples.Rich.serving Samples.Rich.data)
              (Json JsonNull) Mobile)
    as (_ & _ & _ & Hnull & _).
  split.
  { apply Hp'. apply Hp.
    exists {| url := Some "ftp://x.com"; email := None |}.
    split; [reflexivity|right; reflexivity]. }
  split.
  { apply Ha'. apply Ha.
    exists {| url := Some "ftp://x.com"; email := None |}.
    split; [reflexivity|left; reflexivity]. }
  split.
  { destruct (Hcalls {| url := Some "ftp://x.com";
                        email := Some "me@example.com" |}
                "ftp://x.com" "me@example.com" "key"
                eq_refl eq_refl eq_refl eq_refl eq_refl eq_refl eq_refl)
      as [Hfst _].
    rewrite Hfst. reflexivity. }
  apply Hnull. left. reflexivity.
Defined.

(** The claim C7 fails for the analyze route, which sends "ftp://x.com"
    upstream and answers 200, and, read with regard to case, for the
    pagespeed route, which accepts "HTTP://x.com". *)
Lemma analyze_forwards_any_url_counterexample :
  test_http "ftp://x.com" = false
  /\ AnalyzeRoute.POST (Samples.Rich.serving Samples.Rich.data)
       (Samples.request (Some "ftp://x.com") (Some "me@example.com"))
       Mobile
     = ([ {| call_url := "ftp://x.com"; call_key := "key";
             call_strategy := Mobile; call_category := None |};
          {| call_url := "ftp://x.com"; call_key := "key";
             call_strategy := Desktop; call_category := None |} ],
        {| status := 200;
           body := AnalyzeRoute.ReportBody Samples.Rich.result
                     Samples.Rich.result "ftp://x.com" "me@example.com" |})
  /\ JS.startsWith "http://" "HTTP://x.com"
     || JS.startsWith "https://" "HTTP://x.com" = false
  /\ fst (PageSpeedRoute.POST
            (Samples.Simple.serving Samples.Simple.payload)
            (Samples.request (Some "HTTP://x.com") None) Mobile)
     = [ {| call_url := "HTTP://x.com"; call_key := "key";
            call_strategy := Mobile;
            call_category := Some "performance" |};
         {| call_url := "HTTP://x.com"; call_key := "key";
            call_strategy := Desktop;
            call_category := Some "performance" |} ]
  /\ ~ (forall env fields first,
           test_http (JS.nullish (url fields) "") = false ->
           fst (AnalyzeRoute.POST env (Json (JsonValue fields)) first) = []
           /\ status (snd (AnalyzeRoute.POST env (Json (JsonValue fields))
                             first)) = 400%nat).
Proof.
  split; [reflexivity|]. split; [vm_compute; reflexivity|].
  split; [reflexivity|]. split; [reflexivity|].
  intros H.
  destruct (H (Samples.Rich.serving Samples.Rich.data)
              {| url := Some "ftp://x.com";
                 email := Some "me@example.com" |} Mobile eq_refl)
    as [Hcalls _].
  discriminate Hcalls.
Qed.

(** C9, as the code has it.  The pagespeed route does not read the email:
    requests that differ only in it get the same upstream calls and the
    same response.  The analyze route requires the email: a request whose
    email is missing or empty is answered with 400 and no upstream call.
    For two non-empty emails it makes the same upstream calls, which carry
    the url, the key and the strategy but not the email, and answers with
    the same status and the same analysis results; but it returns the email
    in the body of a success response. *)
Theorem email_only_echoed
    (envP : Env PageSpeedRoute.PageSpeedResponse)
    (envA : Env AnalyzeRoute.Data)
    (target : option string) (e1 e2 : option string) (first : Strategy) :
  PageSpeedRoute.POST envP (Samples.request target e1) first
  = PageSpeedRoute.POST envP (Samples.request target e2) first
  /\ (JS.truthy_opt e1 = false ->
      AnalyzeRoute.POST envA (Samples.request target e1) first
      = ([], {| status := 400; body := AnalyzeRoute.ErrorBody Required |}))
  /\ (forall call,
         In call (fst (AnalyzeRoute.POST envA (Samples.request target e1)
                         first)) ->
         exists key,
           GOOGLE_PAGESPEED_API_KEY envA = Some key
           /\ call = {| call_url := JS.nullish target "";
                        call_key := key;
                        call_strategy := call_strategy call;
                        call_category := None |})
  /\ (JS.truthy_opt e1 = true -> JS.truthy_opt e2 = true ->
      fst (AnalyzeRoute.POST envA (Samples.request target e1) first)
      = fst (AnalyzeRoute.POST envA (Samples.request target e2) first)
      /\ status (snd (AnalyzeRoute.POST envA (Samples.request target e1)
                        first))
         = status (snd (AnalyzeRoute.POST envA (Samples.request target e2)
                          first))
      /\ match
           body (snd (AnalyzeRoute.POST envA (Samples.request target e1)
                        first)),
           body (snd (AnalyzeRoute.POST envA (Samples.request target e2)
                        first))
         with
         | AnalyzeRoute.ReportBody m1 d1 u1 a1,
           AnalyzeRoute.ReportBody m2 d2 u2 a2 =>
             m1 = m2 /\ d1 = d2 /\ u1 = u2
             /\ e1 = Some a1 /\ e2 = Some a2
         | AnalyzeRoute.ErrorBody m1, AnalyzeRoute.ErrorBody m2 => m1 = m2
         | _, _ => False
         end).
Proof.
  split; [reflexivity|]. split; [|split].
  - intros H. unfold Samples.request, AnalyzeRoute.POST. simpl.
    now rewrite H.
  - intros call Hin.
    apply analyze_calls_made in Hin
      as (fields & u & address & key & Hr & Hu & _ & _ & _ & Hk & _ & Hc).
    injection Hr as <-. simpl in Hu. subst target.
    exists key. split; [exact Hk|exact Hc].
  - intros H1 H2.
    destruct e1 as [a1|]; [|discriminate].
    destruct e2 as [a2|]; [|discriminate].
    simpl in H1, H2. unfold Samples.request, AnalyzeRoute.POST. simpl.
    rewrite H1, H2. simpl.
    destruct (JS.truthy_opt target); simpl; [|auto].
    destruct (JS.truthy_opt (GOOGLE_PAGESPEED_API_KEY envA)); simpl; [|auto].
    destruct (Promise_all _ _ _) as [[m d]|message]; simpl; auto 10.
Qed.

Lemma email_only_echoed_witness :
  fst (AnalyzeRoute.POST (Samples.Rich.serving Samples.Rich.data)
         (Samples.request (Some "https://example.com")
            (Some "me@example.com")) Mobile)
  = fst (AnalyzeRoute.POST (Samples.Rich.serving Samples.Rich.data)
           (Samples.request (Some "https://example.com")
              (Some "you@example.com")) Mobile)
  /\ status (snd (AnalyzeRoute.POST (Samples.Rich.serving Samples.Rich.data)
                    (Samples.request (Some "https://example.com")
                       (Some "me@example.com")) Mobile))
     = status (snd (AnalyzeRoute.POST
                      (Samples.Rich.serving Samples.Rich.data)
                      (Samples.request (Some "https://example.com")
                         (Some "you@example.com")) Mobile))
  /\ AnalyzeRoute.POST (Samples.Rich.serving Samples.Rich.data)
       (Samples.request (Some "https://example.com") (Some "")) Mobile
     = ([], {| status := 400; body := AnalyzeRoute.ErrorBody Required |}).
Proof.
  destruct (email_only_echoed
              (Samples.Simple.serving Samples.Simple.payload)
              (Samples.Rich.serving Samples.Rich.data)
              (Some "https://example.com")
              (Some "me@example.com") (Some "you@example.com") Mobile)
    as (_ & _ & _ & H).
  destruct (email_only_echoed
              (Samples.Simple.serving Samples.Simple.payload)
              (Samples.Rich.serving Samples.Rich.data)
              (Some "https://example.com")
              (Some "") (Some "you@example.com") Mobile)
    as (_ & Hempty & _).
  destruct (H eq_refl eq_refl) as (Hcalls & Hstatus & _).
  split; [exact Hcalls|]. split; [exact Hstatus|].
  apply Hempty. reflexivity.
Defined.

(** The claim C9 fails for the analyze route: the email is part of the
    success response, so two requests that differ only in it get different
    responses, and a request without it is refused. *)
Lemma analyze_returns_email_counterexample :
  snd (AnalyzeRoute.POST (Samples.Rich.serving Samples.Rich.data)
         (Samples.request (Some "https://example.com")
            (Some "me@example.com")) Mobile)
  = {| status := 200;
       body := AnalyzeRoute.ReportBody Samples.Rich.result
                 Samples.Rich.result "https://example.com"
                 "me@example.com" |}
  /\ snd (AnalyzeRoute.POST (Samples.Rich.serving Samples.Rich.data)
            (Samples.request (Some "https://example.com") (Some ""))
            Mobile)
     = {| status := 400; body := AnalyzeRoute.ErrorBody Required |}
  /\ ~ (forall env target e1 e2 first,
           snd (AnalyzeRoute.POST env (Samples.request target e1) first)
           = snd (AnalyzeRoute.POST env (Samples.request target e2) first)).
Proof.
  split; [vm_compute; reflexivity|]. split; [reflexivity|].
  intros H.
  specialize (H (Samples.Rich.serving Samples.Rich.data)
                (Some "https://example.com")
                (Some "me@example.com") (Some "you@example.com") Mobile).
  vm_compute in H. discriminate H.
Qed.
End HandlerClaims.

(** * Further properties *)

(** ** Regular expressions: the test decides the language *)

Section RegularExpressions.
Import RegExp.

Lemma append_empty (s1 s2 : string) :
  (s1 ++ s2)%string = "" -> s1 = "" /\ s2 = "".
Proof. destruct s1; [now split|discriminate]. Qed.

Lemma append_cons (s1 s2 : string) (c : ascii) (s : string) :
  (s1 ++ s2)%string = String c s ->
  (s1 = "" /\ s2 = String c s)
  \/ exists s1', s1 = String c s1' /\ s = (s1' ++ s2)%string.
Proof.
  destruct s1 as [|c' s1']; simpl.
  - intros ->. now left.
  - intros [= -> <-]. right. now exists s1'.
Qed.

Lemma append_assoc (s1 s2 s3 : string) :
  ((s1 ++ s2) ++ s3)%string = (s1 ++ s2 ++ s3)%string.
Proof. induction s1 as [|c s1 IH]; simpl; [reflexivity|now rewrite IH]. Qed.

Lemma nullable_matches (r : t) : nullable r = true <-> matches r "".
Proof.
  split.
  - induction r; simpl; try discriminate.
    + constructor.
    + intros H. apply andb_true_iff in H as [H1 H2].
      apply (matches_seq r1 r2 "" ""); auto.
    + intros H. apply orb_true_iff in H as [H|H];
        [apply matches_left|apply matches_right]; auto.
    + constructor.
  - intros H. remember EmptyString as s eqn:Hs.
    induction H; simpl; try reflexivity; try discriminate.
    + apply append_empty in Hs as [-> ->].
      now rewrite IHmatches1, IHmatches2.
    + now rewrite IHmatches.
    + rewrite IHmatches by assumption. apply orb_true_r.
Qed.

Lemma derive_sound (c : ascii) (r : t) (s : string) :
  matches (derive c r) s -> matches r (String c s).
Proof.
  revert s. induction r; simpl; intros s H.
  - inversion H.
  - inversion H.
  - destruct (accepts c) eqn:E; inversion H; subst. now constructor.
  - assert (Hseq : forall s, matches (Seq (derive c r1) r2) s ->
                             matches (Seq r1 r2) (String c s)).
    { intros s0 H0. inversion H0; subst.
      change (String c (s1 ++ s2)%string)
        with ((String c s1) ++ s2)%string.
      constructor; auto. }
    destruct (nullable r1) eqn:N; [|now apply Hseq].
    inversion H; subst; [now apply Hseq|].
    change (String c s) with ("" ++ String c s)%string.
    constructor; [now apply nullable_matches|auto].
  - inversion H; subst; [apply matches_left|apply matches_right]; auto.
  - inversion H; subst.
    change (String c (s1 ++ s2)%string) with ((String c s1) ++ s2)%string.
    constructor; auto.
Qed.

Lemma derive_complete (c : ascii) (r : t) (s : string) :
  matches r (String c s) -> matches (derive c r) s.
Proof.
  intros H. remember (String c s) as s0 eqn:Hs. revert s Hs.
  induction H; intros s0 Hs; simpl; try discriminate.
  - injection Hs as -> <-. rewrite H. constructor.
  - apply append_cons in Hs as [[-> ->]|(s1' & -> & ->)].
    + assert (N : nullable r1 = true) by now apply nullable_matches.
      rewrite N. apply matches_right. now apply IHmatches2.
    + assert (Hleft : matches (Seq (derive c r1) r2) (s1' ++ s2)%string)
        by (constructor; auto).
      destruct (nullable r1); [now apply matches_left|exact Hleft].
  - apply matches_left. auto.
  - apply matches_right. auto.
  - apply append_cons in Hs as [[-> ->]|(s1' & -> & ->)].
    + now apply IHmatches2.
    + constructor; auto.
Qed.

Lemma test_matches (r : t) (s : string) :
  test r s = true <-> matches r s.
Proof.
  revert r. induction s as [|c s IH]; intros r; simpl.
  - apply nullable_matches.
  - rewrite IH. split; [apply derive_sound|apply derive_complete].
Qed.

Lemma chr_matches (c : ascii) (s : string) :
  matches (Chr c) s <-> s = String c "".
Proof.
  unfold Chr. split.
  - intros H. inversion H as [|p c' Hc| | | | |]; subst.
    apply Ascii.eqb_eq in Hc. now subst.
  - intros ->. constructor. apply Ascii.eqb_refl.
Qed.

Lemma seq_matches (r1 r2 : t) (s : string) :
  matches (Seq r1 r2) s <->
  exists s1 s2, s = (s1 ++ s2)%string /\ matches r1 s1 /\ matches r2 s2.
Proof.
  split.
  - intros H. inversion H; subst. now exists s1, s2.
  - intros (s1 & s2 & -> & H1 & H2). now constructor.
Qed.
Lemma star_class (p : ascii -> bool) (s : string) :
  matches (Star (Class p)) s <-> all p s = true.
Proof.
  split.
  - intros H. remember (Star (Class p)) as r eqn:Hr.
    induction H; try discriminate; [reflexivity|].
    injection Hr as ->. inversion H; subst. simpl.
    match goal with Hp : p _ = true |- _ => rewrite Hp end.
    now apply IHmatches2.
  - induction s as [|c s IH]; simpl; intros H; [constructor|].
    apply andb_true_iff in H as [Hc Hs].
    change (String c s) with ((String c "") ++ s)%string.
    constructor; [now constructor|auto].
Qed.

Lemma plus_class (p : ascii -> bool) (s : string) :
  matches (Plus (Class p)) s <-> s <> "" /\ all p s = true.
Proof.
  unfold Plus. split.
  - intros H. apply seq_matches in H as (s1 & s2 & -> & H1 & H2).
    inversion H1; subst. apply star_class in H2. simpl.
    match goal with Hp : p _ = true |- _ => rewrite Hp end.
    rewrite H2. now split.
  - intros [Hne H]. destruct s as [|c s]; [contradiction|].
    simpl in H. apply andb_true_iff in H as [Hc Hs].
    change (String c s) with ((String c "") ++ s)%string.
    constructor; [now constructor|now apply star_class].
Qed.

End RegularExpressions.

(** ** The two tests of the form *)

Section FormTests.
Import RegExp.
Local Arguments Ascii.eqb : simpl never.
Local Arguments JS.lower_char : simpl never.

Lemma test_start_matches (r : t) (s : string) :
  test_start r s = true <->
  exists p rest, s = (p ++ rest)%string /\ matches r p.
Proof.
  unfold test_start. rewrite test_matches, seq_matches. split.
  - intros (p & rest & -> & Hp & _). now exists p, rest.
  - intros (p & rest & -> & Hp). exists p, rest.
    split; [reflexivity|]. split; [exact Hp|].
    apply star_class. clear. induction rest; simpl; auto.
Qed.

Lemma letter_matches (x : ascii) (s : string) :
  matches (Letter x) s <-> exists c, s = String c "" /\ JS.lower_char c = x.
Proof.
  unfold Letter. split.
  - intros H. inversion H as [|p c Hc| | | | |]; subst.
    apply Ascii.eqb_eq in Hc. now exists c.
  - intros (c & -> & <-). constructor. apply Ascii.eqb_refl.
Qed.

Lemma startsWith_prefix (p s : string) :
  JS.startsWith p s = true <-> exists rest, s = (p ++ rest)%string.
Proof.
  revert s. induction p as [|a p IH]; intros s; simpl.
  - split; [now exists s|reflexivity].
  - destruct s as [|b s]; [split; [discriminate|intros (r & [=])]|].
    rewrite andb_true_iff, Ascii.eqb_eq, IH. split.
    + intros [-> (rest & ->)]. now exists rest.
    + intros (rest & [= -> ->]). split; [reflexivity|now exists rest].
Qed.

Lemma toLowerCase_append (a b : string) :
  JS.toLowerCase (a ++ b)%string
  = (JS.toLowerCase a ++ JS.toLowerCase b)%string.
Proof. induction a as [|c a IH]; simpl; [reflexivity|now rewrite IH]. Qed.

Lemma toLowerCase_split (p' r' s : string) :
  JS.toLowerCase s = (p' ++ r')%string ->
  exists p r, s = (p ++ r)%string /\ JS.toLowerCase p = p'
              /\ JS.toLowerCase r = r'.
Proof.
  revert s. induction p' as [|c p' IH]; intros s; simpl.
  - intros H. now exists "", s.
  - destruct s as [|d s]; simpl; [discriminate|].
    intros [= Hd Hs]. destruct (IH s Hs) as (p & r & -> & Hp & Hr).
    exists (String d p), r. simpl. now rewrite Hd, Hp.
Qed.

(** Only the colon and the slash lower to themselves. *)
Lemma lower_char_colon (c : ascii) : JS.lower_char c = ":"%char -> c = ":"%char.
Proof.
  destruct c as [[] [] [] [] [] [] [] []]; vm_compute; congruence.
Qed.

Lemma lower_char_slash (c : ascii) : JS.lower_char c = "/"%char -> c = "/"%char.
Proof.
  destruct c as [[] [] [] [] [] [] [] []]; vm_compute; congruence.
Qed.

Lemma URL_REGEX_matches (p : string) :
  matches HomePage.URL_REGEX p <->
  JS.toLowerCase p = "http://" \/ JS.toLowerCase p = "https://".
Proof.
  unfold HomePage.URL_REGEX, Opt. split.
  - intros H.
    apply seq_matches in H as (s1 & r1 & -> & H1 & H).
    apply seq_matches in H as (s2 & r2 & -> & H2 & H).
    apply seq_matches in H as (s3 & r3 & -> & H3 & H).
    apply seq_matches in H as (s4 & r4 & -> & H4 & H).
    apply seq_matches in H as (s5 & r5 & -> & H5 & H).
    apply seq_matches in H as (s6 & r6 & -> & H6 & H).
    apply seq_matches in H as (s7 & s8 & -> & H7 & H8).
    apply letter_matches in H1 as (c1 & -> & L1).
    apply letter_matches in H2 as (c2 & -> & L2).
    apply letter_matches in H3 as (c3 & -> & L3).
    apply letter_matches in H4 as (c4 & -> & L4).
    apply chr_matches in H6 as ->. apply chr_matches in H7 as ->.
    apply chr_matches in H8 as ->.
    inversion H5 as [| | |? ? ? Hs|? ? ? He| |]; subst.
    + apply letter_matches in Hs as (c5 & -> & L5).
      right. simpl. now rewrite L1, L2, L3, L4, L5.
    + inversion He; subst. left. simpl. now rewrite L1, L2, L3, L4.
  - intros [H|H].
    + destruct p as [|c1 [|c2 [|c3 [|c4 [|c5 [|c6 [|c7 [|c8 p]]]]]]]];
        simpl in H; try discriminate.
      injection H as L1 L2 L3 L4 L5 L6 L7.
      apply lower_char_colon in L5 as ->.
      apply lower_char_slash in L6 as ->.
      apply lower_char_slash in L7 as ->.
      apply (matches_seq _ _ (String c1 "")); [apply letter_matches; eauto|].
      apply (matches_seq _ _ (String c2 "")); [apply letter_matches; eauto|].
      apply (matches_seq _ _ (String c3 "")); [apply letter_matches; eauto|].
      apply (matches_seq _ _ (String c4 "")); [apply letter_matches; eauto|].
      apply (matches_seq _ _ ""); [apply matches_right; constructor|].
      apply (matches_seq _ _ ":"); [now apply chr_matches|].
      apply (matches_seq _ _ "/"); now apply chr_matches.
    + destruct p as [|c1 [|c2 [|c3 [|c4 [|c5 [|c6 [|c7 [|c8 [|c9 p]]]]]]]]];
        simpl in H; try discriminate.
      injection H as L1 L2 L3 L4 L5 L6 L7 L8.
      apply lower_char_colon in L6 as ->.
      apply lower_char_slash in L7 as ->.
      apply lower_char_slash in L8 as ->.
      apply (matches_seq _ _ (String c1 "")); [apply letter_matches; eauto|].
      apply (matches_seq _ _ (String c2 "")); [apply letter_matches; eauto|].
      apply (matches_seq _ _ (String c3 "")); [apply letter_matches; eauto|].
      apply (matches_seq _ _ (String c4 "")); [apply letter_matches; eauto|].
      apply (matches_seq _ _ (String c5 ""));
        [apply matches_left; apply letter_matches; eauto|].
      apply (matches_seq _ _ ":"); [now apply chr_matches|].
      apply (matches_seq _ _ "/"); now apply chr_matches.
Qed.

Lemma test_http_scheme (s : string) :
  Http.test_http s = true <->
  exists scheme rest,
    s = (scheme ++ rest)%string
    /\ (JS.toLowerCase scheme = "http://"
        \/ JS.toLowerCase scheme = "https://").
Proof.
  unfold Http.test_http. rewrite orb_true_iff, !startsWith_prefix. split.
  - intros [(r & H)|(r & H)];
      apply toLowerCase_split in H as (p & r' & -> & Hp & _);
      exists p, r'; auto.
  - intros (p & r & -> & [H|H]); rewrite toLowerCase_append, H;
      [left|right]; eauto.
Qed.
End FormTests.

Section FormTestProperties.

(** X1.  The email test accepts exactly the strings made of a local part, an at
    sign, a domain, a dot and a last part, the three parts non-empty and free
    of white space and of further at signs. *)
Theorem email_test_accepts (s : string) :
  RegExp.test HomePage.EMAIL_REGEX s = true <->
  exists local domain last,
    s = (local ++ "@" ++ domain ++ "." ++ last)%string
    /\ local <> "" /\ domain <> "" /\ last <> ""
    /\ RegExp.all HomePage.plain local = true
    /\ RegExp.all HomePage.plain domain = true
    /\ RegExp.all HomePage.plain last = true.
Proof.
  rewrite test_matches. unfold HomePage.EMAIL_REGEX. split.
  - intros H.
    apply seq_matches in H as (l & r1 & -> & Hl & H).
    apply seq_matches in H as (a & r2 & -> & Ha & H).
    apply seq_matches in H as (d & r3 & -> & Hd & H).
    apply seq_matches in H as (o & t & -> & Ho & Ht).
    apply chr_matches in Ha as ->. apply chr_matches in Ho as ->.
    apply plus_class in Hl as [? ?]. apply plus_class in Hd as [? ?].
    apply plus_class in Ht as [? ?].
    exists l, d, t. auto 10.
  - intros (l & d & t & -> & Hl & Hd & Ht & Al & Ad & At).
    apply RegExp.matches_seq; [now apply plus_class|].
    apply RegExp.matches_seq; [now apply chr_matches|].
    apply RegExp.matches_seq; [now apply plus_class|].
    apply RegExp.matches_seq; [now apply chr_matches|now apply plus_class].
Qed.

Lemma email_test_accepts_witness :
  RegExp.test HomePage.EMAIL_REGEX "me@example.com" = true
  /\ exists local domain last,
       "a@b.c.d" = (local ++ "@" ++ domain ++ "." ++ last)%string
       /\ local <> "" /\ domain <> "".
Proof.
  split.
  - apply (email_test_accepts "me@example.com").
    exists "me", "example", "com". repeat split; discriminate.
  - destruct (proj1 (email_test_accepts "a@b.c.d") eq_refl)
      as (l & d & t & H & Hl & Hd & _).
    now exists l, d, t.
Defined.

(** X2.  The url test of the page and of the pagespeed route is the regular
    expression [/^https?:\/\//i]: it accepts exactly the strings that begin
    with "http://" or "https://", the letters in either case. *)
Theorem url_test_accepts (s : string) :
  Http.test_http s = RegExp.test_start HomePage.URL_REGEX s
  /\ (Http.test_http s = true <->
      exists scheme rest,
        s = (scheme ++ rest)%string
        /\ (JS.toLowerCase scheme = "http://"
            \/ JS.toLowerCase scheme = "https://")).
Proof.
  split; [|apply test_http_scheme].
  apply Bool.eq_iff_eq_true.
  rewrite test_http_scheme, test_start_matches.
  split; intros (p & rest & -> & H); exists p, rest;
    (split; [reflexivity|]); now apply URL_REGEX_matches.
Qed.

Lemma url_test_accepts_witness :
  Http.test_http "HTTPS://Example.com/a b" = true.
Proof.
  apply (url_test_accepts "HTTPS://Example.com/a b").
  exists "HTTPS://", "Example.com/a b". split; [reflexivity|].
  right. reflexivity.
Defined.
End FormTestProperties.

(** ** More on the savings estimate *)

Section SavingsProperties.
Import Page.
Local Arguments Ascii.eqb : simpl never.

Lemma digits_value_nonnegative (s : string) (acc : Z) :
  JS.all_digits s = true -> (0 <= acc)%Z -> (0 <= JS.digits_value acc s)%Z.
Proof.
  revert acc. induction s as [|c s IH]; intros acc;
    cbn [JS.all_digits JS.digits_value]; [auto|].
  intros H Hacc. apply andb_true_iff in H as [Hc Hs].
  apply IH; [exact Hs|].
  unfold JS.is_digit in Hc. apply andb_true_iff in Hc as [Hlo _].
  apply Nat.leb_le in Hlo. lia.
Qed.

Lemma all_digits_append (a b : string) :
  JS.all_digits (a ++ b)%string = JS.all_digits a && JS.all_digits b.
Proof.
  induction a as [|c a IH]; simpl; [reflexivity|].
  now rewrite IH, andb_assoc.
Qed.

Lemma literal_nonnegative (m : string) (value : Q) :
  JS.literal m = Some value -> 0 <= value.
Proof.
  unfold JS.literal. destruct (JS.split_dot m) as [i [f|]].
  - destruct (JS.all_digits i) eqn:Hi; simpl; [|discriminate].
    destruct (JS.all_digits f) eqn:Hf; simpl; [|discriminate].
    destruct (JS.truthy i || JS.truthy f); [|discriminate].
    intros [= <-]. unfold Qdiv. apply Qmult_le_0_compat.
    + change 0 with (inject_Z 0). rewrite <- Zle_Qle.
      apply digits_value_nonnegative; [|lia].
      now rewrite all_digits_append, Hi, Hf.
    + apply Qinv_le_0_compat.
      change 0 with (inject_Z 0). rewrite <- Zle_Qle.
      apply Z.pow_nonneg. lia.
  - destruct (JS.all_digits i) eqn:Hi; simpl; [|discriminate].
    destruct (JS.truthy i); [|discriminate].
    intros [= <-]. change 0 with (inject_Z 0). rewrite <- Zle_Qle.
    apply digits_value_nonnegative; [exact Hi|lia].
Qed.

Lemma leq_zero_Num (r : Q) : 0 <= r -> JS.leq (JS.Num 0) (JS.Num r) = true.
Proof. intros H. simpl. apply negb_true_iff. now apply gt_false. Qed.

Lemma leq_zero_rounded (q : Q) :
  0 <= q -> JS.leq (JS.Num 0) (JS.rounded q) = true.
Proof.
  intros H. destruct (rounded_nonneg q H) as [(r & -> & Hr)| ->];
    [now apply leq_zero_Num|reflexivity].
Qed.

Lemma Number_nonnegative (m : string) (value : Q) :
  JS.Number m = JS.Num value -> 0 <= value.
Proof.
  unfold JS.Number. destruct (JS.literal m) as [q|] eqn:E; [|discriminate].
  apply literal_nonnegative in E. intros H.
  pose proof (leq_zero_rounded q E) as Hle. rewrite H in Hle.
  simpl in Hle. apply negb_true_iff in Hle. now apply gt_false in Hle.
Qed.

(** X3.  An estimate read from the savings text is never negative: a sign before
    the number is not part of it.  Only a numeric [savingsMs] can make the
    estimate negative. *)
Theorem savings_text_estimate_nonnegative (item : Recommendation) :
  savingsMs item = None -> JS.leq (JS.Num 0) (getSavingsMs item) = true.
Proof.
  intros Hms. unfold getSavingsMs. rewrite Hms.
  destruct (negb (JS.truthy_opt (savings item))); [reflexivity|].
  cbv zeta.
  destruct (JS.match_number _) as [m|]; [|reflexivity].
  destruct (JS.Number m) as [|p|value] eqn:Hv; try reflexivity.
  apply Number_nonnegative in Hv.
  destruct (JS.includes "ms" _); [now apply leq_zero_Num|].
  destruct (JS.includes "s" _); [|now apply leq_zero_Num].
  unfold JS.times.
  destruct (rounded_nonneg value Hv) as [(d & -> & Hd)| ->];
    [|reflexivity].
  apply leq_zero_rounded.
  apply Qmult_le_0_compat; [exact Hd|discriminate].
Qed.

Lemma savings_text_estimate_nonnegative_witness :
  JS.leq (JS.Num 0)
    (getSavingsMs {| title := "Fonts"; description := None;
                     savings := Some "-1.5 s"; savingsMs := None |}) = true
  /\ getSavingsMs {| title := "Fonts"; description := None;
                     savings := Some "-1.5 s"; savingsMs := None |}
     = JS.Num 1500.
Proof.
  split.
  - apply (savings_text_estimate_nonnegative
             {| title := "Fonts"; description := None;
                savings := Some "-1.5 s"; savingsMs := None |}).
    reflexivity.
  - vm_compute. reflexivity.
Defined.

Lemma lower_char_idempotent (c : ascii) :
  JS.lower_char (JS.lower_char c) = JS.lower_char c.
Proof. destruct c as [[] [] [] [] [] [] [] []]; reflexivity. Qed.

Lemma lower_char_comma (c : ascii) :
  Ascii.eqb (JS.lower_char c) "," = Ascii.eqb c ",".
Proof. destruct c as [[] [] [] [] [] [] [] []]; reflexivity. Qed.

Lemma toLowerCase_idempotent (s : string) :
  JS.toLowerCase (JS.toLowerCase s) = JS.toLowerCase s.
Proof.
  induction s as [|c s IH]; simpl; [reflexivity|].
  now rewrite lower_char_idempotent, IH.
Qed.

Lemma replace_comma_toLowerCase (s : string) :
  JS.replace_comma (JS.toLowerCase s) = JS.toLowerCase (JS.replace_comma s).
Proof.
  induction s as [|c s IH]; simpl; [reflexivity|].
  rewrite lower_char_comma. destruct (Ascii.eqb c ","); simpl.
  - reflexivity.
  - now rewrite IH.
Qed.

Lemma normalize_toLowerCase (s : string) :
  normalize (JS.toLowerCase s) = normalize s.
Proof.
  unfold normalize.
  now rewrite replace_comma_toLowerCase, toLowerCase_idempotent.
Qed.

(** X4.  The savings text is read without regard to the case of its letters: two
    items without a numeric [savingsMs] whose texts differ only in case get
    the same estimate. *)
Theorem savings_text_case_insensitive (a b : Recommendation) :
  savingsMs a = None -> savingsMs b = None ->
  option_map JS.toLowerCase (savings a)
  = option_map JS.toLowerCase (savings b) ->
  getSavingsMs a = getSavingsMs b.
Proof.
  intros Ha Hb H.
  assert (Hlow : forall item, savingsMs item = None ->
             getSavingsMs item
             = getSavingsMs
                 {| title := title item; description := description item;
                    savings := option_map JS.toLowerCase (savings item);
                    savingsMs := None |}).
  { intros item Hms. unfold getSavingsMs. rewrite Hms. simpl.
    destruct (savings item) as [s|]; simpl; [|reflexivity].
    rewrite normalize_toLowerCase. now destruct s. }
  rewrite (Hlow a Ha), (Hlow b Hb), H.
  unfold getSavingsMs. simpl. reflexivity.
Qed.

Lemma savings_text_case_insensitive_witness :
  getSavingsMs {| title := "Fonts"; description := None;
                  savings := Some "Save 300 MS"; savingsMs := None |}
  = getSavingsMs {| title := "Images"; description := Some "x";
                    savings := Some "save 300 ms"; savingsMs := None |}.
Proof.
  apply (savings_text_case_insensitive
           {| title := "Fonts"; description := None;
              savings := Some "Save 300 MS"; savingsMs := None |}
           {| title := "Images"; description := Some "x";
              savings := Some "save 300 ms"; savingsMs := None |});
    reflexivity.
Defined.
End SavingsProperties.

(** ** The first elements of a sorted list *)

Section TopOfSort.
Context {A : Type} (key : A -> Q).

Lemma descending_append (l1 l2 : list A) :
  JSArray.descending key (l1 ++ l2) ->
  forall x y, In x l1 -> In y l2 -> key y <= key x.
Proof.
  unfold JSArray.descending. induction l1 as [|a l1 IH]; simpl.
  - intros _ x y [].
  - intros H x y [<-|Hx] Hy.
    + apply StronglySorted_inv in H as [_ H].
      rewrite Forall_forall in H. apply H. apply in_or_app. now right.
    + apply StronglySorted_inv in H as [H _]. now apply IH.
Qed.

(** What [sort] followed by [slice(0, n)] leaves out is no larger than what
    it keeps, and something is left out only when [n] elements are kept. *)
Lemma sort_slice_top (n : nat) (l : list A) :
  let sorted := JSArray.sort (fun a b => key b - key a) l in
  Permutation (JSArray.slice0 n sorted ++ skipn n sorted) l
  /\ (forall x y, In x (JSArray.slice0 n sorted) -> In y (skipn n sorted) ->
                  key y <= key x)
  /\ (skipn n sorted <> [] -> List.length (JSArray.slice0 n sorted) = n)
  /\ List.length (JSArray.slice0 n sorted) = Nat.min n (List.length l).
Proof.
  cbv zeta. unfold JSArray.slice0.
  set (sorted := JSArray.sort (fun a b => key b - key a) l).
  assert (Hperm : Permutation sorted l) by apply sort_perm.
  split; [now rewrite firstn_skipn|]. split.
  - apply descending_append. rewrite firstn_skipn.
    apply sort_descending.
  - split.
    + intros Hrest. rewrite length_firstn. apply Nat.min_l.
      destruct (Nat.le_gt_cases n (List.length sorted)) as [Hle|Hgt];
        [exact Hle|].
      exfalso. apply Hrest. apply skipn_all2. lia.
    + rewrite length_firstn. now rewrite (Permutation_length Hperm).
Qed.

(** Elements of equal keys are left in their order. *)
Lemma sort_equal_keys (l : list A) :
  (forall x y, In x l -> In y l -> key x == key y) ->
  JSArray.sort (fun a b => key b - key a) l = l.
Proof.
  induction l as [|x l IH]; intros H; [reflexivity|].
  cbn [JSArray.sort fold_right].
  fold (JSArray.sort (fun a b => key b - key a) l).
  rewrite IH by (intros; apply H; now right).
  destruct l as [|y l]; [reflexivity|]. cbn [JSArray.sort_insert].
  assert (E : JS.gt (key y - key x) 0 = false).
  { apply not_gt_difference. rewrite (H y x); [apply Qle_refl| |];
      simpl; tauto. }
  now rewrite E.
Qed.
End TopOfSort.

(** ** More on the merger *)

Section MergerProperties.
Import Page.

Lemma get_of_entry {V : Type} (m : JSMap.t V) (k : string) (v : V) :
  NoDup (JSMap.keys m) -> In (k, v) m -> JSMap.get m k = Some v.
Proof.
  induction m as [|[k' v'] m IH]; simpl; [tauto|].
  intros Hnd [[= -> ->]|Hin].
  - now rewrite String.eqb_refl.
  - apply NoDup_cons_iff in Hnd as [Hout Hnd].
    destruct (String.eqb_spec k k') as [->|_]; [|now apply IH].
    exfalso. apply Hout. apply in_map_iff. now exists (k', v).
Qed.

Lemma byTitle_of_maximum (items : Recommendations) (k : string) :
  match JSMap.get (byTitle_of items) k with
  | Some v => title v = k /\ In v items /\
              forall x, In x items -> title x = k ->
                        JS.leq (getSavingsMs x) (getSavingsMs v) = true
  | None => forall x, In x items -> title x <> k
  end.
Proof.
  exact (fold_merge_maximum items [] JSMap.empty
           (fun _ x (F : In x []) => match F with end) k).
Qed.

Lemma stored_value (items : Recommendations) (v : Recommendation) :
  In v (JSMap.values (byTitle_of items)) ->
  JSMap.get (byTitle_of items) (title v) = Some v.
Proof.
  intros H. apply in_map_iff in H as ([k v'] & [= ->] & Hin). simpl in *.
  destruct (byTitle_of_keyed items) as [Hnd Hk].
  rewrite Forall_forall in Hk. specialize (Hk _ Hin). simpl in Hk.
  rewrite Hk. now apply get_of_entry.
Qed.

Lemma stored_best (items : Recommendations) (y : Recommendation) :
  In y items ->
  exists v, In v (JSMap.values (byTitle_of items))
            /\ title v = title y
            /\ JS.leq (getSavingsMs y) (getSavingsMs v) = true.
Proof.
  intros Hy. pose proof (byTitle_of_maximum items (title y)) as M.
  destruct (JSMap.get (byTitle_of items) (title y)) as [v|] eqn:G.
  - destruct M as (Ht & _ & Hmax). exists v.
    split; [|split; [exact Ht|now apply Hmax]].
    apply in_map_iff. exists (title y, v). split; [reflexivity|].
    now apply get_present.
  - exfalso. now apply (M y Hy).
Qed.

Lemma stored_titles (items : Recommendations) (k : string) :
  In k (JSMap.keys (byTitle_of items)) <-> In k (map title items).
Proof.
  pose proof (byTitle_of_maximum items k) as M. split.
  - intros Hk. destruct (JSMap.get (byTitle_of items) k) as [v|] eqn:G.
    + destruct M as (Ht & Hin & _). apply in_map_iff. now exists v.
    + apply get_absent in G. contradiction.
  - intros Hk. apply in_map_iff in Hk as (x & Hx & Hin).
    destruct (JSMap.get (byTitle_of items) k) as [v|] eqn:G.
    + apply get_present in G. apply in_map_iff. now exists (k, v).
    + exfalso. now apply (M x Hin).
Qed.

(** X5.  Every item that the merger returns is one of the items it was given,
    and no given item with the same title has greater estimated savings. *)
Theorem merged_items_are_best (mobile desktop : Recommendations)
    (x : Recommendation) :
  In x (mergeRecommendations mobile desktop) ->
  In x (mobile ++ desktop)
  /\ forall y, In y (mobile ++ desktop) -> title y = title x ->
               JS.leq (getSavingsMs y) (getSavingsMs x) = true.
Proof.
  unfold mergeRecommendations. intros H.
  apply slice0_In in H.
  apply (Permutation_in _ (sort_perm _ _)) in H.
  apply stored_value in H.
  pose proof (byTitle_of_maximum (mobile ++ desktop) (title x)) as M.
  rewrite H in M. tauto.
Qed.

Lemma merged_items_are_best_witness :
  let item t ms := {| title := t; description := None; savings := None;
                      savingsMs := Some ms |} in
  In (item "A" 2000) ([item "A" 2000; item "B" 500]
                        ++ [item "A" 1000; item "C" 1500])
  /\ JS.leq (getSavingsMs (item "A" 1000)) (getSavingsMs (item "A" 2000))
     = true.
Proof.
  cbv zeta.
  destruct (merged_items_are_best
              [ {| title := "A"; description := None; savings := None;
                   savingsMs := Some 2000 |};
                {| title := "B"; description := None; savings := None;
                   savingsMs := Some 500 |} ]
              [ {| title := "A"; description := None; savings := None;
                   savingsMs := Some 1000 |};
                {| title := "C"; description := None; savings := None;
                   savingsMs := Some 1500 |} ]
              {| title := "A"; description := None; savings := None;
                 savingsMs := Some 2000 |}) as [Hin Hmax].
  - vm_compute. tauto.
  - split; [exact Hin|]. apply Hmax; [simpl; tauto|reflexivity].
Defined.

(** X6.  The merger returns one item for each distinct title, up to five. *)
Theorem merged_length (mobile desktop : Recommendations) :
  List.length (mergeRecommendations mobile desktop)
  = Nat.min 5
      (List.length (nodup string_dec (map title (mobile ++ desktop)))).
Proof.
  unfold mergeRecommendations.
  destruct (sort_slice_top_numbers getSavingsMs getSavingsMs_number 5
              (JSMap.values (byTitle_of (mobile ++ desktop))))
    as (_ & _ & _ & ->).
  f_equal. unfold JSMap.values. rewrite length_map.
  rewrite <- (length_map fst). fold (JSMap.keys (byTitle_of (mobile ++ desktop))).
  apply Permutation_length, NoDup_Permutation.
  - apply byTitle_of_keyed.
  - apply NoDup_nodup.
  - intros k. rewrite stored_titles, nodup_In. reflexivity.
Qed.

(** X7.  A title of the input is missing from the result only when the result
    is full, with five items that each save at least as much; otherwise the
    result has an item of that title that saves at least as much. *)
Theorem merged_drops_only_smaller (mobile desktop : Recommendations)
    (y : Recommendation) :
  In y (mobile ++ desktop) ->
  (exists x, In x (mergeRecommendations mobile desktop)
             /\ title x = title y
             /\ JS.leq (getSavingsMs y) (getSavingsMs x) = true)
  \/ (List.length (mergeRecommendations mobile desktop) = 5%nat
      /\ forall x, In x (mergeRecommendations mobile desktop) ->
                   JS.leq (getSavingsMs y) (getSavingsMs x) = true).
Proof.
  intros Hy. unfold mergeRecommendations.
  destruct (stored_best _ _ Hy) as (v & Hv & Ht & Hle).
  destruct (sort_slice_top_numbers getSavingsMs getSavingsMs_number 5
              (JSMap.values (byTitle_of (mobile ++ desktop))))
    as (Hperm & Htop & Hfull & _).
  apply (Permutation_in _ (Permutation_sym Hperm)) in Hv.
  apply in_app_or in Hv as [Hkept|Hrest].
  - left. now exists v.
  - right. split.
    + apply Hfull. intros E. rewrite E in Hrest. exact Hrest.
    + intros x Hx.
      apply leq_transitive with (getSavingsMs v); [exact Hle|].
      now apply Htop.
Qed.

Lemma merged_drops_only_smaller_witness :
  let item t ms := {| title := t; description := None; savings := None;
                      savingsMs := Some ms |} in
  let mobile := [item "A" 600; item "B" 500; item "C" 400] in
  let desktop := [item "D" 300; item "E" 200; item "F" 100] in
  (exists x, In x (mergeRecommendations mobile desktop)
             /\ title x = "F"
             /\ JS.leq (getSavingsMs (item "F" 100)) (getSavingsMs x) = true)
  \/ (List.length (mergeRecommendations mobile desktop) = 5%nat
      /\ forall x, In x (mergeRecommendations mobile desktop) ->
                   JS.leq (getSavingsMs (item "F" 100)) (getSavingsMs x)
                   = true).
Proof.
  cbv zeta.
  apply (merged_drops_only_smaller
           [ {| title := "A"; description := None; savings := None;
                savingsMs := Some 600 |};
             {| title := "B"; description := None; savings := None;
                savingsMs := Some 500 |};
             {| title := "C"; description := None; savings := None;
                savingsMs := Some 400 |} ]
           [ {| title := "D"; description := None; savings := None;
                savingsMs := Some 300 |};
             {| title := "E"; description := None; savings := None;
                savingsMs := Some 200 |};
             {| title := "F"; description := None; savings := None;
                savingsMs := Some 100 |} ]
           {| title := "F"; description := None; savings := None;
              savingsMs := Some 100 |}).
  simpl. tauto.
Defined.
End MergerProperties.

Section MergerOrder.
Import Page.

Lemma set_absent {V : Type} (m : JSMap.t V) (k : string) (v : V) :
  JSMap.get m k = None -> JSMap.set m k v = m ++ [(k, v)].
Proof.
  induction m as [|[k' v'] m IH]; simpl; [reflexivity|].
  destruct (String.eqb_spec k k'); [discriminate|].
  intros H. now rewrite IH.
Qed.

Lemma fold_absorbs (items extra : Recommendations) :
  incl extra items ->
  fold_left merge_item extra (byTitle_of items) = byTitle_of items.
Proof.
  induction extra as [|x extra IH]; intros Hincl; simpl; [reflexivity|].
  assert (Hx : In x items) by (apply Hincl; now left).
  assert (E : merge_item (byTitle_of items) x = byTitle_of items).
  { unfold merge_item.
    pose proof (byTitle_of_maximum items (title x)) as M.
    destruct (JSMap.get (byTitle_of items) (title x)) as [v|].
    - destruct M as (_ & _ & Hmax).
      assert (G : JS.greater (getSavingsMs x) (getSavingsMs v) = false).
      { apply negb_true_iff.
        rewrite <- leq_not_greater by apply getSavingsMs_number.
        now apply Hmax. }
      now rewrite G.
    - exfalso. now apply (M x Hx). }
  rewrite E. apply IH. intros y Hy. apply Hincl. now right.
Qed.

(** X8.  Items that are given a second time change nothing: merging a list with
    items taken from it gives what the list gives alone, so a list merged
    with itself gives its own merge. *)
Theorem merge_absorbs_repeats (mobile desktop : Recommendations) :
  incl desktop mobile ->
  mergeRecommendations mobile desktop = mergeRecommendations mobile [].
Proof.
  intros Hincl. unfold mergeRecommendations, byTitle_of.
  rewrite app_nil_r, fold_left_app.
  fold (byTitle_of mobile). now rewrite fold_absorbs.
Qed.

Lemma merge_absorbs_repeats_witness :
  let items := [ {| title := "A"; description := None;
                    savings := Some "1.2 s"; savingsMs := None |};
                 {| title := "B"; description := None;
                    savings := None; savingsMs := Some 500 |};
                 {| title := "A"; description := None;
                    savings := Some "2 s"; savingsMs := None |} ] in
  mergeRecommendations items items = mergeRecommendations items [].
Proof.
  cbv zeta.
  apply (merge_absorbs_repeats
           [ {| title := "A"; description := None;
                savings := Some "1.2 s"; savingsMs := None |};
             {| title := "B"; description := None;
                savings := None; savingsMs := Some 500 |};
             {| title := "A"; description := None;
                savings := Some "2 s"; savingsMs := None |} ]).
  intros x Hx. exact Hx.
Defined.

Lemma seen_title (seen : list string) (x : Recommendation) :
  existsb (String.eqb (title x)) seen = true <-> In (title x) seen.
Proof.
  rewrite existsb_exists. split.
  - intros (k & Hk & E). apply String.eqb_eq in E. now subst.
  - intros H. exists (title x). split; [exact H|apply String.eqb_refl].
Qed.

Lemma first_of_title_seen (items : Recommendations) (seen seen' : list string) :
  (forall k, In k seen <-> In k seen') ->
  HomePage.first_of_title seen items = HomePage.first_of_title seen' items.
Proof.
  revert seen seen'. induction items as [|x items IH]; intros seen seen' H;
    simpl; [reflexivity|].
  assert (E : existsb (String.eqb (title x)) seen
              = existsb (String.eqb (title x)) seen').
  { apply Bool.eq_iff_eq_true. now rewrite !seen_title. }
  rewrite E. destruct (existsb _ seen'); [now apply IH|].
  f_equal. apply IH. intros k. simpl. now rewrite H.
Qed.

Lemma first_of_title_In (items : Recommendations) (seen : list string)
    (x : Recommendation) :
  In x (HomePage.first_of_title seen items) -> In x items.
Proof.
  revert seen. induction items as [|y items IH]; intros seen; simpl; [tauto|].
  destruct (existsb _ seen); simpl.
  - intros H. right. now apply (IH seen).
  - intros [->|H]; [now left|right; now apply (IH _ H)].
Qed.

Lemma fold_merge_equal_savings (items : Recommendations)
    (m : JSMap.t Recommendation) :
  (forall a b, In a (JSMap.values m ++ items) ->
               In b (JSMap.values m ++ items) ->
               JS.greater (getSavingsMs a) (getSavingsMs b) = false) ->
  JSMap.values (fold_left merge_item items m)
  = JSMap.values m ++ HomePage.first_of_title (JSMap.keys m) items.
Proof.
  revert m. induction items as [|x items IH]; intros m Heq; simpl.
  - now rewrite app_nil_r.
  - unfold merge_item at 2.
    destruct (JSMap.get m (title x)) as [existing|] eqn:G.
    + assert (Hseen : existsb (String.eqb (title x)) (JSMap.keys m) = true).
      { apply seen_title. apply get_present in G.
        apply in_map_iff. now exists (title x, existing). }
      assert (Hgt : JS.greater (getSavingsMs x) (getSavingsMs existing)
                    = false).
      { apply Heq.
        - apply in_or_app. right. now left.
        - apply in_or_app. left. apply get_present in G.
          apply in_map_iff. now exists (title x, existing). }
      rewrite Hgt, Hseen. apply IH.
      intros a b Ha Hb. apply Heq.
      * apply in_app_or in Ha as [Ha|Ha]; apply in_or_app;
          [now left|right; now right].
      * apply in_app_or in Hb as [Hb|Hb]; apply in_or_app;
          [now left|right; now right].
    + assert (Hseen : existsb (String.eqb (title x)) (JSMap.keys m) = false).
      { destruct (existsb _ _) eqn:E; [|reflexivity].
        apply seen_title in E. now apply get_absent in G. }
      rewrite Hseen, (set_absent _ _ _ G), IH.
      * unfold JSMap.values, JSMap.keys. rewrite !map_app. simpl.
        rewrite <- app_assoc. simpl. do 2 f_equal.
        apply first_of_title_seen. intros k.
        rewrite in_app_iff. simpl. tauto.
      * unfold JSMap.values. rewrite map_app. simpl.
        intros a b Ha Hb. apply Heq.
        -- rewrite !in_app_iff in *. simpl in *. tauto.
        -- rewrite !in_app_iff in *. simpl in *. tauto.
Qed.

(** X9.  When the items carry nothing to rank them by - none has an estimate
    greater than another, as when none has savings - the result is the
    first five items of distinct titles, in the order of the input. *)
Theorem merged_without_ranking (mobile desktop : Recommendations) :
  (forall a b, In a (mobile ++ desktop) -> In b (mobile ++ desktop) ->
               JS.greater (getSavingsMs a) (getSavingsMs b) = false) ->
  mergeRecommendations mobile desktop
  = JSArray.slice0 5 (HomePage.first_of_title [] (mobile ++ desktop)).
Proof.
  intros Heq. unfold mergeRecommendations, byTitle_of.
  rewrite (fold_merge_equal_savings (mobile ++ desktop) JSMap.empty)
    by exact Heq.
  cbn [JSMap.values JSMap.keys JSMap.empty map app].
  rewrite (sort_unranked getSavingsMs); [reflexivity|].
  intros x y Hx Hy. apply Heq; now apply first_of_title_In with [].
Qed.

Lemma merged_without_ranking_witness :
  let item t := {| title := t; description := None; savings := None;
                   savingsMs := None |} in
  mergeRecommendations [item "A"; item "B"; item "C"]
    [item "B"; item "D"; item "E"; item "F"]
  = [item "A"; item "B"; item "C"; item "D"; item "E"].
Proof.
  cbv beta zeta.
  rewrite (merged_without_ranking
             [ {| title := "A"; description := None; savings := None;
                  savingsMs := None |};
               {| title := "B"; description := None; savings := None;
                  savingsMs := None |};
               {| title := "C"; description := None; savings := None;
                  savingsMs := None |} ]
             [ {| title := "B"; description := None; savings := None;
                  savingsMs := None |};
               {| title := "D"; description := None; savings := None;
                  savingsMs := None |};
               {| title := "E"; description := None; savings := None;
                  savingsMs := None |};
               {| title := "F"; description := None; savings := None;
                  savingsMs := None |} ]).
  - reflexivity.
  - intros a b Ha Hb. simpl in Ha, Hb.
    repeat (destruct Ha as [<-|Ha]; [|]); try contradiction;
      repeat (destruct Hb as [<-|Hb]; [|]); try contradiction;
      reflexivity.
Defined.
End MergerOrder.

(** ** More on the extractors *)

Section ExtractorProperties.
Import Http.

Lemma selected_of_eligible (refs : list PageSpeedRoute.AuditRef.t)
    (audits : JSMap.t PageSpeedRoute.PageSpeedAudit) :
  PageSpeedRoute.selected refs audits
  = JSArray.slice0 3
      (JSArray.sort
         (fun a b => JS.nullish (PageSpeedRoute.Audit.numericValue b) 0
                     - JS.nullish (PageSpeedRoute.Audit.numericValue a) 0)
         (Eligible.simple refs audits)).
Proof. reflexivity. Qed.

Lemma eligible_simple (refs : list PageSpeedRoute.AuditRef.t)
    (audits : JSMap.t PageSpeedRoute.PageSpeedAudit)
    (a : PageSpeedRoute.PageSpeedAudit) :
  In a (Eligible.simple refs audits) <->
  (exists ref, In ref refs
               /\ JSMap.get audits (PageSpeedRoute.AuditRef.id ref) = Some a)
  /\ JS.truthy (PageSpeedRoute.Audit.title a) = true
  /\ exists q, PageSpeedRoute.Audit.score a = JS.def q /\ q < 1.
Proof.
  unfold Eligible.simple.
  rewrite filter_In, narrowed_In, filter_In, in_map_iff, score_below_one.
  unfold PageSpeedRoute.has_title. simpl.
  split.
  - intros [[(ref & Hget & Href) Ht] Hs]. split; [now exists ref|now split].
  - intros [(ref & Href & Hget) [Ht Hs]]. split; [|exact Hs].
    split; [now exists ref|exact Ht].
Qed.

(** X10.  The pagespeed route recommends the best three: an audit that is
    referenced, has a title and a score below 1 is among the audits behind
    the recommendations unless three of those have a [numericValue] at least
    as large; and there are as many of them as there are such audits, up to
    three. *)
Theorem simple_extractor_takes_best
    (refs : list PageSpeedRoute.AuditRef.t)
    (audits : JSMap.t PageSpeedRoute.PageSpeedAudit)
    (ref : PageSpeedRoute.AuditRef.t) (b : PageSpeedRoute.PageSpeedAudit)
    (q : Q) :
  In ref refs ->
  JSMap.get audits (PageSpeedRoute.AuditRef.id ref) = Some b ->
  JS.truthy (PageSpeedRoute.Audit.title b) = true ->
  PageSpeedRoute.Audit.score b = JS.def q -> q < 1 ->
  (In b (PageSpeedRoute.selected refs audits)
   \/ (List.length (PageSpeedRoute.selected refs audits) = 3%nat
       /\ forall a, In a (PageSpeedRoute.selected refs audits) ->
                    JS.nullish (PageSpeedRoute.Audit.numericValue b) 0
                    <= JS.nullish (PageSpeedRoute.Audit.numericValue a) 0))
  /\ List.length (PageSpeedRoute.selected refs audits)
     = Nat.min 3 (List.length (Eligible.simple refs audits)).
Proof.
  intros Href Hget Ht Hs Hq.
  assert (Hb : In b (Eligible.simple refs audits)).
  { apply eligible_simple. split; [now exists ref|]. split; [exact Ht|].
    now exists q. }
  rewrite selected_of_eligible.
  destruct (sort_slice_top
              (fun a => JS.nullish (PageSpeedRoute.Audit.numericValue a) 0)
              3 (Eligible.simple refs audits))
    as (Hperm & Htop & Hfull & Hlen).
  split; [|exact Hlen].
  apply (Permutation_in _ (Permutation_sym Hperm)) in Hb.
  apply in_app_or in Hb as [Hkept|Hrest]; [now left|right].
  split.
  - apply Hfull. intros E. rewrite E in Hrest. exact Hrest.
  - intros a Ha. now apply Htop.
Qed.

Lemma simple_extractor_takes_best_witness :
  In (snd (Samples.Simple.audit "unused-javascript" "Reduce unused JavaScript"
             (JS.def 0) (Some "Potential savings of 120 KiB") (Some 450)))
     (PageSpeedRoute.selected
        [Samples.Simple.ref "first-contentful-paint";
         Samples.Simple.ref "unused-javascript";
         Samples.Simple.ref "largest-contentful-paint"]
        Samples.Simple.audits)
  \/ List.length
       (PageSpeedRoute.selected
          [Samples.Simple.ref "first-contentful-paint";
           Samples.Simple.ref "unused-javascript";
           Samples.Simple.ref "largest-contentful-paint"]
          Samples.Simple.audits) = 3%nat.
Proof.
  destruct (simple_extractor_takes_best
              [Samples.Simple.ref "first-contentful-paint";
               Samples.Simple.ref "unused-javascript";
               Samples.Simple.ref "largest-contentful-paint"]
              Samples.Simple.audits
              (Samples.Simple.ref "unused-javascript")
              (snd (Samples.Simple.audit "unused-javascript"
                      "Reduce unused JavaScript" (JS.def 0)
                      (Some "Potential savings of 120 KiB") (Some 450)))
              0) as [[H|[H _]] _].
  - simpl. tauto.
  - reflexivity.
  - reflexivity.
  - reflexivity.
  - reflexivity.
  - now left.
  - now right.
Defined.

(** X11.  When the eligible audits have nothing to rank them by - the same
    [numericValue], or none - the pagespeed route recommends the first three
    of them in the order of [auditRefs]. *)
Theorem simple_extractor_keeps_ref_order
    (refs : list PageSpeedRoute.AuditRef.t)
    (audits : JSMap.t PageSpeedRoute.PageSpeedAudit) :
  (forall a b, In a (Eligible.simple refs audits) ->
               In b (Eligible.simple refs audits) ->
               JS.nullish (PageSpeedRoute.Audit.numericValue a) 0
               == JS.nullish (PageSpeedRoute.Audit.numericValue b) 0) ->
  PageSpeedRoute.selected refs audits
  = JSArray.slice0 3 (Eligible.simple refs audits).
Proof.
  intros H. rewrite selected_of_eligible.
  now rewrite (sort_equal_keys
                 (fun a => JS.nullish (PageSpeedRoute.Audit.numericValue a) 0)).
Qed.

Lemma rich_of_eligible (audits : JSMap.t AnalyzeRoute.Audit.t) :
  AnalyzeRoute.selected audits
  = JSArray.slice0 3
      (JSArray.sort
         (fun a b => AnalyzeRoute.savings_of b - AnalyzeRoute.savings_of a)
         (Eligible.rich audits)).
Proof. reflexivity. Qed.

(** X12.  The analyze route recommends the best three: an audit of the payload
    with a score below 1 and savings above 100 ms is among the audits behind
    the recommendations unless three of those save at least as much. *)
Theorem rich_extractor_takes_best (audits : JSMap.t AnalyzeRoute.Audit.t)
    (b : AnalyzeRoute.Audit.t) (q ms : Q) :
  In b (JSMap.values audits) ->
  AnalyzeRoute.Audit.score b = JS.def q -> q < 1 ->
  AnalyzeRoute.overallSavingsMs b = Some ms -> 100 < ms ->
  (In b (AnalyzeRoute.selected audits)
   \/ (List.length (AnalyzeRoute.selected audits) = 3%nat
       /\ forall a, In a (AnalyzeRoute.selected audits) ->
                    exists ms', AnalyzeRoute.overallSavingsMs a = Some ms'
                                /\ ms <= ms'))
  /\ List.length (AnalyzeRoute.selected audits)
     = Nat.min 3 (List.length (Eligible.rich audits)).
Proof.
  intros Hin Hs Hq Hms Hgt.
  assert (Hb : In b (Eligible.rich audits)).
  { apply filter_In. split; [now apply Object_values_In|].
    apply room_for_improvement_true. split; [now exists q|now exists ms]. }
  destruct (sort_slice_top AnalyzeRoute.savings_of 3 (Eligible.rich audits))
    as (Hperm & Htop & Hfull & Hlen).
  rewrite rich_of_eligible. split; [|exact Hlen].
  apply (Permutation_in _ (Permutation_sym Hperm)) in Hb.
  apply in_app_or in Hb as [Hkept|Hrest]; [now left|right].
  split.
  - apply Hfull. intros E. rewrite E in Hrest. exact Hrest.
  - intros a Ha. specialize (Htop a b Ha Hrest).
    destruct (selected_rich audits) as (_ & _ & Hall).
    rewrite Forall_forall in Hall.
    rewrite <- rich_of_eligible in Ha.
    destruct (Hall a Ha) as (_ & _ & ms' & Hms' & _).
    exists ms'. split; [exact Hms'|].
    unfold AnalyzeRoute.savings_of in Htop. now rewrite Hms, Hms' in Htop.
Qed.

Lemma rich_extractor_takes_best_witness :
  In (snd (Samples.Rich.audit "unused-javascript" (Some "")
             (JS.def (1 # 2)) None (Some 2600)))
     (AnalyzeRoute.selected
        (Samples.Rich.metric_audits ++ Samples.Rich.other_audits))
  \/ List.length
       (AnalyzeRoute.selected
          (Samples.Rich.metric_audits ++ Samples.Rich.other_audits)) = 3%nat.
Proof.
  destruct (rich_extractor_takes_best
              (Samples.Rich.metric_audits ++ Samples.Rich.other_audits)
              (snd (Samples.Rich.audit "unused-javascript" (Some "")
                      (JS.def (1 # 2)) None (Some 2600)))
              (1 # 2) 2600) as [[H|[H _]] _].
  - simpl. tauto.
  - reflexivity.
  - reflexivity.
  - reflexivity.
  - reflexivity.
  - now left.
  - now right.
Defined.
End ExtractorProperties.

Lemma simple_extractor_keeps_ref_order_witness :
  let plain id title :=
    Samples.Simple.audit id title (JS.def 0) None None in
  map PageSpeedRoute.Audit.title
    (PageSpeedRoute.selected
       [Samples.Simple.ref "d"; Samples.Simple.ref "b";
        Samples.Simple.ref "a"; Samples.Simple.ref "c"]
       [plain "a" "First"; plain "b" "Second"; plain "c" "Third";
        plain "d" "Fourth"])
  = ["Fourth"; "Second"; "First"].
Proof.
  cbv beta zeta.
  rewrite (simple_extractor_keeps_ref_order
             [Samples.Simple.ref "d"; Samples.Simple.ref "b";
              Samples.Simple.ref "a"; Samples.Simple.ref "c"]
             [Samples.Simple.audit "a" "First" (JS.def 0) None None;
              Samples.Simple.audit "b" "Second" (JS.def 0) None None;
              Samples.Simple.audit "c" "Third" (JS.def 0) None None;
              Samples.Simple.audit "d" "Fourth" (JS.def 0) None None]).
  - reflexivity.
  - intros a b Ha Hb. simpl in Ha, Hb.
    repeat (destruct Ha as [<-|Ha]; [|]); try contradiction;
      repeat (destruct Hb as [<-|Hb]; [|]); try contradiction;
      reflexivity.
Defined.

(** ** More on the request handlers *)

Section HandlerProperties.
Import Http.

(** X13.  Without a configured key neither route makes an upstream call, whatever
    the request; a request that passes the validation of its route is then
    answered with status 500 and the message of the missing key. *)
Theorem no_key_no_call
    (envP : Env PageSpeedRoute.PageSpeedResponse)
    (envA : Env AnalyzeRoute.Data)
    (request : Request) (first : Strategy) :
  (JS.truthy_opt (GOOGLE_PAGESPEED_API_KEY envP) = false ->
   fst (PageSpeedRoute.POST envP request first) = []
   /\ forall fields target,
        request = Json (JsonValue fields) ->
        url fields = Some target -> test_http target = true ->
        snd (PageSpeedRoute.POST envP request first)
        = {| status := 500;
             body := PageSpeedRoute.ErrorBody KeyNotConfigured |})
  /\ (JS.truthy_opt (GOOGLE_PAGESPEED_API_KEY envA) = false ->
      fst (AnalyzeRoute.POST envA request first) = []
      /\ forall fields,
           request = Json (JsonValue fields) ->
           JS.truthy_opt (url fields) = true ->
           JS.truthy_opt (email fields) = true ->
           snd (AnalyzeRoute.POST envA request first)
           = {| status := 500;
                body := AnalyzeRoute.ErrorBody ApiKeyMissing |}).
Proof.
  split; intros Hkey.
  - split.
    + destruct (fst (PageSpeedRoute.POST envP request first)) as [|call calls]
        eqn:E; [reflexivity|].
      assert (Hin : In call (fst (PageSpeedRoute.POST envP request first)))
        by (rewrite E; now left).
      apply pagespeed_calls in Hin
        as (fields & target & key & strategy & _ & _ & _ & Hk & Htk & _).
      rewrite Hk in Hkey. simpl in Hkey. congruence.
    + intros fields target -> Hu Hh. unfold PageSpeedRoute.POST.
      rewrite Hu. simpl. rewrite Hh.
      assert (Ht : JS.truthy target = true) by (now destruct target).
      rewrite Ht. simpl. unfold PageSpeedRoute.fetchPageSpeed.
      rewrite Hkey. simpl. now destruct first.
  - split.
    + destruct (fst (AnalyzeRoute.POST envA request first)) as [|call calls]
        eqn:E; [reflexivity|].
      assert (Hin : In call (fst (AnalyzeRoute.POST envA request first)))
        by (rewrite E; now left).
      apply analyze_calls_made in Hin
        as (fields & target & address & key & _ & _ & _ & _ & _ & Hk & Htk
            & _).
      rewrite Hk in Hkey. simpl in Hkey. congruence.
    + intros fields -> Hu He. unfold AnalyzeRoute.POST.
      now rewrite Hu, He, Hkey.
Qed.

Lemma no_key_no_call_witness :
  PageSpeedRoute.POST
    {| GOOGLE_PAGESPEED_API_KEY := None;
       fetch := fetch (Samples.Simple.serving Samples.Simple.payload) |}
    (Samples.request (Some "https://example.com") None) Mobile
  = ([], {| status := 500;
            body := PageSpeedRoute.ErrorBody KeyNotConfigured |})
  /\ AnalyzeRoute.POST
       {| GOOGLE_PAGESPEED_API_KEY := Some "";
          fetch := fetch (Samples.Rich.serving Samples.Rich.data) |}
       (Samples.request (Some "https://example.com") (Some "me@example.com"))
       Desktop
     = ([], {| status := 500;
               body := AnalyzeRoute.ErrorBody ApiKeyMissing |}).
Proof.
  split.
  - destruct (no_key_no_call
                {| GOOGLE_PAGESPEED_API_KEY := None;
                   fetch :=
                     fetch (Samples.Simple.serving Samples.Simple.payload) |}
                (Samples.Rich.serving Samples.Rich.data)
                (Samples.request (Some "https://example.com") None) Mobile)
      as [H _].
    destruct (H eq_refl) as [Hcalls Hresp].
    apply injective_projections; simpl.
    + exact Hcalls.
    + exact (Hresp _ "https://example.com" eq_refl eq_refl eq_refl).
  - destruct (no_key_no_call
                (Samples.Simple.serving Samples.Simple.payload)
                {| GOOGLE_PAGESPEED_API_KEY := Some "";
                   fetch := fetch (Samples.Rich.serving Samples.Rich.data) |}
                (Samples.request (Some "https://example.com")
                   (Some "me@example.com")) Desktop)
      as [_ H].
    destruct (H eq_refl) as [Hcalls Hresp].
    apply injective_projections; simpl.
    + exact Hcalls.
    + exact (Hresp _ eq_refl eq_refl eq_refl).
Defined.
End HandlerProperties.

Section Reports.
Import Http.

(** Closes a goal whose hypothesis-free premise is a status that the
    branches left cannot have. *)
Ltac refuted :=
  repeat match goal with
         | |- context [fetch ?e ?c] => destruct (fetch e c); simpl
         | |- context [ok ?r] => destruct (ok r); simpl
         | |- context [up_json ?r] =>
             destruct (up_json r) as [?|[|?]]; simpl
         | |- context [AnalyzeRoute.extract ?d] =>
             destruct (AnalyzeRoute.extract d); simpl
         | |- context [message_truthy ?m] =>
             destruct (message_truthy m); simpl
         | |- context [Promise_all ?f _ _] => is_var f; destruct f; simpl
         end;
  let H := fresh in intros H; discriminate H.



(** X15.  The pagespeed route makes no upstream call or exactly two: the mobile
    call and then the desktop call, both for the submitted url, which passes
    the test, with the configured key and the performance category. *)
Theorem pagespeed_upstream_calls
    (env : Env PageSpeedRoute.PageSpeedResponse)
    (request : Request) (first : Strategy) :
  fst (PageSpeedRoute.POST env request first) = []
  \/ exists fields target key,
       request = Json (JsonValue fields)
       /\ url fields = Some target /\ test_http target = true
       /\ GOOGLE_PAGESPEED_API_KEY env = Some key /\ JS.truthy key = true
       /\ fst (PageSpeedRoute.POST env request first)
          = [ {| call_url := target; call_key := key;
                 call_strategy := Mobile;
                 call_category := Some "performance" |};
              {| call_url := target; call_key := key;
                 call_strategy := Desktop;
                 call_category := Some "performance" |} ].
Proof.
  destruct (fst (PageSpeedRoute.POST env request first)) as [|call calls]
    eqn:E; [now left|right].
  assert (Hin : In call (fst (PageSpeedRoute.POST env request first)))
    by (rewrite E; now left).
  apply pagespeed_calls in Hin
    as (fields & target & key & strategy & -> & Hu & Hh & Hk & Htk & _ & _).
  exists fields, target, key. repeat (split; [assumption || reflexivity|]).
  rewrite <- E. unfold PageSpeedRoute.POST, PageSpeedRoute.fetchPageSpeed.
  rewrite Hu, Hk. simpl. rewrite Hh, Htk.
  assert (Ht : JS.truthy target = true) by (now destruct target).
  rewrite Ht. reflexivity.
Qed.

End Reports.

Section AnalyzeReports.
Import Http.

Ltac refuted :=
  repeat match goal with
         | |- context [fetch ?e ?c] => destruct (fetch e c); simpl
         | |- context [ok ?r] => destruct (ok r); simpl
         | |- context [up_json ?r] =>
             destruct (up_json r) as [?|[|?]]; simpl
         | |- context [AnalyzeRoute.extract ?d] =>
             destruct (AnalyzeRoute.extract d); simpl
         | |- context [message_truthy ?m] =>
             destruct (message_truthy m); simpl
         | |- context [Promise_all ?f _ _] => is_var f; destruct f; simpl
         end;
  let H := fresh in intros H; discriminate H.

(** X17.  The analyze route answers 200 exactly when email and url are given, the
    key is configured, both upstream calls are answered with a success
    status and a body that parses to a value other than [null], and both
    payloads have every part that the extraction reads; the body then
    carries the two analyses, the url and the email. *)
Theorem analyze_report (env : Env AnalyzeRoute.Data)
    (request : Request) (first : Strategy) :
  status (snd (AnalyzeRoute.POST env request first)) = 200%nat <->
  exists fields target address key rm rd dm dd am ad,
    request = Json (JsonValue fields)
    /\ url fields = Some target /\ JS.truthy target = true
    /\ email fields = Some address /\ JS.truthy address = true
    /\ GOOGLE_PAGESPEED_API_KEY env = Some key /\ JS.truthy key = true
    /\ fetch env {| call_url := target; call_key := key;
                    call_strategy := Mobile; call_category := None |}
       = Responded rm
    /\ ok rm = true /\ up_json rm = Json (JsonValue dm)
    /\ AnalyzeRoute.extract dm = Fulfilled am
    /\ fetch env {| call_url := target; call_key := key;
                    call_strategy := Desktop; call_category := None |}
       = Responded rd
    /\ ok rd = true /\ up_json rd = Json (JsonValue dd)
    /\ AnalyzeRoute.extract dd = Fulfilled ad
    /\ body (snd (AnalyzeRoute.POST env request first))
       = AnalyzeRoute.ReportBody am ad target address.
Proof.
  split.
  - unfold AnalyzeRoute.POST.
    destruct request as [text|[|fields]]; simpl;
      try (unfold AnalyzeRoute.caught; simpl; discriminate).
    destruct (email fields) as [address|] eqn:He; simpl; try discriminate.
    destruct (JS.truthy address) eqn:Hte; simpl; try discriminate.
    destruct (url fields) as [target|] eqn:Hu; simpl; try discriminate.
    destruct (JS.truthy target) eqn:Ht; simpl; try discriminate.
    destruct (GOOGLE_PAGESPEED_API_KEY env) as [key|] eqn:Hk; simpl;
      try discriminate.
    destruct (JS.truthy key) eqn:Htk; simpl; try discriminate.
    unfold AnalyzeRoute.caught.
    set (cm := {| call_url := target; call_key := key;
                  call_strategy := Mobile; call_category := None |}).
    set (cd := {| call_url := target; call_key := key;
                  call_strategy := Desktop; call_category := None |}).
    destruct (fetch env cm) as [tm|rm] eqn:Fm; [refuted|].
    destruct (ok rm) eqn:Om; simpl; [|refuted].
    destruct (up_json rm) as [sm|[|dm]] eqn:Jm; [refuted|refuted|].
    destruct (AnalyzeRoute.extract dm) as [am|em] eqn:Em; [|refuted].
    destruct (fetch env cd) as [td|rd] eqn:Fd; [refuted|].
    destruct (ok rd) eqn:Od; simpl; [|refuted].
    destruct (up_json rd) as [sd|[|dd]] eqn:Jd; [refuted|refuted|].
    destruct (AnalyzeRoute.extract dd) as [ad|ed] eqn:Ed; [|refuted].
    intros _. exists fields, target, address, key, rm, rd, dm, dd, am, ad.
    auto 20.
  - intros (fields & target & address & key & rm & rd & dm & dd & am & ad
            & -> & Hu & Ht & He & Hte & Hk & Htk & Fm & Om & Jm & Em
            & Fd & Od & Jd & Ed & _).
    rewrite (analyze_calls env fields first target address key) by assumption.
    unfold AnalyzeRoute.analyzePageSpeed. cbn [snd].
    rewrite Fm, Fd, Om, Od, Jm, Jd, Em, Ed. reflexivity.
Qed.

Lemma analyze_report_witness :
  status (snd (AnalyzeRoute.POST (Samples.Rich.serving Samples.Rich.data)
                 (Samples.request (Some "https://example.com")
                    (Some "me@example.com")) Desktop)) = 200%nat.
Proof.
  apply (analyze_report (Samples.Rich.serving Samples.Rich.data)
           (Samples.request (Some "https://example.com")
              (Some "me@example.com")) Desktop).
  exists {| url := Some "https://example.com";
            email := Some "me@example.com" |},
    "https://example.com", "me@example.com", "key",
    {| up_status := 200; up_text := "";
       up_json := Json (JsonValue Samples.Rich.data) |},
    {| up_status := 200; up_text := "";
       up_json := Json (JsonValue Samples.Rich.data) |},
    Samples.Rich.data, Samples.Rich.data,
    Samples.Rich.result, Samples.Rich.result.
  repeat split.
Defined.

(** X18.  The analyze route never answers with an empty error message: a thrown
    error without a message is answered with the fallback text. *)
Theorem analyze_error_has_message (env : Env AnalyzeRoute.Data)
    (request : Request) (first : Strategy) (message : Message) :
  body (snd (AnalyzeRoute.POST env request first))
  = AnalyzeRoute.ErrorBody message ->
  message_truthy message = true.
Proof.
  assert (Hcaught : forall m,
             body (AnalyzeRoute.caught m) = AnalyzeRoute.ErrorBody message ->
             message_truthy message = true).
  { intros m. unfold AnalyzeRoute.caught. simpl.
    destruct (message_truthy m) eqn:E; intros [= <-]; auto. }
  unfold AnalyzeRoute.POST.
  destruct request as [text|[|fields]]; try apply Hcaught.
  destruct (negb (JS.truthy_opt (email fields))
            || negb (JS.truthy_opt (url fields)));
    [simpl; now intros [= <-]|].
  destruct (negb (JS.truthy_opt (GOOGLE_PAGESPEED_API_KEY env)));
    [simpl; now intros [= <-]|].
  simpl. destruct (Promise_all _ _ _) as [[m d]|m]; [discriminate|].
  apply Hcaught.
Qed.

Lemma analyze_error_has_message_witness :
  message_truthy AnalyzeFallback = true
  /\ body (snd (AnalyzeRoute.POST
                  {| GOOGLE_PAGESPEED_API_KEY := Some "key";
                     fetch := fun _ => NetworkFailure "" |}
                  (Samples.request (Some "https://example.com")
                     (Some "me@example.com")) Mobile))
     = AnalyzeRoute.ErrorBody AnalyzeFallback.
Proof.
  split; [|reflexivity].
  apply (analyze_error_has_message
           {| GOOGLE_PAGESPEED_API_KEY := Some "key";
              fetch := fun _ => NetworkFailure "" |}
           (Samples.request (Some "https://example.com")
              (Some "me@example.com")) Mobile).
  reflexivity.
Defined.

Lemma truthy_append_s (a : string) : JS.truthy (a ++ "s")%string = true.
Proof. now destruct a. Qed.

(** X19.  Every entry that the analyze route returns is the projection of an
    audit of the payload with savings above 100 ms, which the entry carries
    as [savingsMs]; its savings text is not empty: it is the display value
    of that audit when that is not empty, and otherwise the savings
    divided by 1000 and rounded, followed by "s". *)
Theorem rich_entries_have_savings (data : AnalyzeRoute.Data)
    (r : AnalyzeRoute.Analysis) (e : AnalyzeRoute.Entry.t) :
  AnalyzeRoute.extract data = Fulfilled r ->
  In e (AnalyzeRoute.recommendations r) ->
  exists audits audit,
    JS.chain (AnalyzeRoute.lighthouseResult data)
      AnalyzeRoute.Lighthouse.audits = Some audits
    /\ In audit (JSMap.values audits)
    /\ e = AnalyzeRoute.entry_of audit
    /\ AnalyzeRoute.overallSavingsMs audit
       = Some (AnalyzeRoute.Entry.savingsMs e)
    /\ 100 < AnalyzeRoute.Entry.savingsMs e
    /\ JS.truthy (AnalyzeRoute.Entry.savings e) = true
    /\ (forall text, AnalyzeRoute.Audit.displayValue audit = Some text ->
                     JS.truthy text = true ->
                     AnalyzeRoute.Entry.savings e = text)
    /\ (JS.truthy_opt (AnalyzeRoute.Audit.displayValue audit) = false ->
        AnalyzeRoute.Entry.savings e
        = (AnalyzeRoute.show
             (JS.round
                (JS.over (JS.Num (AnalyzeRoute.Entry.savingsMs e)) 1000))
           ++ "s")%string).
Proof.
  intros H He.
  apply extract_fulfilled in H
    as (lh & cats & perf & audits & a1 & a2 & a3 & a4 & a5 &
        H1 & _ & _ & H4 & _ & _ & _ & _ & _ & ->).
  simpl in He. apply in_map_iff in He as (audit & <- & Ha).
  destruct (selected_rich audits) as (_ & _ & Hall).
  rewrite Forall_forall in Hall.
  destruct (Hall audit Ha) as (Hin & _ & ms & Hms & Hgt).
  exists audits, audit. rewrite H1. simpl.
  split; [exact H4|]. split; [exact Hin|]. split; [reflexivity|].
  unfold AnalyzeRoute.entry_of, AnalyzeRoute.seconds,
    AnalyzeRoute.savings_of.
  cbn [AnalyzeRoute.Entry.savingsMs AnalyzeRoute.Entry.savings].
  rewrite Hms. cbn [JS.nullish].
  split; [reflexivity|]. split; [exact Hgt|]. split; [|split].
  - destruct (AnalyzeRoute.Audit.displayValue audit) as [text|]; simpl.
    + destruct (JS.truthy text) eqn:E; [exact E|apply truthy_append_s].
    + apply truthy_append_s.
  - intros text -> Ht. simpl. now rewrite Ht.
  - intros ->. reflexivity.
Qed.

Lemma rich_entries_have_savings_witness :
  let e := {| AnalyzeRoute.Entry.title := Some "";
              AnalyzeRoute.Entry.description := None;
              AnalyzeRoute.Entry.savings := "3s";
              AnalyzeRoute.Entry.savingsMs := 2600 |} in
  exists audit,
    In audit
      (JSMap.values (Samples.Rich.metric_audits ++ Samples.Rich.other_audits))
    /\ e = AnalyzeRoute.entry_of audit
    /\ 100 < AnalyzeRoute.Entry.savingsMs e.
Proof.
  cbv zeta.
  destruct (rich_entries_have_savings Samples.Rich.data Samples.Rich.result
              {| AnalyzeRoute.Entry.title := Some "";
                 AnalyzeRoute.Entry.description := None;
                 AnalyzeRoute.Entry.savings := "3s";
                 AnalyzeRoute.Entry.savingsMs := 2600 |})
    as (audits & audit & Ha & Hin & He & _ & Hms & _).
  - vm_compute. reflexivity.
  - simpl. tauto.
  - injection Ha as <-. exists audit. auto.
Defined.

(** The seconds are printed as [Number::toString] prints them: the shortest
    digits that are read back as the number, with an exponent from 1e21
    on. *)
Example seconds_in_doubles :
  AnalyzeRoute.show (JS.round (JS.over (JS.Num 2500) 1000)) = "3"
  /\ AnalyzeRoute.show (JS.round (JS.over (JS.Num 101) 1000)) = "0"
  /\ AnalyzeRoute.show (JS.Num (inject_Z (2 ^ 60))) = "1152921504606847000"
  /\ AnalyzeRoute.show (JS.Num (inject_Z (2 ^ 70)))
     = "1.1805916207174113e+21"
  /\ AnalyzeRoute.show (JS.rounded (inject_Z (10 ^ 23))) = "1e+23".
Proof. vm_compute. repeat split. Qed.
End AnalyzeReports.

(** ** The form of the page *)

Section Submission.
Import Http HomePage.



Lemma fetchPageSpeed_rejection
    (env : Env PageSpeedRoute.PageSpeedResponse) (target : string)
    (strategy : Strategy) (message : Message) :
  snd (PageSpeedRoute.fetchPageSpeed env target strategy) = Rejected message ->
  message <> Http.InvalidUrl.
Proof.
  unfold PageSpeedRoute.fetchPageSpeed.
  destruct (negb _); simpl; [intros [= <-]; discriminate|].
  destruct (fetch env _) as [text|response]; [intros [= <-]; discriminate|].
  destruct (negb (ok response)); [intros [= <-]; discriminate|].
  destruct (up_json response); [intros [= <-]; discriminate|discriminate].
Qed.

(** What makes the two extractions fail is a payload, not a call. *)
Lemma report_reason (first : Strategy)
    (m d : Outcome (Body PageSpeedRoute.PageSpeedResponse))
    (message : Message) :
  PageSpeedRoute.report first m d = Rejected message ->
  m = Rejected message \/ d = Rejected message
  \/ message = CannotRead "lighthouseResult".
Proof.
  unfold PageSpeedRoute.report.
  destruct (Promise_all first m d) as [[pm pd]|e] eqn:P; simpl.
  - destruct pm as [|pm], pd as [|pd]; simpl; intros [= <-]; auto.
  - intros [= <-]. destruct m, d, first; simpl in P;
      try discriminate P; injection P as <-; auto.
Qed.

Lemma report_fulfilled (first : Strategy)
    (m d : Outcome (Body PageSpeedRoute.PageSpeedResponse))
    (mobile desktop : PageSpeedRoute.ApiResult) :
  PageSpeedRoute.report first m d = Fulfilled (mobile, desktop) ->
  exists pm pd,
    m = Fulfilled (JsonValue pm) /\ d = Fulfilled (JsonValue pd)
    /\ mobile = PageSpeedRoute.extractResult pm
    /\ desktop = PageSpeedRoute.extractResult pd.
Proof.
  unfold PageSpeedRoute.report.
  destruct m as [[|pm]|em], d as [[|pd]|ed]; destruct first; simpl;
    try discriminate.
  - intros [= <- <-]. now exists pm, pd.
  - intros [= <- <-]. now exists pm, pd.
Qed.

(** What the page holds after a submission to the pagespeed route. *)
Lemma route_settles (env : Env PageSpeedRoute.PageSpeedResponse)
    (first : Strategy) (s : State) :
  let s' := snd (handleSubmit (route env first) s) in
  (result s' = None /\ exists notice, error s' = Some notice
                                      /\ notice <> Served Http.InvalidUrl)
  \/ (error s' = None
      /\ exists pm pd,
           result s'
           = Some (ResultData
                     {| mobile := received (PageSpeedRoute.extractResult pm);
                        desktop :=
                          received (PageSpeedRoute.extractResult pd) |})).
Proof.
  cbv zeta. unfold handleSubmit.
  destruct (RegExp.test EMAIL_REGEX (email s)); simpl;
    [|left; split; [reflexivity|eexists; split; [reflexivity|discriminate]]].
  destruct (test_http (url s)) eqn:Hu; simpl;
    [|left; split; [reflexivity|eexists; split; [reflexivity|discriminate]]].
  unfold route, PageSpeedRoute.POST. cbn [Http.url JS.truthy_opt JS.nullish].
  assert (Ht : JS.truthy (url s) = true) by (now destruct (url s)).
  rewrite Ht, ?Hu. simpl.
  destruct (PageSpeedRoute.fetchPageSpeed env (url s) Mobile)
    as [cm om] eqn:Fm.
  destruct (PageSpeedRoute.fetchPageSpeed env (url s) Desktop)
    as [cd od] eqn:Fd.
  cbn [snd].
  destruct (PageSpeedRoute.report first om od) as [[m d]|message] eqn:P;
    simpl.
  - right. split; [reflexivity|].
    apply report_fulfilled in P as (pm & pd & _ & _ & -> & ->).
    now exists pm, pd.
  - left. split; [reflexivity|]. eexists. split; [reflexivity|].
    unfold refusal. simpl.
    destruct (message_truthy message); [|discriminate].
    intros [= ->].
    apply report_reason in P as [-> |[-> |P]].
    + exact (fetchPageSpeed_rejection env (url s) Mobile _
               (f_equal snd Fm) eq_refl).
    + exact (fetchPageSpeed_rejection env (url s) Desktop _
               (f_equal snd Fd) eq_refl).
    + discriminate P.
Qed.

(** X21.  With the pagespeed route behind it, the page never shows the route's
    message of an invalid url: what the page posts has passed the same test.
    A result that the page holds is a report of two extractions, so reading
    its recommendations never throws. *)
Theorem page_is_never_refused (env : Env PageSpeedRoute.PageSpeedResponse)
    (first : Strategy) (s : State) :
  let s' := snd (handleSubmit (route env first) s) in
  error s' <> Some (Served Http.InvalidUrl)
  /\ (forall data, result s' = Some data ->
                   exists pm pd,
                     data = ResultData
                              {| mobile :=
                                   received (PageSpeedRoute.extractResult pm);
                                 desktop :=
                                   received (PageSpeedRoute.extractResult pd)
                              |})
  /\ exists items, combinedRecommendations s' = Fulfilled items.
Proof.
  cbv zeta. unfold combinedRecommendations.
  destruct (route_settles env first s)
    as [(Hr & notice & He & Hn)|(He & pm & pd & Hr)]; rewrite He, Hr.
  - split; [congruence|]. split; [discriminate|eauto].
  - split; [discriminate|]. split; [|eauto].
    intros data [= <-]. now exists pm, pd.
Qed.

Lemma page_is_never_refused_witness :
  exists pm pd,
    PageSamples.report
    = {| mobile := received (PageSpeedRoute.extractResult pm);
         desktop := received (PageSpeedRoute.extractResult pd) |}.
Proof.
  destruct (page_is_never_refused
              (Samples.Simple.serving Samples.Simple.payload) Mobile
              PageSamples.form) as (_ & Hreport & _).
  destruct (Hreport (ResultData PageSamples.report) eq_refl)
    as (pm & pd & H).
  exists pm, pd.
  exact (f_equal (fun d => match d with
                          | ResultData r => r
                          | _ => PageSamples.report
                          end) H).
Defined.

Lemma page_is_never_refused_helper
    (env : Env PageSpeedRoute.PageSpeedResponse)
    (first : Strategy) (s : State) (r : PageSpeedResult) :
  result (snd (handleSubmit (route env first) s)) = Some (ResultData r) ->
  exists pm pd,
    r = {| mobile := received (PageSpeedRoute.extractResult pm);
           desktop := received (PageSpeedRoute.extractResult pd) |}.
Proof.
  intros Hr.
  destruct (route_settles env first s)
    as [(Hn & _)|(_ & pm & pd & Hp)].
  - rewrite Hn in Hr. discriminate.
  - rewrite Hp in Hr. injection Hr as <-. now exists pm, pd.
Qed.

(** X22.  With the pagespeed route behind it, the page has nothing to rank the
    recommendations by: the route sends titles and descriptions only, every
    estimate is 0, and the combined list is the first five recommendations
    of distinct titles, the mobile ones before the desktop ones, each list
    in the order the route gave it. *)
Theorem page_lists_first_titles (env : Env PageSpeedRoute.PageSpeedResponse)
    (first : Strategy) (s : State) (r : PageSpeedResult) :
  result (snd (handleSubmit (route env first) s)) = Some (ResultData r) ->
  combinedRecommendations (snd (handleSubmit (route env first) s))
  = Fulfilled
      (JSArray.slice0 5
         (first_of_title []
            (recommendations (mobile r) ++ recommendations (desktop r))))
  /\ forall x, In x (recommendations (mobile r)
                     ++ recommendations (desktop r)) ->
               Page.savings x = None /\ Page.savingsMs x = None
               /\ Page.getSavingsMs x = JS.Num 0.
Proof.
  intros Hr.
  destruct (page_is_never_refused_helper env first s r Hr) as (pm & pd & ->).
  unfold combinedRecommendations. rewrite Hr. cbn [mobile desktop].
  assert (Hzero : forall x,
             In x (recommendations
                     (received (PageSpeedRoute.extractResult pm))
                   ++ recommendations
                        (received (PageSpeedRoute.extractResult pd))) ->
             Page.savings x = None /\ Page.savingsMs x = None
             /\ Page.getSavingsMs x = JS.Num 0).
  { intros x Hx. apply in_app_or in Hx as [Hx|Hx];
      unfold received in Hx; simpl in Hx;
      apply in_map_iff in Hx as (e & <- & _); auto. }
  split; [|exact Hzero].
  assert (Heq : forall a b,
             In a (recommendations
                     (received (PageSpeedRoute.extractResult pm))
                   ++ recommendations
                        (received (PageSpeedRoute.extractResult pd))) ->
             In b (recommendations
                     (received (PageSpeedRoute.extractResult pm))
                   ++ recommendations
                        (received (PageSpeedRoute.extractResult pd))) ->
             JS.greater (Page.getSavingsMs a) (Page.getSavingsMs b)
             = false).
  { intros a b Ha Hb.
    destruct (Hzero a Ha) as (_ & _ & ->).
    destruct (Hzero b Hb) as (_ & _ & ->). reflexivity. }
  f_equal. unfold Page.mergeRecommendations, Page.byTitle_of.
  rewrite (fold_merge_equal_savings _ JSMap.empty) by exact Heq.
  cbn [JSMap.values JSMap.keys JSMap.empty map app].
  rewrite (sort_unranked Page.getSavingsMs); [reflexivity|].
  intros x y Hx Hy. apply Heq; now apply first_of_title_In with [].
Qed.

Lemma page_lists_first_titles_witness :
  combinedRecommendations
    (snd (handleSubmit
            (route (Samples.Simple.serving Samples.Simple.payload) Mobile)
            PageSamples.form))
  = Fulfilled
      (JSArray.slice0 5
         (first_of_title []
            (recommendations (mobile PageSamples.report)
             ++ recommendations (desktop PageSamples.report)))).
Proof.
  apply (page_lists_first_titles
           (Samples.Simple.serving Samples.Simple.payload) Mobile
           PageSamples.form PageSamples.report).
  reflexivity.
Defined.
End Submission.
